(** * Connection lifecycle of the station firmware: a shallow embedding

    The development follows the C sources of the repository file by file.
    Every translation unit becomes a module whose state record holds the
    file's [static] variables and whose functions return the new state
    together with the list of calls made to collaborators (the radio
    host, the IDF services, the sibling components), in program order.
    Return codes of those collaborators are inputs of the model.
    Constants that come from SDK headers are fields of a record of
    constants, so every result holds for all their values. *)

From Stdlib Require Import ZArith List String Ascii Bool Lia.
From Stdlib Require Import Strings.Byte.
Import ListNotations.
Open Scope Z_scope.

(** ** Notions shared by all translation units *)

Module C.

(** A 32-bit [int] kept in two's complement range. *)
Definition INT_MIN : Z := - 2 ^ 31.
Definition INT_MAX : Z := 2 ^ 31 - 1.

Definition int_wrap (z : Z) : Z := (z + 2 ^ 31) mod 2 ^ 32 - 2 ^ 31.

Definition is_int (z : Z) : Prop := INT_MIN <= z <= INT_MAX.

Inductive esp_log_level := ESP_LOG_ERROR | ESP_LOG_WARN | ESP_LOG_INFO | ESP_LOG_DEBUG.

(** Number of entries of a call list selected by a boolean test. *)
Definition count {A : Type} (p : A -> bool) (l : list A) : nat :=
  List.length (List.filter p l).

End C.

(** ** station/components/WiFi/WiFi.c *)

Module WiFi.

(** [esp_event_base_t] values are compared by identity. *)
Inductive esp_event_base_t :=
| WIFI_EVENT
| IP_EVENT
| OTHER_BASE (name : string).

Definition base_eqb (a b : esp_event_base_t) : bool :=
  match a, b with
  | WIFI_EVENT, WIFI_EVENT => true
  | IP_EVENT, IP_EVENT => true
  | OTHER_BASE x, OTHER_BASE y => String.eqb x y
  | _, _ => false
  end.

(** Constants of sdkconfig and of the IDF headers. *)
Record constants := {
  ESP_MAXIMUM_RETRY : Z;
  WIFI_EVENT_STA_START : Z;
  WIFI_EVENT_STA_DISCONNECTED : Z;
  IP_EVENT_STA_GOT_IP : Z;
  ESP_OK : Z
}.

Definition BIT0 : Z := 1.
Definition BIT1 : Z := 2.
Definition WIFI_CONNECTED_BIT : Z := BIT0.
Definition WIFI_FAIL_BIT : Z := BIT1.

(** The file's static variables; the event group is its bit set. *)
Record state := {
  s_retry_num : Z;
  s_wifi_event_group : Z
}.

Definition initial : state :=
  {| s_retry_num := 0; s_wifi_event_group := 0 |}.

(** Calls leaving the translation unit. *)
Inductive action :=
| esp_wifi_connect
| xEventGroupSetBits (bits : Z)
| led_control_set (on : Z)
| web_server_start
| esp_netif_init
| esp_event_loop_create_default
| esp_netif_create_default_wifi_sta
| esp_wifi_init
| esp_event_handler_instance_register (base : esp_event_base_t) (id : option Z)
| esp_wifi_set_mode
| esp_wifi_set_config
| esp_wifi_start
| ESP_LOG (level : C.esp_log_level) (fmt : string).

Record esp_event := {
  event_base : esp_event_base_t;
  event_id : Z
}.

Definition wifi_event_handler (K : constants) (ev : esp_event) (s : state)
  : state * list action :=
  if base_eqb (event_base ev) WIFI_EVENT && (event_id ev =? WIFI_EVENT_STA_START K) then
    (s, [ESP_LOG C.ESP_LOG_INFO "WiFi STA started, trying to connect..."; esp_wifi_connect])
  else if base_eqb (event_base ev) WIFI_EVENT && (event_id ev =? WIFI_EVENT_STA_DISCONNECTED K) then
    if s_retry_num s <? ESP_MAXIMUM_RETRY K then
      ({| s_retry_num := C.int_wrap (s_retry_num s + 1);
          s_wifi_event_group := s_wifi_event_group s |},
       [ESP_LOG C.ESP_LOG_INFO "WiFi disconnected";
        esp_wifi_connect;
        ESP_LOG C.ESP_LOG_INFO "Retry to connect to the AP, try #%d"])
    else
      ({| s_retry_num := s_retry_num s;
          s_wifi_event_group := Z.lor (s_wifi_event_group s) WIFI_FAIL_BIT |},
       [ESP_LOG C.ESP_LOG_INFO "WiFi disconnected";
        xEventGroupSetBits WIFI_FAIL_BIT;
        ESP_LOG C.ESP_LOG_INFO "Giving up on WiFi after too many retries"])
  else if base_eqb (event_base ev) IP_EVENT && (event_id ev =? IP_EVENT_STA_GOT_IP K) then
    ({| s_retry_num := 0;
        s_wifi_event_group := Z.lor (s_wifi_event_group s) WIFI_CONNECTED_BIT |},
     [ESP_LOG C.ESP_LOG_INFO "Got IP: %d.%d.%d.%d";
      led_control_set 1;
      web_server_start;
      xEventGroupSetBits WIFI_CONNECTED_BIT])
  else (s, []).

(** The events the default loop hands to the handler, one after the
    other. *)
Fixpoint deliver (K : constants) (evs : list esp_event) (s : state)
  : state * list action :=
  match evs with
  | [] => (s, [])
  | ev :: rest =>
      let '(s1, t1) := wifi_event_handler K ev s in
      let '(s2, t2) := deliver K rest s1 in
      (s2, t1 ++ t2)
  end.

(** Return codes of the bring-up calls of [wifi_manager_start]. *)
Record bringup := {
  esp_netif_init_rc : Z;
  esp_event_loop_create_default_rc : Z;
  esp_wifi_init_rc : Z;
  register_any_id_rc : Z;
  register_got_ip_rc : Z;
  esp_wifi_set_mode_rc : Z;
  esp_wifi_set_config_rc : Z;
  esp_wifi_start_rc : Z
}.

(** How a call of [wifi_manager_start] ends: [ESP_ERROR_CHECK] aborted,
    the wait never saw one of its bits, or the function returned. *)
Inductive outcome :=
| Aborted (tr : list action)
| Blocked (s : state) (tr : list action)
| Returned (bits : Z) (s : state) (tr : list action).

Definition ESP_ERROR_CHECK (K : constants) (a : action) (rc : Z)
    (tr : list action) (k : list action -> outcome) : outcome :=
  if rc =? ESP_OK K then k (tr ++ [a]) else Aborted (tr ++ [a]).

(** [xEventGroupWaitBits] with clear-on-exit and wait-for-all false and
    no timeout: the caller resumes as soon as one of the bits waited
    for is set; meanwhile the loop task runs the handler. *)
Fixpoint xEventGroupWaitBits (K : constants) (wait_for : Z)
    (evs : list esp_event) (s : state) (tr : list action) : outcome :=
  if negb (Z.land (s_wifi_event_group s) wait_for =? 0) then
    Returned (s_wifi_event_group s) s tr
  else
    match evs with
    | [] => Blocked s tr
    | ev :: rest =>
        let '(s1, t1) := wifi_event_handler K ev s in
        xEventGroupWaitBits K wait_for rest s1 (tr ++ t1)
    end.

Definition after_wait (o : outcome) : outcome :=
  match o with
  | Returned bits s tr =>
      if negb (Z.land bits WIFI_CONNECTED_BIT =? 0) then
        Returned bits s (tr ++ [ESP_LOG C.ESP_LOG_INFO "Connected to AP. SSID:%s PASSWORD:%s"])
      else if negb (Z.land bits WIFI_FAIL_BIT =? 0) then
        Returned bits s (tr ++ [ESP_LOG C.ESP_LOG_WARN "Failed to connect to SSID:%s, PASSWORD:%s"])
      else
        Returned bits s (tr ++ [ESP_LOG C.ESP_LOG_ERROR "Unexpected event in wifi_manager_start"])
  | _ => o
  end.

Definition wifi_manager_start (K : constants) (rc : bringup)
    (evs : list esp_event) (s : state) : outcome :=
  let s0 := {| s_retry_num := s_retry_num s; s_wifi_event_group := 0 |} in
  ESP_ERROR_CHECK K esp_netif_init (esp_netif_init_rc rc) [] (fun tr =>
  ESP_ERROR_CHECK K esp_event_loop_create_default (esp_event_loop_create_default_rc rc) tr (fun tr =>
  ESP_ERROR_CHECK K esp_wifi_init (esp_wifi_init_rc rc) (tr ++ [esp_netif_create_default_wifi_sta]) (fun tr =>
  ESP_ERROR_CHECK K (esp_event_handler_instance_register WIFI_EVENT None) (register_any_id_rc rc) tr (fun tr =>
  ESP_ERROR_CHECK K (esp_event_handler_instance_register IP_EVENT (Some (IP_EVENT_STA_GOT_IP K)))
                    (register_got_ip_rc rc) tr (fun tr =>
  ESP_ERROR_CHECK K esp_wifi_set_mode (esp_wifi_set_mode_rc rc) tr (fun tr =>
  ESP_ERROR_CHECK K esp_wifi_set_config (esp_wifi_set_config_rc rc) tr (fun tr =>
  ESP_ERROR_CHECK K esp_wifi_start (esp_wifi_start_rc rc) tr (fun tr =>
  after_wait
    (xEventGroupWaitBits K (Z.lor WIFI_CONNECTED_BIT WIFI_FAIL_BIT) evs s0
       (tr ++ [ESP_LOG C.ESP_LOG_INFO "wifi_manager_start: waiting for connection..."])))))))))).

(** Tests on calls, used to count them. *)
Definition is_connect (a : action) : bool :=
  match a with esp_wifi_connect => true | _ => false end.

Definition is_set_bits (b : Z) (a : action) : bool :=
  match a with xEventGroupSetBits x => x =? b | _ => false end.

Definition is_led_set (a : action) : bool :=
  match a with led_control_set _ => true | _ => false end.

Definition is_led_on (a : action) : bool :=
  match a with led_control_set on => negb (on =? 0) | _ => false end.

Definition is_web_server_start (a : action) : bool :=
  match a with web_server_start => true | _ => false end.

(** The call lists of the three branches that touch the state. *)
Definition retry_trace : list action :=
  [ESP_LOG C.ESP_LOG_INFO "WiFi disconnected";
   esp_wifi_connect;
   ESP_LOG C.ESP_LOG_INFO "Retry to connect to the AP, try #%d"].

Definition give_up_trace : list action :=
  [ESP_LOG C.ESP_LOG_INFO "WiFi disconnected";
   xEventGroupSetBits WIFI_FAIL_BIT;
   ESP_LOG C.ESP_LOG_INFO "Giving up on WiFi after too many retries"].

Definition got_ip_trace : list action :=
  [ESP_LOG C.ESP_LOG_INFO "Got IP: %d.%d.%d.%d";
   led_control_set 1;
   web_server_start;
   xEventGroupSetBits WIFI_CONNECTED_BIT].

Definition bringup_ok (K : constants) (rc : bringup) : bool :=
  (esp_netif_init_rc rc =? ESP_OK K)
  && (esp_event_loop_create_default_rc rc =? ESP_OK K)
  && (esp_wifi_init_rc rc =? ESP_OK K)
  && (register_any_id_rc rc =? ESP_OK K)
  && (register_got_ip_rc rc =? ESP_OK K)
  && (esp_wifi_set_mode_rc rc =? ESP_OK K)
  && (esp_wifi_set_config_rc rc =? ESP_OK K)
  && (esp_wifi_start_rc rc =? ESP_OK K).

(** The calls of a bring-up that passes every [ESP_ERROR_CHECK]. *)
Definition bringup_trace (K : constants) : list action :=
  [esp_netif_init;
   esp_event_loop_create_default;
   esp_netif_create_default_wifi_sta;
   esp_wifi_init;
   esp_event_handler_instance_register WIFI_EVENT None;
   esp_event_handler_instance_register IP_EVENT (Some (IP_EVENT_STA_GOT_IP K));
   esp_wifi_set_mode;
   esp_wifi_set_config;
   esp_wifi_start;
   ESP_LOG C.ESP_LOG_INFO "wifi_manager_start: waiting for connection..."].

(** The return code [wifi_manager_start] checks after a call of the
    bring-up; [None] for the calls it does not check. *)
Definition checked_rc (rc : bringup) (a : action) : option Z :=
  match a with
  | esp_netif_init => Some (esp_netif_init_rc rc)
  | esp_event_loop_create_default => Some (esp_event_loop_create_default_rc rc)
  | esp_wifi_init => Some (esp_wifi_init_rc rc)
  | esp_event_handler_instance_register WIFI_EVENT _ => Some (register_any_id_rc rc)
  | esp_event_handler_instance_register IP_EVENT _ => Some (register_got_ip_rc rc)
  | esp_wifi_set_mode => Some (esp_wifi_set_mode_rc rc)
  | esp_wifi_set_config => Some (esp_wifi_set_config_rc rc)
  | esp_wifi_start => Some (esp_wifi_start_rc rc)
  | _ => None
  end.

(** The bits [wifi_manager_start] waits for. *)
Definition terminal_bits : Z := Z.lor WIFI_CONNECTED_BIT WIFI_FAIL_BIT.

(** A configuration to run the model on: the identifiers of the IDF 5
    headers and a retry budget of 3. *)
Definition idf5_budget3 : constants :=
  {| ESP_MAXIMUM_RETRY := 3;
     WIFI_EVENT_STA_START := 2;
     WIFI_EVENT_STA_DISCONNECTED := 5;
     IP_EVENT_STA_GOT_IP := 0;
     ESP_OK := 0 |}.

Definition bringup_all_ok : bringup :=
  {| esp_netif_init_rc := 0;
     esp_event_loop_create_default_rc := 0;
     esp_wifi_init_rc := 0;
     register_any_id_rc := 0;
     register_got_ip_rc := 0;
     esp_wifi_set_mode_rc := 0;
     esp_wifi_set_config_rc := 0;
     esp_wifi_start_rc := 0 |}.

Definition STA_DISCONNECTED (K : constants) : esp_event :=
  {| event_base := WIFI_EVENT; event_id := WIFI_EVENT_STA_DISCONNECTED K |}.

Definition STA_GOT_IP (K : constants) : esp_event :=
  {| event_base := IP_EVENT; event_id := IP_EVENT_STA_GOT_IP K |}.

End WiFi.

(** ** The fragment of [snprintf] the address codec relies on *)

Module Printf.

Open Scope string_scope.

Definition upper_hex_digit (n : N) : ascii :=
  match n with
  | 0%N => "0" | 1%N => "1" | 2%N => "2" | 3%N => "3"
  | 4%N => "4" | 5%N => "5" | 6%N => "6" | 7%N => "7"
  | 8%N => "8" | 9%N => "9" | 10%N => "A" | 11%N => "B"
  | 12%N => "C" | 13%N => "D" | 14%N => "E" | _ => "F"
  end%char.

(** [%X]: the digits of an unsigned value, most significant first, no
    leading zero; an [unsigned int] has at most eight of them. *)
Fixpoint hex_digits (fuel : nat) (n : N) (acc : string) : string :=
  match fuel with
  | O => acc
  | S fuel' =>
      let acc' := String (upper_hex_digit (n mod 16)) acc in
      if (n / 16 =? 0)%N then acc' else hex_digits fuel' (n / 16) acc'
  end.

Definition fmt_X (n : N) : string := hex_digits 8 n "".

Fixpoint zeros (k : nat) : string :=
  match k with
  | O => ""
  | S k' => String "0"%char (zeros k')
  end.

(** [%02X]: at least two digits, padded with zeros on the left. *)
Definition fmt_02X (n : N) : string :=
  let d := fmt_X n in zeros (2 - String.length d) ++ d.

(** Expansion of a format made of literal characters and [%02X]
    directives; a directive without argument prints nothing. *)
Fixpoint vformat (fmt : string) (args : list N) : string :=
  match fmt with
  | "" => ""
  | String "%" (String "0" (String "2" (String "X" rest))) =>
      match args with
      | a :: args' => fmt_02X a ++ vformat rest args'
      | [] => vformat rest []
      end
  | String c rest => String c (vformat rest args)
  end.

(** What [snprintf (str, str_len, fmt, ...)] leaves in [str], read as a
    C string, for [str_len] of 1 or more: the expansion cut to
    [str_len - 1] characters. With [str_len] 0 nothing is written and
    [str] keeps what it held, which this function does not describe;
    every caller in the program passes 18. *)
Definition snprintf (str_len : nat) (fmt : string) (args : list N) : string :=
  match str_len with
  | O => ""
  | S k => String.substring 0 k (vformat fmt args)
  end.

End Printf.

(** ** Types of the NimBLE host used by both BLE files *)

Module NimBLE.

Record ble_addr_t := {
  addr_type : Z;
  val : list byte
}.

Record ble_gap_disc_desc := {
  event_type : Z;
  addr : ble_addr_t;
  rssi : Z;
  data : list byte
}.

(** [struct ble_gap_event]: the type tag with the member of the union
    the handlers read. *)
Inductive ble_gap_event :=
| BLE_GAP_EVENT_CONNECT (status : Z) (conn_handle : Z)
| BLE_GAP_EVENT_DISCONNECT (reason : Z) (peer_id_addr : ble_addr_t)
| BLE_GAP_EVENT_CONN_UPDATE
| BLE_GAP_EVENT_ADV_COMPLETE
| BLE_GAP_EVENT_DISC (disc : ble_gap_disc_desc)
| BLE_GAP_EVENT_DISC_COMPLETE (reason : Z)
| BLE_GAP_EVENT_OTHER (type : Z).

(** Constants of the NimBLE headers. *)
Record constants := {
  BLE_HS_CONN_HANDLE_NONE : Z;
  BLE_HS_EALREADY : Z;
  BLE_HCI_ADV_RPT_EVTYPE_ADV_IND : Z;
  BLE_HCI_ADV_RPT_EVTYPE_DIR_IND : Z;
  BLE_ERR_REM_USER_CONN_TERM : Z
}.

(** A successful connect event names a connection, not the sentinel. *)
Definition connect_handle_valid (K : constants) (event : ble_gap_event) : Prop :=
  match event with
  | BLE_GAP_EVENT_CONNECT status conn_handle =>
      status = 0 -> conn_handle <> BLE_HS_CONN_HANDLE_NONE K
  | _ => True
  end.

(** The values of the NimBLE headers, to run the model on. *)
Definition nimble_headers : constants :=
  {| BLE_HS_CONN_HANDLE_NONE := 65535;
     BLE_HS_EALREADY := 2;
     BLE_HCI_ADV_RPT_EVTYPE_ADV_IND := 0;
     BLE_HCI_ADV_RPT_EVTYPE_DIR_IND := 1;
     BLE_ERR_REM_USER_CONN_TERM := 19 |}.

(** Constants of the address-type tag. *)
Record addr_types := {
  BLE_ADDR_PUBLIC : Z;
  BLE_ADDR_RANDOM : Z;
  BLE_ADDR_PUBLIC_ID : Z;
  BLE_ADDR_RANDOM_ID : Z
}.

Definition known_addr_type (T : addr_types) (addr_type : Z) : Prop :=
  addr_type = BLE_ADDR_PUBLIC T \/ addr_type = BLE_ADDR_RANDOM T \/
  addr_type = BLE_ADDR_PUBLIC_ID T \/ addr_type = BLE_ADDR_RANDOM_ID T.

Definition ble_addr_types : addr_types :=
  {| BLE_ADDR_PUBLIC := 0; BLE_ADDR_RANDOM := 1;
     BLE_ADDR_PUBLIC_ID := 2; BLE_ADDR_RANDOM_ID := 3 |}.

End NimBLE.

(** ** components/BLE/BLE.c: the peripheral role *)

Module Peripheral.
Import NimBLE.

Record state := {
  s_conn_handle : Z;
  s_is_connected : bool;
  s_own_addr_type : Z
}.

Definition initial (K : constants) (own_addr_type : Z) : state :=
  {| s_conn_handle := BLE_HS_CONN_HANDLE_NONE K;
     s_is_connected := false;
     s_own_addr_type := own_addr_type |}.

Inductive action :=
| ble_gap_adv_set_fields
| ble_gap_adv_start (own_addr_type : Z)
| ble_gap_adv_stop
| ble_gap_conn_find (conn_handle : Z)
| ble_gap_terminate (conn_handle : Z) (hci_reason : Z)
| ESP_LOG (level : C.esp_log_level) (fmt : string).

(** Return codes of the host calls made while one event is handled. *)
Record host := {
  ble_gap_adv_set_fields_rc : Z;
  ble_gap_adv_start_rc : Z;
  ble_gap_conn_find_rc : Z
}.

Definition addr_to_string (addr : list byte) (str_len : nat) : option string :=
  match nth_error addr 5, nth_error addr 4, nth_error addr 3,
        nth_error addr 2, nth_error addr 1, nth_error addr 0 with
  | Some a5, Some a4, Some a3, Some a2, Some a1, Some a0 =>
      Some (Printf.snprintf str_len "%02X:%02X:%02X:%02X:%02X:%02X"
              (List.map Byte.to_N [a5; a4; a3; a2; a1; a0]))
  | _, _, _, _, _, _ => None
  end.

Definition print_connection_info : list action :=
  [ESP_LOG C.ESP_LOG_INFO "========================================";
   ESP_LOG C.ESP_LOG_INFO "CONNECTION SUCCESSFUL!";
   ESP_LOG C.ESP_LOG_INFO "========================================";
   ESP_LOG C.ESP_LOG_INFO "  Device Address: %s (%s)";
   ESP_LOG C.ESP_LOG_INFO "  Connection Handle: %u";
   ESP_LOG C.ESP_LOG_INFO "  Connection Interval: %.2f ms";
   ESP_LOG C.ESP_LOG_INFO "  Slave Latency: %u";
   ESP_LOG C.ESP_LOG_INFO "  Supervision Timeout: %u ms";
   ESP_LOG C.ESP_LOG_INFO "========================================"].

Definition start_advertising (H : host) (s : state) : Z * list action :=
  if negb (ble_gap_adv_set_fields_rc H =? 0) then
    (ble_gap_adv_set_fields_rc H,
     [ble_gap_adv_set_fields;
      ESP_LOG C.ESP_LOG_ERROR "Failed to set advertising data: %d"])
  else if negb (ble_gap_adv_start_rc H =? 0) then
    (ble_gap_adv_start_rc H,
     [ble_gap_adv_set_fields;
      ble_gap_adv_start (s_own_addr_type s);
      ESP_LOG C.ESP_LOG_ERROR "Failed to start advertising: %d"])
  else
    (0,
     [ble_gap_adv_set_fields;
      ble_gap_adv_start (s_own_addr_type s);
      ESP_LOG C.ESP_LOG_INFO "Advertising started as '%s'";
      ESP_LOG C.ESP_LOG_INFO "Waiting for a device to connect..."]).

Definition ble_peripheral_gap_event (K : constants) (H : host)
    (event : ble_gap_event) (s : state) : Z * state * list action :=
  match event with
  | BLE_GAP_EVENT_CONNECT status conn_handle =>
      if status =? 0 then
        (0,
         {| s_conn_handle := conn_handle;
            s_is_connected := true;
            s_own_addr_type := s_own_addr_type s |},
         ble_gap_conn_find conn_handle
           :: (if ble_gap_conn_find_rc H =? 0 then print_connection_info else []))
      else
        let s1 := {| s_conn_handle := s_conn_handle s;
                     s_is_connected := false;
                     s_own_addr_type := s_own_addr_type s |} in
        (0, s1,
         ESP_LOG C.ESP_LOG_WARN "Connection failed (status=%d)"
           :: snd (start_advertising H s1))
  | BLE_GAP_EVENT_DISCONNECT reason peer =>
      let s1 := {| s_conn_handle := BLE_HS_CONN_HANDLE_NONE K;
                   s_is_connected := false;
                   s_own_addr_type := s_own_addr_type s |} in
      (0, s1,
       [ESP_LOG C.ESP_LOG_INFO "Device disconnected: %s (reason=0x%02x)";
        ESP_LOG C.ESP_LOG_INFO "Restarting advertising..."]
         ++ snd (start_advertising H s1))
  | BLE_GAP_EVENT_CONN_UPDATE =>
      (0, s, [ESP_LOG C.ESP_LOG_INFO "Connection parameters updated"])
  | BLE_GAP_EVENT_ADV_COMPLETE =>
      (0, s,
       ESP_LOG C.ESP_LOG_INFO "Advertising complete"
         :: (if negb (s_is_connected s) then snd (start_advertising H s) else []))
  | _ =>
      (0, s, [ESP_LOG C.ESP_LOG_DEBUG "Unhandled GAP event: %d"])
  end.

Definition ble_peripheral_on_reset (K : constants) (reason : Z) (s : state)
  : state * list action :=
  ({| s_conn_handle := BLE_HS_CONN_HANDLE_NONE K;
      s_is_connected := false;
      s_own_addr_type := s_own_addr_type s |},
   [ESP_LOG C.ESP_LOG_WARN "BLE host reset (reason=0x%02x)"]).

Definition ble_peripheral_is_connected (s : state) : bool := s_is_connected s.

(** Tests on calls. *)
Definition is_adv_set_fields (a : action) : bool :=
  match a with ble_gap_adv_set_fields => true | _ => false end.

Definition is_adv_start (a : action) : bool :=
  match a with ble_gap_adv_start _ => true | _ => false end.

(** What stays of a call list once the log lines are dropped. *)
Definition is_host_call (a : action) : bool :=
  match a with ESP_LOG _ _ => false | _ => true end.

Definition host_calls (tr : list action) : list action :=
  List.filter is_host_call tr.

(** The connected flag is set only with a handle other than the
    sentinel. *)
Definition flag_implies_handle (K : constants) (s : state) : Prop :=
  s_is_connected s = true -> s_conn_handle s <> BLE_HS_CONN_HANDLE_NONE K.

Definition host_all_ok : host :=
  {| ble_gap_adv_set_fields_rc := 0;
     ble_gap_adv_start_rc := 0;
     ble_gap_conn_find_rc := 0 |}.

(** *** The rest of the file

    Where the record [host] has no field for a host call, its return
    code is an argument of the function that makes the call. *)

Definition addr_type_to_string (T : addr_types) (addr_type : Z) : string :=
  if addr_type =? BLE_ADDR_PUBLIC T then "Public"
  else if addr_type =? BLE_ADDR_RANDOM T then "Random"
  else if addr_type =? BLE_ADDR_PUBLIC_ID T then "Public ID"
  else if addr_type =? BLE_ADDR_RANDOM_ID T then "Random ID"
  else "Unknown".

Definition ble_peripheral_start_advertising (H : host) (s : state) : Z * list action :=
  if s_is_connected s then
    (-1, [ESP_LOG C.ESP_LOG_WARN "Already connected, cannot advertise"])
  else start_advertising H s.

Definition ble_peripheral_disconnect (K : constants) (ble_gap_terminate_rc : Z)
    (s : state) : Z * list action :=
  if negb (s_is_connected s) || (s_conn_handle s =? BLE_HS_CONN_HANDLE_NONE K) then
    (-1, [ESP_LOG C.ESP_LOG_WARN "Not connected"])
  else if negb (ble_gap_terminate_rc =? 0) then
    (ble_gap_terminate_rc,
     [ble_gap_terminate (s_conn_handle s) (BLE_ERR_REM_USER_CONN_TERM K);
      ESP_LOG C.ESP_LOG_ERROR "Failed to disconnect: %d"])
  else
    (0, [ble_gap_terminate (s_conn_handle s) (BLE_ERR_REM_USER_CONN_TERM K)]).

(** The host's answers to the calls of the sync callback: return codes,
    and the value [ble_hs_id_infer_auto] stores through its pointer
    argument when it stores one. *)
Record sync_host := {
  ble_hs_id_infer_auto_rc : Z;
  ble_hs_id_infer_auto_out : option Z;
  ble_hs_util_ensure_addr_rc : Z;
  ble_hs_id_copy_addr_rc : Z
}.

(** Calls of the sync callback: those of its own and the ones of the
    functions it calls. *)
Inductive sync_action :=
| ble_hs_id_infer_auto
| ble_hs_util_ensure_addr (addr_type : Z)
| ble_hs_id_copy_addr (addr_type : Z)
| gap (a : action).

Definition ble_peripheral_on_sync (S : sync_host) (H : host) (s : state)
  : state * list sync_action :=
  let s1 := {| s_conn_handle := s_conn_handle s;
               s_is_connected := s_is_connected s;
               s_own_addr_type :=
                 match ble_hs_id_infer_auto_out S with
                 | Some t => t
                 | None => s_own_addr_type s
                 end |} in
  if negb (ble_hs_id_infer_auto_rc S =? 0) then
    (s1, [ble_hs_id_infer_auto;
          gap (ESP_LOG C.ESP_LOG_ERROR "Failed to infer address type: %d")])
  else if negb (ble_hs_util_ensure_addr_rc S =? 0) then
    (s1, [ble_hs_id_infer_auto;
          ble_hs_util_ensure_addr (s_own_addr_type s1);
          gap (ESP_LOG C.ESP_LOG_ERROR "Failed to ensure address: %d")])
  else
    (s1,
     [ble_hs_id_infer_auto;
      ble_hs_util_ensure_addr (s_own_addr_type s1);
      ble_hs_id_copy_addr (s_own_addr_type s1)]
     ++ (if ble_hs_id_copy_addr_rc S =? 0
         then [gap (ESP_LOG C.ESP_LOG_INFO "BLE Peripheral initialized. Our address: %s")]
         else [])
     ++ [gap (ESP_LOG C.ESP_LOG_INFO "Starting BLE advertising as '%s'...")]
     ++ List.map gap (snd (start_advertising H s1))).

(** What the host task runs on the role: the GAP handler with the
    host's return codes of that step, or the reset callback. *)
Inductive input :=
| on_gap_event (H : host) (event : ble_gap_event)
| on_reset (reason : Z).

Definition step (K : constants) (i : input) (s : state) : state * list action :=
  match i with
  | on_gap_event H event =>
      (snd (fst (ble_peripheral_gap_event K H event s)),
       snd (ble_peripheral_gap_event K H event s))
  | on_reset reason => ble_peripheral_on_reset K reason s
  end.

Fixpoint run (K : constants) (inputs : list input) (s : state) : state * list action :=
  match inputs with
  | [] => (s, [])
  | i :: rest =>
      let '(s1, t1) := step K i s in
      let '(s2, t2) := run K rest s1 in
      (s2, t1 ++ t2)
  end.

Definition input_valid (K : constants) (i : input) : Prop :=
  match i with
  | on_gap_event _ event => connect_handle_valid K event
  | on_reset _ => True
  end.

Definition is_terminate (a : action) : bool :=
  match a with ble_gap_terminate _ _ => true | _ => false end.

Definition is_sync_adv_start (a : sync_action) : bool :=
  match a with gap (ble_gap_adv_start _) => true | _ => false end.

Definition is_sync_adv_set_fields (a : sync_action) : bool :=
  match a with gap ble_gap_adv_set_fields => true | _ => false end.

(** *** [ble_peripheral_init] *)

Definition DEVICE_NAME : string := "ESP-SKYNET".

(** The calls of the initialisation; [ble_hs_cfg_callbacks] stands for
    the three assignments that install the reset, sync and store-status
    callbacks in [ble_hs_cfg]. *)
Inductive init_action :=
| esp_bt_controller_mem_release
| nimble_port_init
| ble_svc_gap_init
| ble_svc_gatt_init
| ble_svc_gap_device_name_set (name : string)
| ble_hs_cfg_callbacks
| nimble_port_freertos_init
| init_log (level : C.esp_log_level) (fmt : string).

(** [None] when [ESP_ERROR_CHECK] aborts, else the value returned. *)
Definition ble_peripheral_init (ESP_OK : Z) (esp_bt_controller_mem_release_rc : Z)
  : option Z * list init_action :=
  if negb (esp_bt_controller_mem_release_rc =? ESP_OK) then
    (None,
     [init_log C.ESP_LOG_INFO "Initializing BLE Peripheral...";
      esp_bt_controller_mem_release])
  else
    (Some 0,
     [init_log C.ESP_LOG_INFO "Initializing BLE Peripheral...";
      esp_bt_controller_mem_release;
      nimble_port_init;
      ble_svc_gap_init;
      ble_svc_gatt_init;
      ble_svc_gap_device_name_set DEVICE_NAME;
      ble_hs_cfg_callbacks;
      nimble_port_freertos_init;
      init_log C.ESP_LOG_INFO "BLE Peripheral initialization complete"]).

End Peripheral.

(** ** station/components/BLE/BLE.c: the central role *)

Module Central.
Import NimBLE.

Record state := {
  s_conn_handle : Z;
  s_is_connected : bool;
  s_own_addr_type : Z
}.

Definition initial (K : constants) (own_addr_type : Z) : state :=
  {| s_conn_handle := BLE_HS_CONN_HANDLE_NONE K;
     s_is_connected := false;
     s_own_addr_type := own_addr_type |}.

Inductive action :=
| ble_gap_disc (own_addr_type : Z) (duration_ms : Z)
| ble_gap_disc_cancel
| ble_gap_connect (own_addr_type : Z) (peer : ble_addr_t) (duration_ms : Z)
| ble_gap_conn_find (conn_handle : Z)
| ble_gap_terminate (conn_handle : Z) (hci_reason : Z)
| ESP_LOG (level : C.esp_log_level) (fmt : string).

(** Return codes of the host calls made while one event is handled,
    and the outcome of parsing an advertisement: the return code and
    the name field when there is one. *)
Record host := {
  ble_gap_disc_rc : Z;
  ble_gap_disc_cancel_rc : Z;
  ble_gap_connect_rc : Z;
  ble_gap_conn_find_rc : Z;
  ble_hs_adv_parse_fields : list byte -> Z * option string
}.

Definition addr_to_string (addr : list byte) (str_len : nat) : option string :=
  match nth_error addr 5, nth_error addr 4, nth_error addr 3,
        nth_error addr 2, nth_error addr 1, nth_error addr 0 with
  | Some a5, Some a4, Some a3, Some a2, Some a1, Some a0 =>
      Some (Printf.snprintf str_len "%02X:%02X:%02X:%02X:%02X:%02X"
              (List.map Byte.to_N [a5; a4; a3; a2; a1; a0]))
  | _, _, _, _, _, _ => None
  end.

Definition print_device_info (H : host) (disc : ble_gap_disc_desc) : list action :=
  [ESP_LOG C.ESP_LOG_INFO "Discovered device:";
   ESP_LOG C.ESP_LOG_INFO "  Address: %s (%s)";
   ESP_LOG C.ESP_LOG_INFO "  RSSI: %d dBm"]
  ++ match ble_hs_adv_parse_fields H (data disc) with
     | (rc, Some name) =>
         if (rc =? 0) && (0 <? Z.of_nat (String.length name))
         then [ESP_LOG C.ESP_LOG_INFO "  Name: %.*s%s"] else []
     | (_, None) => []
     end.

Definition print_connection_info : list action :=
  [ESP_LOG C.ESP_LOG_INFO "========================================";
   ESP_LOG C.ESP_LOG_INFO "Successfully connected to BLE device!";
   ESP_LOG C.ESP_LOG_INFO "========================================";
   ESP_LOG C.ESP_LOG_INFO "  Connection Handle: %u";
   ESP_LOG C.ESP_LOG_INFO "  Peer Address: %s (%s)";
   ESP_LOG C.ESP_LOG_INFO "  Connection Interval: %.2f ms";
   ESP_LOG C.ESP_LOG_INFO "  Slave Latency: %u";
   ESP_LOG C.ESP_LOG_INFO "  Supervision Timeout: %u ms";
   ESP_LOG C.ESP_LOG_INFO "  Role: %s";
   ESP_LOG C.ESP_LOG_INFO "========================================"].

Definition connect_to_device (K : constants) (H : host) (peer : ble_addr_t)
    (s : state) : Z * list action :=
  let cancel :=
    [ESP_LOG C.ESP_LOG_INFO "Attempting to connect to %s...";
     ble_gap_disc_cancel]
    ++ (if negb (ble_gap_disc_cancel_rc H =? 0)
           && negb (ble_gap_disc_cancel_rc H =? BLE_HS_EALREADY K)
        then [ESP_LOG C.ESP_LOG_WARN "Failed to cancel discovery: %d"] else []) in
  if negb (ble_gap_connect_rc H =? 0) then
    (ble_gap_connect_rc H,
     cancel ++ [ble_gap_connect (s_own_addr_type s) peer 10000;
                ESP_LOG C.ESP_LOG_ERROR "Failed to initiate connection: %d"])
  else
    (0, cancel ++ [ble_gap_connect (s_own_addr_type s) peer 10000]).

Definition ble_central_start_scan (H : host) (s : state) : Z * list action :=
  if negb (ble_gap_disc_rc H =? 0) then
    (ble_gap_disc_rc H,
     [ble_gap_disc (s_own_addr_type s) 30000;
      ESP_LOG C.ESP_LOG_ERROR "Failed to start scan: %d"])
  else
    (0,
     [ble_gap_disc (s_own_addr_type s) 30000;
      ESP_LOG C.ESP_LOG_INFO "Scanning for BLE devices (30 seconds)..."]).

Definition ble_central_gap_event (K : constants) (H : host)
    (event : ble_gap_event) (s : state) : Z * state * list action :=
  match event with
  | BLE_GAP_EVENT_DISC disc =>
      (0, s,
       print_device_info H disc
         ++ (if (event_type disc =? BLE_HCI_ADV_RPT_EVTYPE_ADV_IND K)
                || (event_type disc =? BLE_HCI_ADV_RPT_EVTYPE_DIR_IND K)
             then if negb (s_is_connected s)
                  then snd (connect_to_device K H (addr disc) s)
                  else []
             else []))
  | BLE_GAP_EVENT_CONNECT status conn_handle =>
      if status =? 0 then
        (0,
         {| s_conn_handle := conn_handle;
            s_is_connected := true;
            s_own_addr_type := s_own_addr_type s |},
         ble_gap_conn_find conn_handle
           :: (if ble_gap_conn_find_rc H =? 0 then print_connection_info else []))
      else
        let s1 := {| s_conn_handle := s_conn_handle s;
                     s_is_connected := false;
                     s_own_addr_type := s_own_addr_type s |} in
        (0, s1,
         [ESP_LOG C.ESP_LOG_WARN "Connection failed (status=%d)";
          ESP_LOG C.ESP_LOG_INFO "Restarting scan..."]
           ++ snd (ble_central_start_scan H s1))
  | BLE_GAP_EVENT_DISCONNECT reason peer =>
      let s1 := {| s_conn_handle := BLE_HS_CONN_HANDLE_NONE K;
                   s_is_connected := false;
                   s_own_addr_type := s_own_addr_type s |} in
      (0, s1,
       [ESP_LOG C.ESP_LOG_INFO "Disconnected from %s (reason=0x%02x)";
        ESP_LOG C.ESP_LOG_INFO "Restarting scan to find new devices..."]
         ++ snd (ble_central_start_scan H s1))
  | BLE_GAP_EVENT_DISC_COMPLETE reason =>
      (0, s,
       ESP_LOG C.ESP_LOG_INFO "Scan complete (reason=%d)"
         :: (if negb (s_is_connected s)
             then ESP_LOG C.ESP_LOG_INFO "No connection established, restarting scan..."
                    :: snd (ble_central_start_scan H s)
             else []))
  | BLE_GAP_EVENT_CONN_UPDATE =>
      (0, s, [ESP_LOG C.ESP_LOG_INFO "Connection parameters updated"])
  | _ =>
      (0, s, [ESP_LOG C.ESP_LOG_DEBUG "Unhandled GAP event: %d"])
  end.

Definition ble_central_on_reset (K : constants) (reason : Z) (s : state)
  : state * list action :=
  ({| s_conn_handle := BLE_HS_CONN_HANDLE_NONE K;
      s_is_connected := false;
      s_own_addr_type := s_own_addr_type s |},
   [ESP_LOG C.ESP_LOG_WARN "BLE host reset (reason=0x%02x)"]).

Definition ble_central_is_connected (s : state) : bool := s_is_connected s.

(** The events the host task hands to the handler, one after the
    other, each with the return codes of the host during that step. *)
Fixpoint deliver (K : constants) (evs : list (host * ble_gap_event)) (s : state)
  : state * list action :=
  match evs with
  | [] => (s, [])
  | (H, ev) :: rest =>
      let '(_, s1, t1) := ble_central_gap_event K H ev s in
      let '(s2, t2) := deliver K rest s1 in
      (s2, t1 ++ t2)
  end.

Definition is_connect (a : action) : bool :=
  match a with ble_gap_connect _ _ _ => true | _ => false end.

Definition is_disc_cancel (a : action) : bool :=
  match a with ble_gap_disc_cancel => true | _ => false end.

(** A discovery hit whose advertisement kind accepts connections. *)
Definition connectable (K : constants) (disc : ble_gap_disc_desc) : bool :=
  (event_type disc =? BLE_HCI_ADV_RPT_EVTYPE_ADV_IND K)
  || (event_type disc =? BLE_HCI_ADV_RPT_EVTYPE_DIR_IND K).

Definition is_host_call (a : action) : bool :=
  match a with ESP_LOG _ _ => false | _ => true end.

Definition host_calls (tr : list action) : list action :=
  List.filter is_host_call tr.

(** The connected flag is set only with a handle other than the
    sentinel. *)
Definition flag_implies_handle (K : constants) (s : state) : Prop :=
  s_is_connected s = true -> s_conn_handle s <> BLE_HS_CONN_HANDLE_NONE K.

Definition host_all_ok : host :=
  {| ble_gap_disc_rc := 0;
     ble_gap_disc_cancel_rc := 0;
     ble_gap_connect_rc := 0;
     ble_gap_conn_find_rc := 0;
     ble_hs_adv_parse_fields := fun _ => (0, None) |}.

(** *** The rest of the file

    Where the record [host] has no field for a host call, its return
    code is an argument of the function that makes the call. *)

Definition addr_type_to_string (T : addr_types) (addr_type : Z) : string :=
  if addr_type =? BLE_ADDR_PUBLIC T then "Public"
  else if addr_type =? BLE_ADDR_RANDOM T then "Random"
  else if addr_type =? BLE_ADDR_PUBLIC_ID T then "Public ID"
  else if addr_type =? BLE_ADDR_RANDOM_ID T then "Random ID"
  else "Unknown".

Definition ble_central_disconnect (K : constants) (ble_gap_terminate_rc : Z)
    (s : state) : Z * list action :=
  if negb (s_is_connected s) || (s_conn_handle s =? BLE_HS_CONN_HANDLE_NONE K) then
    (-1, [ESP_LOG C.ESP_LOG_WARN "Not connected"])
  else if negb (ble_gap_terminate_rc =? 0) then
    (ble_gap_terminate_rc,
     [ble_gap_terminate (s_conn_handle s) (BLE_ERR_REM_USER_CONN_TERM K);
      ESP_LOG C.ESP_LOG_ERROR "Failed to disconnect: %d"])
  else
    (0, [ble_gap_terminate (s_conn_handle s) (BLE_ERR_REM_USER_CONN_TERM K)]).

(** The host's answers to the calls of the sync callback: return codes,
    and the value [ble_hs_id_infer_auto] stores through its pointer
    argument when it stores one. *)
Record sync_host := {
  ble_hs_id_infer_auto_rc : Z;
  ble_hs_id_infer_auto_out : option Z;
  ble_hs_util_ensure_addr_rc : Z;
  ble_hs_id_copy_addr_rc : Z
}.

Inductive sync_action :=
| ble_hs_id_infer_auto
| ble_hs_util_ensure_addr (addr_type : Z)
| ble_hs_id_copy_addr (addr_type : Z)
| gap (a : action).

Definition ble_central_on_sync (S : sync_host) (H : host) (s : state)
  : state * list sync_action :=
  let s1 := {| s_conn_handle := s_conn_handle s;
               s_is_connected := s_is_connected s;
               s_own_addr_type :=
                 match ble_hs_id_infer_auto_out S with
                 | Some t => t
                 | None => s_own_addr_type s
                 end |} in
  if negb (ble_hs_id_infer_auto_rc S =? 0) then
    (s1, [ble_hs_id_infer_auto;
          gap (ESP_LOG C.ESP_LOG_ERROR "Failed to infer address type: %d")])
  else if negb (ble_hs_util_ensure_addr_rc S =? 0) then
    (s1, [ble_hs_id_infer_auto;
          ble_hs_util_ensure_addr (s_own_addr_type s1);
          gap (ESP_LOG C.ESP_LOG_ERROR "Failed to ensure address: %d")])
  else
    (s1,
     [ble_hs_id_infer_auto;
      ble_hs_util_ensure_addr (s_own_addr_type s1);
      ble_hs_id_copy_addr (s_own_addr_type s1)]
     ++ (if ble_hs_id_copy_addr_rc S =? 0
         then [gap (ESP_LOG C.ESP_LOG_INFO "BLE Central initialized. Our address: %s")]
         else [])
     ++ [gap (ESP_LOG C.ESP_LOG_INFO "Starting BLE scan for nearby devices...")]
     ++ List.map gap (snd (ble_central_start_scan H s1))).

(** What the host task runs on the role: the GAP handler with the
    host's return codes of that step, or the reset callback. *)
Inductive input :=
| on_gap_event (H : host) (event : ble_gap_event)
| on_reset (reason : Z).

Definition step (K : constants) (i : input) (s : state) : state * list action :=
  match i with
  | on_gap_event H event =>
      (snd (fst (ble_central_gap_event K H event s)),
       snd (ble_central_gap_event K H event s))
  | on_reset reason => ble_central_on_reset K reason s
  end.

Fixpoint run (K : constants) (inputs : list input) (s : state) : state * list action :=
  match inputs with
  | [] => (s, [])
  | i :: rest =>
      let '(s1, t1) := step K i s in
      let '(s2, t2) := run K rest s1 in
      (s2, t1 ++ t2)
  end.

Definition input_valid (K : constants) (i : input) : Prop :=
  match i with
  | on_gap_event _ event => connect_handle_valid K event
  | on_reset _ => True
  end.

Definition is_disc (a : action) : bool :=
  match a with ble_gap_disc _ _ => true | _ => false end.

Definition is_terminate (a : action) : bool :=
  match a with ble_gap_terminate _ _ => true | _ => false end.

Definition is_sync_disc (a : sync_action) : bool :=
  match a with gap (ble_gap_disc _ _) => true | _ => false end.

End Central.

(** ** station/main/led_control.c *)

Module LedControl.

Definition GPIO_NUM_32 : Z := 32.
Definition LED_GPIO : Z := GPIO_NUM_32.

Record state := { s_led_on : Z }.

Definition initial : state := {| s_led_on := 0 |}.

Inductive action :=
| gpio_config (pin_bit_mask : Z)
| gpio_set_level (gpio_num : Z) (level : Z).

Definition led_control_set (on : Z) (s : state) : state * list action :=
  let v := if negb (on =? 0) then 1 else 0 in
  ({| s_led_on := v |}, [gpio_set_level LED_GPIO v]).

Definition led_control_init (s : state) : state * list action :=
  let '(s1, t1) := led_control_set 0 s in
  (s1, gpio_config (Z.shiftl 1 LED_GPIO) :: t1).

Definition led_control_is_on (s : state) : Z := s_led_on s.

(** The calls other files make into this one. *)
Inductive op :=
| op_init
| op_set (on : Z).

Definition apply_op (o : op) (s : state) : state * list action :=
  match o with
  | op_init => led_control_init s
  | op_set on => led_control_set on s
  end.

Fixpoint run (ops : list op) (s : state) : state * list action :=
  match ops with
  | [] => (s, [])
  | o :: rest =>
      let '(s1, t1) := apply_op o s in
      let '(s2, t2) := run rest s1 in
      (s2, t1 ++ t2)
  end.

(** The level of the last [gpio_set_level] of a call list, [d] when
    there is none. *)
Fixpoint last_level (tr : list action) (d : Z) : Z :=
  match tr with
  | [] => d
  | gpio_set_level _ level :: rest => last_level rest level
  | gpio_config _ :: rest => last_level rest d
  end.

(** A call on the LED's pin with a level of 0 or 1. *)
Definition led_call_ok (a : action) : Prop :=
  match a with
  | gpio_set_level pin level => pin = LED_GPIO /\ (level = 0 \/ level = 1)
  | gpio_config mask => mask = Z.shiftl 1 LED_GPIO
  end.

End LedControl.

(** ** station/components/WEB_Server/WEB_Server.c: starting the server *)

Module WebServer.

Record constants := { ESP_OK : Z }.

Inductive http_method := HTTP_GET | HTTP_POST | HTTP_DELETE.

(** The function's static [server]; [None] is the null handle. A
    handle handed out by [httpd_start] is a non-null pointer. *)
Record state := { server : option positive }.

Definition initial : state := {| server := None |}.

(** [httpd_start] appears with the code it returned. *)
Inductive action :=
| httpd_start (rc : Z)
| httpd_register_uri_handler (uri : string) (method : http_method)
| ESP_LOG (level : C.esp_log_level) (fmt : string).

(** What [httpd_start] answers: its return code and, used on success
    only, the handle stored through its first argument; on failure the
    argument is left as it was. *)
Record host := {
  httpd_start_rc : Z;
  httpd_start_handle : positive
}.

Definition web_server_start (K : constants) (H : host) (s : state)
  : state * list action :=
  match server s with
  | Some _ => (s, [ESP_LOG C.ESP_LOG_INFO "HTTP server already running"])
  | None =>
      if negb (httpd_start_rc H =? ESP_OK K) then
        (s, [httpd_start (httpd_start_rc H);
             ESP_LOG C.ESP_LOG_ERROR "Failed to start HTTP server"])
      else
        ({| server := Some (httpd_start_handle H) |},
         [httpd_start (httpd_start_rc H);
          httpd_register_uri_handler "/" HTTP_GET;
          httpd_register_uri_handler "/led" HTTP_GET;
          httpd_register_uri_handler "/string" HTTP_GET;
          httpd_register_uri_handler "/string" HTTP_POST;
          httpd_register_uri_handler "/string" HTTP_DELETE;
          ESP_LOG C.ESP_LOG_INFO "HTTP server started"])
  end.

(** Successive calls of [web_server_start], one host answer each. *)
Fixpoint starts (K : constants) (hs : list host) (s : state)
  : state * list action :=
  match hs with
  | [] => (s, [])
  | H :: rest =>
      let '(s1, t1) := web_server_start K H s in
      let '(s2, t2) := starts K rest s1 in
      (s2, t1 ++ t2)
  end.

Definition is_httpd_start (a : action) : bool :=
  match a with httpd_start _ => true | _ => false end.

Definition is_httpd_started (K : constants) (a : action) : bool :=
  match a with httpd_start rc => rc =? ESP_OK K | _ => false end.

Definition is_register (a : action) : bool :=
  match a with httpd_register_uri_handler _ _ => true | _ => false end.

End WebServer.

(** ** The C string functions used by the storage manager *)

Module CString.

Definition NUL : byte := x00.

Definition is_nul (c : byte) : bool := Byte.eqb c NUL.

(** The string a [char] pointer denotes: the bytes before the first
    terminator. Memory is a list of bytes, followed by a terminator
    when the list holds none. *)
Fixpoint cstr (mem : list byte) : list byte :=
  match mem with
  | [] => []
  | c :: rest => if is_nul c then [] else c :: cstr rest
  end.

(** The [n] bytes [strncpy] stores: the characters of the source up
    to its terminator, then terminators. *)
Fixpoint strncpy_bytes (src : list byte) (n : nat) : list byte :=
  match n with
  | O => []
  | S k =>
      match src with
      | [] => NUL :: strncpy_bytes [] k
      | c :: rest =>
          if is_nul c then NUL :: strncpy_bytes [] k
          else c :: strncpy_bytes rest k
      end
  end.

(** Storing bytes from the start of an array; the array keeps its
    size. *)
Fixpoint write_bytes (new dst : list byte) : list byte :=
  match new, dst with
  | c :: new', _ :: dst' => c :: write_bytes new' dst'
  | _, _ => dst
  end.

Definition strncpy (dst src : list byte) (n : nat) : list byte :=
  write_bytes (strncpy_bytes src n) dst.

(** [a[i] = c] inside the array. *)
Fixpoint array_set (i : nat) (c : byte) (a : list byte) : list byte :=
  match a, i with
  | [], _ => []
  | _ :: rest, O => c :: rest
  | x :: rest, S j => x :: array_set j c rest
  end.

(** Whether [strncmp (a, b, n)] is 0: the two strings agree on their
    first [n] characters, or up to their common end before that. *)
Fixpoint strncmp_eq (a b : list byte) (n : nat) : bool :=
  match n with
  | O => true
  | S k =>
      let ca := List.hd NUL a in
      let cb := List.hd NUL b in
      if negb (Byte.eqb ca cb) then false
      else if is_nul ca then true
      else strncmp_eq (List.tl a) (List.tl b) k
  end.

End CString.

(** ** components/Storage_Manager/Storage_Manager.c *)

Module StorageManager.

Record constants := {
  ESP_OK : Z;
  ESP_ERR_NVS_NOT_FOUND : Z
}.

Definition STRING_MAX_LEN : nat := 64.

Inductive nvs_open_mode_t := NVS_READONLY | NVS_READWRITE.

(** The RAM mirror, an array of [STRING_MAX_LEN] characters. *)
Record state := { s_stored_string : list byte }.

Definition initial : state :=
  {| s_stored_string := List.repeat CString.NUL STRING_MAX_LEN |}.

Inductive action :=
| nvs_open (mode : nvs_open_mode_t)
| nvs_set_str (value : list byte)
| nvs_erase_key
| nvs_commit
| nvs_close
| ESP_LOG (level : C.esp_log_level) (fmt : string).

(** Return codes of the flash calls of one operation. *)
Record host := {
  nvs_open_rc : Z;
  nvs_set_str_rc : Z;
  nvs_erase_key_rc : Z;
  nvs_commit_rc : Z
}.

Definition storage_manager_get_string (s : state) : list byte :=
  s_stored_string s.

Definition storage_manager_save_string (K : constants) (H : host)
    (value : list byte) (s : state) : state * list action :=
  if negb (nvs_open_rc H =? ESP_OK K) then
    (s, [nvs_open NVS_READWRITE;
         ESP_LOG C.ESP_LOG_ERROR "Failed to open NVS for writing: %s"])
  else if negb (nvs_set_str_rc H =? ESP_OK K) then
    (s, [nvs_open NVS_READWRITE;
         nvs_set_str (CString.cstr value);
         ESP_LOG C.ESP_LOG_ERROR "Failed to set string in NVS: %s";
         nvs_close])
  else if negb (nvs_commit_rc H =? ESP_OK K) then
    (s, [nvs_open NVS_READWRITE;
         nvs_set_str (CString.cstr value);
         nvs_commit;
         ESP_LOG C.ESP_LOG_ERROR "Failed to commit NVS: %s";
         nvs_close])
  else
    ({| s_stored_string :=
          CString.array_set (STRING_MAX_LEN - 1) CString.NUL
            (CString.strncpy (s_stored_string s) value (STRING_MAX_LEN - 1)) |},
     [nvs_open NVS_READWRITE;
      nvs_set_str (CString.cstr value);
      nvs_commit;
      ESP_LOG C.ESP_LOG_INFO "String saved to NVS: '%s'";
      nvs_close]).

Definition storage_manager_delete_string (K : constants) (H : host)
    (s : state) : state * list action :=
  let cleared :=
    {| s_stored_string := CString.array_set 0 CString.NUL (s_stored_string s) |} in
  let commit :=
    nvs_commit
      :: (if negb (nvs_commit_rc H =? ESP_OK K)
          then [ESP_LOG C.ESP_LOG_ERROR "Failed to commit NVS after erase: %s"]
          else [])
      ++ [nvs_close] in
  if negb (nvs_open_rc H =? ESP_OK K) then
    (s, [nvs_open NVS_READWRITE;
         ESP_LOG C.ESP_LOG_ERROR "Failed to open NVS for deleting: %s"])
  else if nvs_erase_key_rc H =? ESP_ERR_NVS_NOT_FOUND K then
    (cleared,
     [nvs_open NVS_READWRITE; nvs_erase_key;
      ESP_LOG C.ESP_LOG_INFO "String key not found in NVS, nothing to delete"]
       ++ commit)
  else if negb (nvs_erase_key_rc H =? ESP_OK K) then
    (s, [nvs_open NVS_READWRITE; nvs_erase_key;
         ESP_LOG C.ESP_LOG_ERROR "Failed to erase key from NVS: %s";
         nvs_close])
  else
    (cleared,
     [nvs_open NVS_READWRITE; nvs_erase_key;
      ESP_LOG C.ESP_LOG_INFO "String deleted from NVS"]
       ++ commit).

Definition all_ok (K : constants) (H : host) : bool :=
  (nvs_open_rc H =? ESP_OK K) && (nvs_set_str_rc H =? ESP_OK K)
  && (nvs_commit_rc H =? ESP_OK K).

Definition is_commit (a : action) : bool :=
  match a with nvs_commit => true | _ => false end.

(** The values of the IDF headers, and a flash that accepts every
    call, to run the model on. *)
Definition idf_headers : constants :=
  {| ESP_OK := 0; ESP_ERR_NVS_NOT_FOUND := 4354 |}.

Definition host_all_ok : host :=
  {| nvs_open_rc := 0; nvs_set_str_rc := 0; nvs_erase_key_rc := 0; nvs_commit_rc := 0 |}.

(** *** [storage_manager_init] *)

Record flash_constants := {
  ESP_ERR_NVS_NO_FREE_PAGES : Z;
  ESP_ERR_NVS_NEW_VERSION_FOUND : Z
}.

(** The flash's answers during initialisation: return codes, and the
    bytes [nvs_get_str] stores at the start of the buffer it is given. *)
Record init_host := {
  nvs_flash_init_rc : Z;
  nvs_flash_erase_rc : Z;
  nvs_flash_init_again_rc : Z;
  nvs_open_readonly_rc : Z;
  nvs_get_str_rc : Z;
  nvs_get_str_out : list byte
}.

Inductive init_action :=
| nvs_flash_init
| nvs_flash_erase
| nvs_get_str
| nvs (a : action).

(** [ESP_ERROR_CHECK] aborts, or the function returns. *)
Inductive init_outcome :=
| init_aborted (tr : list init_action)
| init_done (s : state) (tr : list init_action).

Definition load_stored_string (K : constants) (I : init_host) (s : state)
    (tr : list init_action) : init_outcome :=
  if negb (nvs_open_readonly_rc I =? ESP_OK K) then
    init_done
      {| s_stored_string := CString.array_set 0 CString.NUL (s_stored_string s) |}
      (tr ++ [nvs (nvs_open NVS_READONLY);
              nvs (ESP_LOG C.ESP_LOG_INFO "No stored string yet, using empty")])
  else
    let loaded := CString.write_bytes (nvs_get_str_out I) (s_stored_string s) in
    if nvs_get_str_rc I =? ESP_OK K then
      init_done {| s_stored_string := loaded |}
        (tr ++ [nvs (nvs_open NVS_READONLY); nvs_get_str;
                nvs (ESP_LOG C.ESP_LOG_INFO "Loaded string from NVS: '%s'");
                nvs nvs_close])
    else if nvs_get_str_rc I =? ESP_ERR_NVS_NOT_FOUND K then
      init_done {| s_stored_string := CString.array_set 0 CString.NUL loaded |}
        (tr ++ [nvs (nvs_open NVS_READONLY); nvs_get_str;
                nvs (ESP_LOG C.ESP_LOG_INFO "String key not found in NVS, using empty");
                nvs nvs_close])
    else
      init_done {| s_stored_string := CString.array_set 0 CString.NUL loaded |}
        (tr ++ [nvs (nvs_open NVS_READONLY); nvs_get_str;
                nvs (ESP_LOG C.ESP_LOG_WARN "Error reading string from NVS: %s");
                nvs nvs_close]).

Definition storage_manager_init (K : constants) (F : flash_constants)
    (I : init_host) (s : state) : init_outcome :=
  if (nvs_flash_init_rc I =? ESP_ERR_NVS_NO_FREE_PAGES F)
     || (nvs_flash_init_rc I =? ESP_ERR_NVS_NEW_VERSION_FOUND F) then
    if negb (nvs_flash_erase_rc I =? ESP_OK K) then
      init_aborted [nvs_flash_init; nvs_flash_erase]
    else if negb (nvs_flash_init_again_rc I =? ESP_OK K) then
      init_aborted [nvs_flash_init; nvs_flash_erase; nvs_flash_init]
    else
      load_stored_string K I s [nvs_flash_init; nvs_flash_erase; nvs_flash_init]
  else if negb (nvs_flash_init_rc I =? ESP_OK K) then
    init_aborted [nvs_flash_init]
  else
    load_stored_string K I s [nvs_flash_init].

(** The operations other files run on the stored string, each with the
    flash's answers. *)
Inductive op :=
| op_save (H : host) (value : list byte)
| op_delete (H : host).

Definition apply_op (K : constants) (o : op) (s : state) : state * list action :=
  match o with
  | op_save H value => storage_manager_save_string K H value s
  | op_delete H => storage_manager_delete_string K H s
  end.

Fixpoint run (K : constants) (ops : list op) (s : state) : state * list action :=
  match ops with
  | [] => (s, [])
  | o :: rest =>
      let '(s1, t1) := apply_op K o s in
      let '(s2, t2) := run K rest s1 in
      (s2, t1 ++ t2)
  end.

(** The array holds a C string: it has its 64 cells and a terminator
    among them. *)
Definition holds_string (s : state) : Prop :=
  List.length (s_stored_string s) = STRING_MAX_LEN /\
  List.In CString.NUL (s_stored_string s).

Definition is_nvs_call (a : action) : bool :=
  match a with ESP_LOG _ _ => false | _ => true end.

(** Whether the flash is usable after the first calls of
    [storage_manager_init]. *)
Definition flash_ready (K : constants) (F : flash_constants) (I : init_host) : bool :=
  if (nvs_flash_init_rc I =? ESP_ERR_NVS_NO_FREE_PAGES F)
     || (nvs_flash_init_rc I =? ESP_ERR_NVS_NEW_VERSION_FOUND F)
  then (nvs_flash_erase_rc I =? ESP_OK K) && (nvs_flash_init_again_rc I =? ESP_OK K)
  else nvs_flash_init_rc I =? ESP_OK K.

Definition is_flash_call (a : init_action) : bool :=
  match a with nvs_flash_init | nvs_flash_erase => true | _ => false end.

Definition idf_flash_headers : flash_constants :=
  {| ESP_ERR_NVS_NO_FREE_PAGES := 4365; ESP_ERR_NVS_NEW_VERSION_FOUND := 4368 |}.

End StorageManager.

(** ** station/components/WEB_Server/WEB_Server.c: the URI handlers *)

Module WebServerHandlers.

Record constants := {
  ESP_OK : Z;
  ESP_FAIL : Z
}.

Definition newline : string := String (Ascii.ascii_of_nat 10) EmptyString.

(** What the HTTP server library answers while one request is handled:
    the query string when [httpd_req_get_url_query_str] returns
    [ESP_OK], the value [httpd_query_key_value] finds for a key when it
    returns [ESP_OK], the request's [content_len], the successive
    answers of [httpd_req_recv] (the bytes it delivers, or [None] when
    it returns 0 or an error), and the code [httpd_resp_send] returns. *)
Record request := {
  url_query : option string;
  query_key_value : string -> string -> option string;
  content_len : Z;
  recv_answers : list (option (list byte));
  httpd_resp_send_rc : Z
}.

(** The state of the two components the handlers drive. *)
Record world := {
  led : LedControl.state;
  storage : StorageManager.state
}.

Inductive action :=
| httpd_resp_set_type (type : string)
| httpd_resp_send (body : list byte)
| httpd_resp_send_err_400 (msg : string)
| httpd_resp_send_500
| httpd_req_recv (buf_len : Z)
| gpio (a : LedControl.action)
| nvs (a : StorageManager.action).

Definition send_text_response (R : request) (text : list byte) : Z * list action :=
  (httpd_resp_send_rc R, [httpd_resp_set_type "text/plain"; httpd_resp_send text]).

Definition text (s : string) : list byte := String.list_byte_of_string s.

Definition led_get_handler (R : request) (w : world) : Z * world * list action :=
  let usage :=
    (fst (send_text_response R (text ("Use /led?state=on or /led?state=off" ++ newline))),
     w,
     snd (send_text_response R (text ("Use /led?state=on or /led?state=off" ++ newline)))) in
  match url_query R with
  | Some query =>
      match query_key_value R query "state" with
      | Some state =>
          if String.eqb state "on" then
            (fst (send_text_response R (text ("LED turned ON" ++ newline))),
             {| led := fst (LedControl.led_control_set 1 (led w)); storage := storage w |},
             List.map gpio (snd (LedControl.led_control_set 1 (led w)))
               ++ snd (send_text_response R (text ("LED turned ON" ++ newline))))
          else if String.eqb state "off" then
            (fst (send_text_response R (text ("LED turned OFF" ++ newline))),
             {| led := fst (LedControl.led_control_set 0 (led w)); storage := storage w |},
             List.map gpio (snd (LedControl.led_control_set 0 (led w)))
               ++ snd (send_text_response R (text ("LED turned OFF" ++ newline))))
          else usage
      | None => usage
      end
  | None => usage
  end.

Definition string_get_handler (R : request) (w : world) : Z * world * list action :=
  if CString.is_nul
       (List.hd CString.NUL (StorageManager.storage_manager_get_string (storage w))) then
    (fst (send_text_response R (text ("(empty)" ++ newline))), w,
     snd (send_text_response R (text ("(empty)" ++ newline))))
  else
    (fst (send_text_response R
            (CString.cstr (StorageManager.storage_manager_get_string (storage w)))),
     w,
     snd (send_text_response R
            (CString.cstr (StorageManager.storage_manager_get_string (storage w))))).

Definition string_delete_handler (SK : StorageManager.constants)
    (F : StorageManager.host) (R : request) (w : world) : Z * world * list action :=
  (fst (send_text_response R (text ("String deleted" ++ newline))),
   {| led := led w;
      storage := fst (StorageManager.storage_manager_delete_string SK F (storage w)) |},
   List.map nvs (snd (StorageManager.storage_manager_delete_string SK F (storage w)))
     ++ snd (send_text_response R (text ("String deleted" ++ newline)))).

(** The receive loop of the POST handler: [buf] holds the bytes
    received so far; [None] when a call returned 0 or an error. *)
Fixpoint recv_loop (answers : list (option (list byte))) (total_len : Z)
    (buf : list byte) : option (list byte) * list action :=
  if Z.of_nat (List.length buf) <? total_len then
    match answers with
    | Some chunk :: rest =>
        let wanted := total_len - Z.of_nat (List.length buf) in
        let stored := List.firstn (Z.to_nat wanted) chunk in
        if (Z.of_nat (List.length stored) <=? 0) then (None, [httpd_req_recv wanted])
        else
          (fst (recv_loop rest total_len (buf ++ stored)),
           httpd_req_recv wanted :: snd (recv_loop rest total_len (buf ++ stored)))
    | _ => (None, [httpd_req_recv (total_len - Z.of_nat (List.length buf))])
    end
  else (Some buf, []).

Definition delete_requested (R : request) : bool :=
  match url_query R with
  | Some query =>
      match query_key_value R query "delete" with
      | Some del => String.eqb del "1"
      | None => false
      end
  | None => false
  end.

(** The string the POST handler hands to the storage manager: the
    body after its [value=] prefix when it has one. *)
Definition posted_value (buf : list byte) : list byte :=
  let mem := buf ++ [CString.NUL] in
  if CString.strncmp_eq mem (text "value=") 6 then List.skipn 6 mem else mem.

Definition string_post_handler (K : constants) (SK : StorageManager.constants)
    (F : StorageManager.host) (R : request) (w : world) : Z * world * list action :=
  if delete_requested R then
    (fst (send_text_response R (text ("String deleted" ++ newline))),
     {| led := led w;
        storage := fst (StorageManager.storage_manager_delete_string SK F (storage w)) |},
     List.map nvs (snd (StorageManager.storage_manager_delete_string SK F (storage w)))
       ++ snd (send_text_response R (text ("String deleted" ++ newline))))
  else
    let total_len := C.int_wrap (content_len R) in
    if 64 <=? total_len then
      (ESP_FAIL K, w, [httpd_resp_send_err_400 "String too long"])
    else
      match recv_loop (recv_answers R) total_len [] with
      | (None, tr) => (ESP_FAIL K, w, tr ++ [httpd_resp_send_500])
      | (Some buf, tr) =>
          (fst (send_text_response R (text ("String saved" ++ newline))),
           {| led := led w;
              storage :=
                fst (StorageManager.storage_manager_save_string SK F
                       (posted_value buf) (storage w)) |},
           tr
             ++ List.map nvs
                  (snd (StorageManager.storage_manager_save_string SK F
                          (posted_value buf) (storage w)))
             ++ snd (send_text_response R (text ("String saved" ++ newline))))
      end.

Definition is_nvs (a : action) : bool :=
  match a with nvs _ => true | _ => false end.

Definition is_gpio (a : action) : bool :=
  match a with gpio _ => true | _ => false end.

Definition is_recv (a : action) : bool :=
  match a with httpd_req_recv _ => true | _ => false end.

Definition is_send (a : action) : bool :=
  match a with httpd_resp_send _ => true | _ => false end.

(** The value of the query's [state] key, when the request has one. *)
Definition requested_state (R : request) : option string :=
  match url_query R with
  | Some query => query_key_value R query "state"
  | None => None
  end.

Definition idf_codes : constants := {| ESP_OK := 0; ESP_FAIL := -1 |}.

End WebServerHandlers.

(** ** main/station_example_main.c *)

Module Main.

(** What the platform answers during start-up: the return codes of the
    flash initialisation of [app_main] itself, the answers to
    [storage_manager_init], the bring-up codes and the event stream of
    [wifi_manager_start], and the code of the Bluetooth memory release. *)
Record host := {
  nvs_flash_init_rc : Z;
  nvs_flash_erase_rc : Z;
  nvs_flash_init_again_rc : Z;
  storage_answers : StorageManager.init_host;
  wifi_bringup : WiFi.bringup;
  wifi_events : list WiFi.esp_event;
  esp_bt_controller_mem_release_rc : Z
}.

Inductive action :=
| nvs_flash_init
| nvs_flash_erase
| ESP_LOG (level : C.esp_log_level) (fmt : string)
| led (a : LedControl.action)
| storage (a : StorageManager.init_action)
| wifi (a : WiFi.action)
| ble (a : Peripheral.init_action).

(** [ESP_ERROR_CHECK] aborted, the Wi-Fi wait never ended, or
    [app_main] ran to its end. *)
Inductive outcome :=
| aborted (tr : list action)
| blocked (tr : list action)
| finished (tr : list action).

(** The flash initialisation at the top of [app_main]: the calls made
    and whether the final check passed. *)
Definition init_flash (SK : StorageManager.constants) (FK : StorageManager.flash_constants)
    (H : host) : bool * list action :=
  let t0 := [ESP_LOG C.ESP_LOG_INFO "=== ESP32 Station Starting ==="; nvs_flash_init] in
  if (nvs_flash_init_rc H =? StorageManager.ESP_ERR_NVS_NO_FREE_PAGES FK)
     || (nvs_flash_init_rc H =? StorageManager.ESP_ERR_NVS_NEW_VERSION_FOUND FK) then
    let t1 := t0 ++ [ESP_LOG C.ESP_LOG_WARN "NVS partition was truncated, erasing...";
                     nvs_flash_erase] in
    if negb (nvs_flash_erase_rc H =? StorageManager.ESP_OK SK) then (false, t1)
    else (nvs_flash_init_again_rc H =? StorageManager.ESP_OK SK, t1 ++ [nvs_flash_init])
  else (nvs_flash_init_rc H =? StorageManager.ESP_OK SK, t0).

Definition app_main (WK : WiFi.constants) (SK : StorageManager.constants)
    (FK : StorageManager.flash_constants) (H : host) : outcome :=
  if negb (fst (init_flash SK FK H)) then aborted (snd (init_flash SK FK H))
  else
    let tr1 :=
      snd (init_flash SK FK H)
      ++ [ESP_LOG C.ESP_LOG_INFO "NVS initialized"]
      ++ List.map led (snd (LedControl.led_control_init LedControl.initial))
      ++ [ESP_LOG C.ESP_LOG_INFO "LED control initialized"] in
    match StorageManager.storage_manager_init SK FK (storage_answers H)
            StorageManager.initial with
    | StorageManager.init_aborted ts => aborted (tr1 ++ List.map storage ts)
    | StorageManager.init_done _ ts =>
        let tr2 := tr1 ++ List.map storage ts
                   ++ [ESP_LOG C.ESP_LOG_INFO "Storage manager initialized"] in
        match WiFi.wifi_manager_start WK (wifi_bringup H) (wifi_events H) WiFi.initial with
        | WiFi.Aborted tw => aborted (tr2 ++ List.map wifi tw)
        | WiFi.Blocked _ tw => blocked (tr2 ++ List.map wifi tw)
        | WiFi.Returned _ _ tw =>
            let tr3 := tr2 ++ List.map wifi tw
                       ++ [ESP_LOG C.ESP_LOG_INFO "WiFi manager started"] in
            match Peripheral.ble_peripheral_init (StorageManager.ESP_OK SK)
                    (esp_bt_controller_mem_release_rc H) with
            | (None, tb) => aborted (tr3 ++ List.map ble tb)
            | (Some rc, tb) =>
                finished
                  (tr3 ++ List.map ble tb
                   ++ [if negb (rc =? 0)
                       then ESP_LOG C.ESP_LOG_ERROR "Failed to initialize BLE Peripheral"
                       else ESP_LOG C.ESP_LOG_INFO
                              "BLE Peripheral started as 'ESP-SKYNET'. Waiting for connections..."]
                   ++ [ESP_LOG C.ESP_LOG_INFO "=== All modules initialized ==="])
            end
        end
    end.

Definition is_ble (a : action) : bool :=
  match a with ble _ => true | _ => false end.

Definition is_host_task_start (a : action) : bool :=
  match a with ble Peripheral.nimble_port_freertos_init => true | _ => false end.

Definition is_wifi_start (a : action) : bool :=
  match a with wifi WiFi.esp_wifi_start => true | _ => false end.

Definition host_all_ok (evs : list WiFi.esp_event) : host :=
  {| nvs_flash_init_rc := 0;
     nvs_flash_erase_rc := 0;
     nvs_flash_init_again_rc := 0;
     storage_answers :=
       {| StorageManager.nvs_flash_init_rc := 0;
          StorageManager.nvs_flash_erase_rc := 0;
          StorageManager.nvs_flash_init_again_rc := 0;
          StorageManager.nvs_open_readonly_rc := 4354;
          StorageManager.nvs_get_str_rc := 0;
          StorageManager.nvs_get_str_out := [] |};
     wifi_bringup := WiFi.bringup_all_ok;
     wifi_events := evs;
     esp_bt_controller_mem_release_rc := 0 |}.

End Main.

(** ** Statements worded as the specification words them *)

Module Spec.

(** Section 3, [RetryCounter]: the counter goes up by one on every
    failure event, and give-up fires the instant it exceeds the
    maximum; read along a run of disconnect events from start-up. *)
Definition counter_counts_every_failure (K : WiFi.constants) : Prop :=
  forall n : nat,
    let s := fst (WiFi.deliver K (repeat (WiFi.STA_DISCONNECTED K) n) WiFi.initial) in
    let r := WiFi.wifi_event_handler K (WiFi.STA_DISCONNECTED K) s in
    WiFi.s_retry_num (fst r) = WiFi.s_retry_num s + 1 /\
    (C.count (WiFi.is_set_bits WiFi.WIFI_FAIL_BIT) (snd r) = 1%nat <->
     WiFi.ESP_MAXIMUM_RETRY K < WiFi.s_retry_num (fst r)).

(** Section 8, property 4: with a connect attempt in flight (a
    connectable hit was accepted while not connected, the connect was
    initiated, and no connect outcome has come yet) a further discovery
    hit leaves the state as it is and issues no connect attempt. *)
Definition in_flight_hits_ignored (K : NimBLE.constants) : Prop :=
  forall (H1 H2 : Central.host) (d1 d2 : NimBLE.ble_gap_disc_desc) (s : Central.state),
    Central.s_is_connected s = false ->
    Central.connectable K d1 = true ->
    Central.ble_gap_connect_rc H1 = 0 ->
    let r1 := Central.ble_central_gap_event K H1 (NimBLE.BLE_GAP_EVENT_DISC d1) s in
    let r2 := Central.ble_central_gap_event K H2 (NimBLE.BLE_GAP_EVENT_DISC d2) (snd (fst r1)) in
    snd (fst r2) = snd (fst r1) /\
    C.count Central.is_connect (snd r2) = 0%nat.

(** Section 8, peripheral restart: every Disconnect event, and every
    AdvertiseComplete event arriving while not connected, is followed
    within the same step by exactly one advertising-restart action,
    the request to the host to advertise again; none is skipped and
    none is issued twice. *)
Definition restart_never_skipped (K : NimBLE.constants) : Prop :=
  forall (H : Peripheral.host) (s : Peripheral.state),
    (forall reason peer,
       C.count Peripheral.is_adv_start
         (snd (Peripheral.ble_peripheral_gap_event K H
                 (NimBLE.BLE_GAP_EVENT_DISCONNECT reason peer) s)) = 1%nat) /\
    (Peripheral.s_is_connected s = false ->
     C.count Peripheral.is_adv_start
       (snd (Peripheral.ble_peripheral_gap_event K H
               NimBLE.BLE_GAP_EVENT_ADV_COMPLETE s)) = 1%nat).

(** The flag invariant of both roles holds at start-up and is kept by
    every GAP event and by the host-reset callback. *)
Definition flag_invariant_kept (K : NimBLE.constants) : Prop :=
  (forall t, Peripheral.flag_implies_handle K (Peripheral.initial K t)) /\
  (forall t, Central.flag_implies_handle K (Central.initial K t)) /\
  (forall H event s,
     Peripheral.flag_implies_handle K s ->
     Peripheral.flag_implies_handle K
       (snd (fst (Peripheral.ble_peripheral_gap_event K H event s)))) /\
  (forall H event s,
     Central.flag_implies_handle K s ->
     Central.flag_implies_handle K
       (snd (fst (Central.ble_central_gap_event K H event s)))) /\
  (forall reason s,
     Peripheral.flag_implies_handle K (fst (Peripheral.ble_peripheral_on_reset K reason s))) /\
  (forall reason s,
     Central.flag_implies_handle K (fst (Central.ble_central_on_reset K reason s))).

(** Section 6, address display format: the bytes in reverse order,
    each as two uppercase hexadecimal digits, separated by colons. *)
Definition hex_table : string := "0123456789ABCDEF".

Definition hex_at (k : N) : ascii :=
  match String.get (N.to_nat k) hex_table with
  | Some c => c
  | None => "?"%char
  end.

Definition hi_digit (b : byte) : ascii := hex_at (Byte.to_N b / 16).
Definition lo_digit (b : byte) : ascii := hex_at (Byte.to_N b mod 16).

Definition hex_pair (b : byte) : string :=
  String (hi_digit b) (String (lo_digit b) EmptyString).

Definition display_form (addr : list byte) : string :=
  String.concat ":" (List.map hex_pair (List.rev addr)).

(** Reading a pair of hexadecimal digits back, to tell display forms
    apart. *)
Fixpoint index_in (c : ascii) (table : string) (i : N) : option N :=
  match table with
  | EmptyString => None
  | String d rest => if Ascii.eqb c d then Some i else index_in c rest (i + 1)%N
  end.

Definition parse_hex_pair (s : string) : option byte :=
  match s with
  | String h (String l EmptyString) =>
      match index_in h hex_table 0, index_in l hex_table 0 with
      | Some a, Some b => Byte.of_N (a * 16 + b)
      | _, _ => None
      end
  | _ => None
  end.

End Spec.

(** * Properties *)

(** ** Counting calls *)

Section Counting.
Context {A : Type}.
Implicit Types (p : A -> bool) (l : list A).

Lemma count_nil p : C.count p [] = 0%nat.
Proof. reflexivity. Qed.

Lemma count_app p l1 l2 :
  C.count p (l1 ++ l2) = (C.count p l1 + C.count p l2)%nat.
Proof. unfold C.count. now rewrite filter_app, length_app. Qed.

Lemma count_cons p a l :
  C.count p (a :: l) = ((if p a then 1 else 0) + C.count p l)%nat.
Proof. unfold C.count. simpl. now destruct (p a). Qed.

Lemma count_concat_repeat p l n :
  C.count p (List.concat (repeat l n)) = (n * C.count p l)%nat.
Proof.
  induction n as [|n IH]; simpl; [reflexivity|].
  now rewrite count_app, IH.
Qed.

End Counting.

(** ** C arithmetic *)

Lemma int_wrap_id z : C.is_int z -> C.int_wrap z = z.
Proof.
  unfold C.is_int, C.INT_MIN, C.INT_MAX, C.int_wrap. intros Hz.
  rewrite Z.mod_small; lia.
Qed.

(** ** The Wi-Fi retry policy *)

Section WiFiRetry.
Import WiFi.
Variable K : constants.

Lemma base_eqb_refl b : base_eqb b b = true.
Proof. destruct b; simpl; auto using String.eqb_refl. Qed.

(** The three branches of the handler that touch the state. *)
Lemma handler_disconnected s :
  WIFI_EVENT_STA_START K <> WIFI_EVENT_STA_DISCONNECTED K ->
  wifi_event_handler K (STA_DISCONNECTED K) s =
    if s_retry_num s <? ESP_MAXIMUM_RETRY K then
      ({| s_retry_num := C.int_wrap (s_retry_num s + 1);
          s_wifi_event_group := s_wifi_event_group s |}, retry_trace)
    else
      ({| s_retry_num := s_retry_num s;
          s_wifi_event_group := Z.lor (s_wifi_event_group s) WIFI_FAIL_BIT |},
       give_up_trace).
Proof.
  intros Hne. unfold wifi_event_handler, STA_DISCONNECTED. simpl.
  rewrite Z.eqb_refl.
  destruct (Z.eqb_spec (WIFI_EVENT_STA_DISCONNECTED K) (WIFI_EVENT_STA_START K));
    [congruence | reflexivity].
Qed.

Lemma handler_got_ip s :
  wifi_event_handler K (STA_GOT_IP K) s =
    ({| s_retry_num := 0;
        s_wifi_event_group := Z.lor (s_wifi_event_group s) WIFI_CONNECTED_BIT |},
     got_ip_trace).
Proof.
  unfold wifi_event_handler, STA_GOT_IP. simpl. now rewrite Z.eqb_refl.
Qed.

(** A run of disconnect events that stays within the budget. *)
Lemma deliver_disconnects (n : nat) : forall s,
  WIFI_EVENT_STA_START K <> WIFI_EVENT_STA_DISCONNECTED K ->
  ESP_MAXIMUM_RETRY K <= C.INT_MAX ->
  C.INT_MIN <= s_retry_num s ->
  s_retry_num s + Z.of_nat n <= ESP_MAXIMUM_RETRY K ->
  deliver K (repeat (STA_DISCONNECTED K) n) s =
    ({| s_retry_num := s_retry_num s + Z.of_nat n;
        s_wifi_event_group := s_wifi_event_group s |},
     List.concat (repeat retry_trace n)).
Proof.
  induction n as [|n IH]; intros s Hne Hmax Hlo Hle.
  - simpl. rewrite Z.add_0_r. now destruct s.
  - cbn [repeat deliver List.concat].
    rewrite handler_disconnected by assumption.
    destruct (Z.ltb_spec (s_retry_num s) (ESP_MAXIMUM_RETRY K)); [|lia].
    rewrite int_wrap_id by (unfold C.is_int; lia).
    rewrite IH; cbn [s_retry_num s_wifi_event_group]; try assumption; try lia.
    do 2 f_equal. lia.
Qed.

End WiFiRetry.

Section WiFiClaims.
Import WiFi.

(** C1. Bounded retry of the station role: from a counter of 0, after
    [N] consecutive disconnect events with [N <= max] the counter is
    [N], each of the [N] events reissued exactly one connect and fired
    no Fail, and the event group is untouched; when [N = max] the next
    disconnect event fires exactly one Fail, reissues no connect and
    leaves the counter at [max]. The budget is an [int], and the SDK
    gives the start and the disconnect event different identifiers. *)
Theorem C1_bounded_retry (K : constants) (s : state) (N : nat) :
  WIFI_EVENT_STA_START K <> WIFI_EVENT_STA_DISCONNECTED K ->
  ESP_MAXIMUM_RETRY K <= C.INT_MAX ->
  s_retry_num s = 0 ->
  Z.of_nat N <= ESP_MAXIMUM_RETRY K ->
  let after (k : nat) := fst (deliver K (repeat (STA_DISCONNECTED K) k) s) in
  let step (k : nat) := wifi_event_handler K (STA_DISCONNECTED K) (after k) in
  s_retry_num (after N) = Z.of_nat N /\
  s_wifi_event_group (after N) = s_wifi_event_group s /\
  C.count is_connect (snd (deliver K (repeat (STA_DISCONNECTED K) N) s)) = N /\
  C.count (is_set_bits WIFI_FAIL_BIT)
    (snd (deliver K (repeat (STA_DISCONNECTED K) N) s)) = 0%nat /\
  (forall k : nat, (k < N)%nat ->
     C.count is_connect (snd (step k)) = 1%nat /\
     C.count (is_set_bits WIFI_FAIL_BIT) (snd (step k)) = 0%nat) /\
  (Z.of_nat N = ESP_MAXIMUM_RETRY K ->
     C.count (is_set_bits WIFI_FAIL_BIT) (snd (step N)) = 1%nat /\
     C.count is_connect (snd (step N)) = 0%nat /\
     s_retry_num (fst (step N)) = ESP_MAXIMUM_RETRY K /\
     s_wifi_event_group (fst (step N)) =
       Z.lor (s_wifi_event_group s) WIFI_FAIL_BIT).
Proof.
  intros Hne Hmax H0 HN after step.
  assert (Hrun : forall k : nat, (k <= N)%nat ->
            deliver K (repeat (STA_DISCONNECTED K) k) s =
              ({| s_retry_num := Z.of_nat k;
                  s_wifi_event_group := s_wifi_event_group s |},
               List.concat (repeat retry_trace k))).
  { intros k Hk. rewrite deliver_disconnects; rewrite ?H0; try assumption.
    - reflexivity.
    - unfold C.INT_MIN. lia.
    - lia. }
  subst after step. cbv beta.
  rewrite (Hrun N) by lia. cbn [fst snd s_retry_num s_wifi_event_group].
  rewrite !count_concat_repeat.
  refine (conj eq_refl (conj eq_refl (conj _ (conj _ (conj _ _)))));
    try (change (C.count is_connect retry_trace) with 1%nat;
         change (C.count (is_set_bits WIFI_FAIL_BIT) retry_trace) with 0%nat; lia).
  - intros k Hk. rewrite (Hrun k) by lia. cbn [fst].
    rewrite handler_disconnected by assumption. cbn [s_retry_num].
    destruct (Z.ltb_spec (Z.of_nat k) (ESP_MAXIMUM_RETRY K)); [|lia].
    split; reflexivity.
  - intros HNmax. rewrite handler_disconnected by assumption.
    cbn [s_retry_num s_wifi_event_group].
    destruct (Z.ltb_spec (Z.of_nat N) (ESP_MAXIMUM_RETRY K)); [lia|].
    cbn [fst snd s_retry_num s_wifi_event_group].
    repeat split; try reflexivity. exact HNmax.
Qed.

End WiFiClaims.

Lemma C1_bounded_retry_witness :
  WiFi.s_retry_num
    (fst (WiFi.deliver WiFi.idf5_budget3
            (repeat (WiFi.STA_DISCONNECTED WiFi.idf5_budget3) 3) WiFi.initial)) = 3 /\
  C.count (WiFi.is_set_bits WiFi.WIFI_FAIL_BIT)
    (snd (WiFi.wifi_event_handler WiFi.idf5_budget3
            (WiFi.STA_DISCONNECTED WiFi.idf5_budget3)
            (fst (WiFi.deliver WiFi.idf5_budget3
                    (repeat (WiFi.STA_DISCONNECTED WiFi.idf5_budget3) 3)
                    WiFi.initial)))) = 1%nat.
Proof.
  destruct (C1_bounded_retry WiFi.idf5_budget3 WiFi.initial 3)
    as (Hn & _ & _ & _ & _ & Hlast).
  - simpl. lia.
  - unfold C.INT_MAX. simpl. lia.
  - reflexivity.
  - simpl. lia.
  - split; [exact Hn | apply Hlast; reflexivity].
Defined.

Section WiFiCounter.
Import WiFi.

(** C2, as amended. A disconnect event that finds the counter below
    the maximum adds exactly 1 to it and reissues one connect; one that
    finds it at or above the maximum leaves it as it is and fires
    exactly one Fail. Fail fires exactly on a disconnect event that
    finds the counter not below the maximum, and a counter within the
    maximum stays within it. The counter and the budget are [int]s, and
    the SDK gives the start and the disconnect event different
    identifiers. *)
Theorem C2_counter_step (K : constants) (s : state) :
  WIFI_EVENT_STA_START K <> WIFI_EVENT_STA_DISCONNECTED K ->
  ESP_MAXIMUM_RETRY K <= C.INT_MAX ->
  C.is_int (s_retry_num s) ->
  let r := wifi_event_handler K (STA_DISCONNECTED K) s in
  (s_retry_num s < ESP_MAXIMUM_RETRY K ->
     s_retry_num (fst r) = s_retry_num s + 1 /\
     C.count is_connect (snd r) = 1%nat /\
     C.count (is_set_bits WIFI_FAIL_BIT) (snd r) = 0%nat) /\
  (ESP_MAXIMUM_RETRY K <= s_retry_num s ->
     s_retry_num (fst r) = s_retry_num s /\
     C.count is_connect (snd r) = 0%nat /\
     C.count (is_set_bits WIFI_FAIL_BIT) (snd r) = 1%nat) /\
  (C.count (is_set_bits WIFI_FAIL_BIT) (snd r) = 1%nat <->
     ESP_MAXIMUM_RETRY K <= s_retry_num s) /\
  (s_retry_num s <= ESP_MAXIMUM_RETRY K ->
     s_retry_num (fst r) <= ESP_MAXIMUM_RETRY K).
Proof.
  intros Hne Hmax Hint r. subst r.
  rewrite handler_disconnected by assumption.
  unfold C.is_int, C.INT_MIN, C.INT_MAX in *.
  destruct (Z.ltb_spec (s_retry_num s) (ESP_MAXIMUM_RETRY K)) as [Hlt | Hge];
    cbn [fst snd s_retry_num].
  - rewrite int_wrap_id by (unfold C.is_int, C.INT_MIN, C.INT_MAX; lia).
    change (C.count is_connect retry_trace) with 1%nat.
    change (C.count (is_set_bits WIFI_FAIL_BIT) retry_trace) with 0%nat.
    repeat split; intros; try lia; try discriminate.
  - change (C.count is_connect give_up_trace) with 0%nat.
    change (C.count (is_set_bits WIFI_FAIL_BIT) give_up_trace) with 1%nat.
    repeat split; intros; try lia.
Qed.

(** C4. A got-IP event resets the retry counter to 0 whatever its
    value was. *)
Theorem C4_success_resets_counter (K : constants) (s : state) :
  s_retry_num (fst (wifi_event_handler K (STA_GOT_IP K) s)) = 0.
Proof. now rewrite handler_got_ip. Qed.

End WiFiCounter.

Lemma C2_counter_step_witness :
  WiFi.s_retry_num
    (fst (WiFi.wifi_event_handler WiFi.idf5_budget3
            (WiFi.STA_DISCONNECTED WiFi.idf5_budget3)
            {| WiFi.s_retry_num := 3; WiFi.s_wifi_event_group := 0 |})) = 3.
Proof.
  destruct (C2_counter_step WiFi.idf5_budget3
              {| WiFi.s_retry_num := 3; WiFi.s_wifi_event_group := 0 |})
    as (_ & Hge & _ & _).
  - simpl. lia.
  - unfold C.INT_MAX. simpl. lia.
  - unfold C.is_int, C.INT_MIN, C.INT_MAX. simpl. lia.
  - destruct Hge as (Hc & _ & _); [simpl; lia | exact Hc].
Defined.

(** The statement of section 3 fails with a budget of 3: the fourth
    disconnect event in a row leaves the counter at 3. *)
Lemma C2_counter_not_every_failure :
  ~ Spec.counter_counts_every_failure WiFi.idf5_budget3.
Proof.
  intros H. specialize (H 3%nat). destruct H as [H _].
  vm_compute in H. discriminate H.
Qed.

(** ** The blocking call of the station supervisor *)

Section Supervisor.
Import WiFi.
Variable K : constants.

Lemma terminal_bits_zero b :
  Z.land b terminal_bits = 0 <->
  Z.land b WIFI_CONNECTED_BIT = 0 /\ Z.land b WIFI_FAIL_BIT = 0.
Proof.
  unfold terminal_bits. rewrite Z.land_lor_distr_r. apply Z.lor_eq_0_iff.
Qed.

Lemma set_connected_bit b :
  Z.land b terminal_bits = 0 ->
  Z.land (Z.lor b WIFI_CONNECTED_BIT) WIFI_CONNECTED_BIT <> 0 /\
  Z.land (Z.lor b WIFI_CONNECTED_BIT) WIFI_FAIL_BIT = 0.
Proof.
  intros Hb. apply terminal_bits_zero in Hb. destruct Hb as [H1 H2].
  rewrite !Z.land_lor_distr_l, H1, H2. now vm_compute.
Qed.

Lemma set_fail_bit b :
  Z.land b terminal_bits = 0 ->
  Z.land (Z.lor b WIFI_FAIL_BIT) WIFI_FAIL_BIT <> 0 /\
  Z.land (Z.lor b WIFI_FAIL_BIT) WIFI_CONNECTED_BIT = 0.
Proof.
  intros Hb. apply terminal_bits_zero in Hb. destruct Hb as [H1 H2].
  rewrite !Z.land_lor_distr_l, H1, H2. now vm_compute.
Qed.

(** One run of the handler either leaves the event group alone and
    calls neither collaborator, or takes the give-up branch, or takes
    the got-IP branch. *)
Lemma handler_cases ev s :
  let r := wifi_event_handler K ev s in
  (s_wifi_event_group (fst r) = s_wifi_event_group s /\
   C.count is_led_set (snd r) = 0%nat /\
   C.count is_web_server_start (snd r) = 0%nat)
  \/ (s_wifi_event_group (fst r) = Z.lor (s_wifi_event_group s) WIFI_FAIL_BIT /\
      snd r = give_up_trace)
  \/ (s_wifi_event_group (fst r) = Z.lor (s_wifi_event_group s) WIFI_CONNECTED_BIT /\
      snd r = got_ip_trace).
Proof.
  unfold wifi_event_handler.
  destruct (base_eqb (event_base ev) WIFI_EVENT && (event_id ev =? WIFI_EVENT_STA_START K)).
  { left. repeat split. }
  destruct (base_eqb (event_base ev) WIFI_EVENT
            && (event_id ev =? WIFI_EVENT_STA_DISCONNECTED K)).
  { destruct (s_retry_num s <? ESP_MAXIMUM_RETRY K).
    - left. repeat split.
    - right. left. split; reflexivity. }
  destruct (base_eqb (event_base ev) IP_EVENT && (event_id ev =? IP_EVENT_STA_GOT_IP K)).
  { right. right. split; reflexivity. }
  left. repeat split.
Qed.

Lemma deliver_cons ev evs s :
  deliver K (ev :: evs) s =
    (fst (deliver K evs (fst (wifi_event_handler K ev s))),
     snd (wifi_event_handler K ev s)
       ++ snd (deliver K evs (fst (wifi_event_handler K ev s)))).
Proof.
  simpl. destruct (wifi_event_handler K ev s) as [s1 t1].
  simpl. now destruct (deliver K evs s1).
Qed.

Lemma wait_terminal evs s tr :
  Z.land (s_wifi_event_group s) terminal_bits <> 0 ->
  xEventGroupWaitBits K terminal_bits evs s tr = Returned (s_wifi_event_group s) s tr.
Proof.
  intros Hb. apply Z.eqb_neq in Hb. destruct evs; simpl; now rewrite Hb.
Qed.

Lemma wait_step ev evs s tr :
  Z.land (s_wifi_event_group s) terminal_bits = 0 ->
  xEventGroupWaitBits K terminal_bits (ev :: evs) s tr =
    xEventGroupWaitBits K terminal_bits evs
      (fst (wifi_event_handler K ev s)) (tr ++ snd (wifi_event_handler K ev s)).
Proof.
  intros Hb. apply Z.eqb_eq in Hb. cbn [xEventGroupWaitBits]. rewrite Hb.
  cbn [negb]. now destruct (wifi_event_handler K ev s).
Qed.

(** The wait returns at the first event after which one of the two
    bits is set; nothing delivered before it called a collaborator. *)
Lemma wait_returns_at_first_terminal evs : forall s tr bits s' tr',
  Z.land (s_wifi_event_group s) terminal_bits = 0 ->
  xEventGroupWaitBits K terminal_bits evs s tr = Returned bits s' tr' ->
  exists pre ev rest,
    evs = pre ++ ev :: rest /\
    (forall p q, pre = p ++ q ->
       Z.land (s_wifi_event_group (fst (deliver K p s))) terminal_bits = 0) /\
    s' = fst (wifi_event_handler K ev (fst (deliver K pre s))) /\
    s' = fst (deliver K (pre ++ [ev]) s) /\
    tr' = tr ++ snd (deliver K pre s)
             ++ snd (wifi_event_handler K ev (fst (deliver K pre s))) /\
    bits = s_wifi_event_group s' /\
    Z.land bits terminal_bits <> 0 /\
    C.count is_led_set (snd (deliver K pre s)) = 0%nat /\
    C.count is_web_server_start (snd (deliver K pre s)) = 0%nat.
Proof.
  induction evs as [|ev evs IH]; intros s tr bits s' tr' Hb Hw.
  - simpl in Hw. apply Z.eqb_eq in Hb. rewrite Hb in Hw. discriminate.
  - rewrite wait_step in Hw by assumption.
    destruct (Z.eq_dec
                (Z.land (s_wifi_event_group (fst (wifi_event_handler K ev s)))
                   terminal_bits) 0) as [Hz | Hnz].
    + destruct (IH _ _ _ _ _ Hz Hw)
        as (pre & e & rest & -> & Hpre & Hs1 & Hs2 & Htr & Hbits & Hnz & Hled & Hweb).
      exists (ev :: pre), e, rest.
      assert (Hquiet :
                C.count is_led_set (snd (wifi_event_handler K ev s)) = 0%nat /\
                C.count is_web_server_start (snd (wifi_event_handler K ev s)) = 0%nat).
      { destruct (handler_cases ev s) as [(_ & H1 & H2) | [(Hg & _) | (Hg & _)]].
        - now split.
        - rewrite Hg in Hz. destruct (set_fail_bit _ Hb) as [Hc _].
          apply terminal_bits_zero in Hz. tauto.
        - rewrite Hg in Hz. destruct (set_connected_bit _ Hb) as [Hc _].
          apply terminal_bits_zero in Hz. tauto. }
      rewrite !deliver_cons. cbn [fst snd].
      repeat match goal with |- _ /\ _ => split end; try assumption.
      * reflexivity.
      * intros [|p0 p] q Hpq.
        -- exact Hb.
        -- injection Hpq as <- ->. rewrite deliver_cons. cbn [fst].
           now apply (Hpre p q).
      * change ((ev :: pre) ++ [e]) with (ev :: (pre ++ [e])).
        rewrite deliver_cons. exact Hs2.
      * rewrite Htr, <- !app_assoc. reflexivity.
      * rewrite count_app. lia.
      * rewrite count_app. lia.
    + rewrite wait_terminal in Hw by assumption. injection Hw as <- <- <-.
      exists [], ev, evs. cbn [deliver fst snd app].
      repeat match goal with |- _ /\ _ => split end; try reflexivity; try assumption.
      * intros p q Hpq. symmetry in Hpq. apply app_eq_nil in Hpq.
        destruct Hpq as [-> _]. exact Hb.
      * now destruct (wifi_event_handler K ev s).
Qed.

(** Once a got-IP event is in the stream the wait does return. *)
Lemma wait_returns evs : forall s tr,
  In (STA_GOT_IP K) evs ->
  exists bits s' tr', xEventGroupWaitBits K terminal_bits evs s tr = Returned bits s' tr'.
Proof.
  induction evs as [|ev evs IH]; intros s tr Hin; [destruct Hin|].
  destruct (Z.eq_dec (Z.land (s_wifi_event_group s) terminal_bits) 0) as [Hz | Hnz].
  - rewrite wait_step by assumption.
    destruct Hin as [-> | Hin]; [|now apply IH].
    rewrite handler_got_ip. cbn [fst snd].
    rewrite wait_terminal; [eauto|].
    cbn [s_wifi_event_group]. intros Hc. apply terminal_bits_zero in Hc.
    destruct (set_connected_bit _ Hz) as [Hs _]. tauto.
  - rewrite wait_terminal by assumption. eauto.
Qed.

(** Conversely the wait does return at the first event after which one
    of the two bits is set, whichever bit it is, with the state and
    the calls of the events delivered so far. *)
Lemma wait_returns_after_prefix pre : forall ev rest s tr,
  (forall p q, pre = p ++ q ->
     Z.land (s_wifi_event_group (fst (deliver K p s))) terminal_bits = 0) ->
  Z.land (s_wifi_event_group (fst (deliver K (pre ++ [ev]) s))) terminal_bits <> 0 ->
  xEventGroupWaitBits K terminal_bits (pre ++ ev :: rest) s tr =
    Returned (s_wifi_event_group (fst (deliver K (pre ++ [ev]) s)))
      (fst (deliver K (pre ++ [ev]) s))
      (tr ++ snd (deliver K (pre ++ [ev]) s)).
Proof.
  induction pre as [|e pre IH]; intros ev rest s tr Hpre Hnz.
  - pose proof (Hpre [] [] eq_refl) as Hb. cbn [deliver fst] in Hb.
    cbn [app] in Hnz |- *. rewrite deliver_cons in Hnz |- *.
    cbn [deliver fst snd] in Hnz |- *.
    rewrite wait_step by assumption. rewrite wait_terminal by assumption.
    now rewrite app_nil_r.
  - pose proof (Hpre [] (e :: pre) eq_refl) as Hb. cbn [deliver fst] in Hb.
    change ((e :: pre) ++ ev :: rest) with (e :: (pre ++ ev :: rest)).
    change ((e :: pre) ++ [ev]) with (e :: (pre ++ [ev])) in Hnz |- *.
    rewrite deliver_cons in Hnz |- *. cbn [fst snd] in Hnz |- *.
    rewrite wait_step by assumption.
    rewrite (IH ev rest _ _); [now rewrite app_assoc | | exact Hnz].
    intros p q Hpq. specialize (Hpre (e :: p) q).
    rewrite deliver_cons in Hpre. cbn [fst] in Hpre. apply Hpre. now rewrite Hpq.
Qed.

End Supervisor.

Section SupervisorClaim.
Import WiFi.
Variable K : constants.

Lemma start_after_bringup rc evs s :
  bringup_ok K rc = true ->
  wifi_manager_start K rc evs s =
    after_wait
      (xEventGroupWaitBits K terminal_bits evs
         {| s_retry_num := s_retry_num s; s_wifi_event_group := 0 |}
         (bringup_trace K)).
Proof.
  unfold bringup_ok. rewrite !andb_true_iff.
  intros [[[[[[[H1 H2] H3] H4] H5] H6] H7] H8].
  unfold wifi_manager_start, ESP_ERROR_CHECK.
  now rewrite H1, H2, H3, H4, H5, H6, H7, H8.
Qed.

Lemma start_returned_bringup rc evs s bits s' tr :
  wifi_manager_start K rc evs s = Returned bits s' tr ->
  bringup_ok K rc = true.
Proof.
  unfold wifi_manager_start, ESP_ERROR_CHECK, bringup_ok.
  repeat match goal with
         | |- context [if ?x =? ESP_OK K then _ else _] =>
             destruct (x =? ESP_OK K); [|discriminate]
         end.
  reflexivity.
Qed.

Lemma after_wait_returned o bits s tr :
  after_wait o = Returned bits s tr ->
  exists tr1 lvl msg, o = Returned bits s tr1 /\ tr = tr1 ++ [ESP_LOG lvl msg].
Proof.
  destruct o as [t | s1 t | b s1 t]; simpl; try discriminate.
  destruct (negb (Z.land b WIFI_CONNECTED_BIT =? 0));
    [|destruct (negb (Z.land b WIFI_FAIL_BIT =? 0))];
    intros Heq; injection Heq as -> -> <-; eauto.
Qed.

Lemma after_wait_keeps_returned bits s tr :
  exists tr', after_wait (Returned bits s tr) = Returned bits s tr'.
Proof.
  simpl. destruct (negb (Z.land bits WIFI_CONNECTED_BIT =? 0));
    [|destruct (negb (Z.land bits WIFI_FAIL_BIT =? 0))]; eauto.
Qed.

Lemma no_led_set_no_led_on l :
  C.count is_led_set l = 0%nat -> C.count is_led_on l = 0%nat.
Proof.
  induction l as [|a l IH]; [reflexivity|].
  rewrite !count_cons. destruct a; simpl; try exact IH. discriminate.
Qed.

(** What the collaborator behind [led_control_set] does with a
    non-zero argument: the pin is driven high and reads back as on. *)
Lemma led_control_set_on on l :
  on <> 0 ->
  LedControl.led_control_set on l =
    ({| LedControl.s_led_on := 1 |},
     [LedControl.gpio_set_level LedControl.LED_GPIO 1]) /\
  LedControl.led_control_is_on (fst (LedControl.led_control_set on l)) = 1.
Proof.
  intros Hon. unfold LedControl.led_control_set.
  apply Z.eqb_neq in Hon. rewrite Hon. split; reflexivity.
Qed.

(** C5. [wifi_manager_start] returns only at the first event after
    which the Connected or the Fail bit is set: no bit was set after
    any earlier event. When it returns on Connected, exactly one
    [led_control_set], with a non-zero argument, and exactly one
    [web_server_start] have been called, and the Fail bit is clear;
    when it returns on Fail neither has been called. With a bring-up
    that succeeds and a got-IP event in the stream it does return.
    And with a bring-up that succeeds it does return at the first
    event that leaves either bit set, on Fail as on Connected: it
    returns the bits and the state that event left, on Fail with
    neither collaborator called, on Connected with each called once. *)
Theorem C5_supervisor_returns_on_terminal (rc : bringup)
    (evs : list esp_event) (s : state) :
  let s0 := {| s_retry_num := s_retry_num s; s_wifi_event_group := 0 |} in
  (forall bits s' tr,
     wifi_manager_start K rc evs s = Returned bits s' tr ->
     exists pre ev rest,
       evs = pre ++ ev :: rest /\
       (forall p q, pre = p ++ q ->
          Z.land (s_wifi_event_group (fst (deliver K p s0))) terminal_bits = 0) /\
       s' = fst (deliver K (pre ++ [ev]) s0) /\
       bits = s_wifi_event_group s' /\
       Z.land bits terminal_bits <> 0 /\
       (Z.land bits WIFI_CONNECTED_BIT <> 0 ->
          C.count is_led_set tr = 1%nat /\
          C.count is_led_on tr = 1%nat /\
          C.count is_web_server_start tr = 1%nat /\
          Z.land bits WIFI_FAIL_BIT = 0) /\
       (Z.land bits WIFI_FAIL_BIT <> 0 ->
          C.count is_led_set tr = 0%nat /\
          C.count is_web_server_start tr = 0%nat /\
          Z.land bits WIFI_CONNECTED_BIT = 0))
  /\ (bringup_ok K rc = true -> In (STA_GOT_IP K) evs ->
      exists bits s' tr, wifi_manager_start K rc evs s = Returned bits s' tr)
  /\ (bringup_ok K rc = true ->
      forall pre ev rest,
        evs = pre ++ ev :: rest ->
        (forall p q, pre = p ++ q ->
           Z.land (s_wifi_event_group (fst (deliver K p s0))) terminal_bits = 0) ->
        Z.land (s_wifi_event_group (fst (deliver K (pre ++ [ev]) s0)))
          terminal_bits <> 0 ->
        exists tr,
          wifi_manager_start K rc evs s =
            Returned (s_wifi_event_group (fst (deliver K (pre ++ [ev]) s0)))
              (fst (deliver K (pre ++ [ev]) s0)) tr /\
          (Z.land (s_wifi_event_group (fst (deliver K (pre ++ [ev]) s0)))
             WIFI_FAIL_BIT <> 0 ->
             C.count is_led_set tr = 0%nat /\
             C.count is_web_server_start tr = 0%nat) /\
          (Z.land (s_wifi_event_group (fst (deliver K (pre ++ [ev]) s0)))
             WIFI_CONNECTED_BIT <> 0 ->
             C.count is_led_on tr = 1%nat /\
             C.count is_web_server_start tr = 1%nat)).
Proof.
  intros s0.
  assert (Hreturned : forall bits s' tr,
     wifi_manager_start K rc evs s = Returned bits s' tr ->
     exists pre ev rest,
       evs = pre ++ ev :: rest /\
       (forall p q, pre = p ++ q ->
          Z.land (s_wifi_event_group (fst (deliver K p s0))) terminal_bits = 0) /\
       s' = fst (deliver K (pre ++ [ev]) s0) /\
       bits = s_wifi_event_group s' /\
       Z.land bits terminal_bits <> 0 /\
       (Z.land bits WIFI_CONNECTED_BIT <> 0 ->
          C.count is_led_set tr = 1%nat /\
          C.count is_led_on tr = 1%nat /\
          C.count is_web_server_start tr = 1%nat /\
          Z.land bits WIFI_FAIL_BIT = 0) /\
       (Z.land bits WIFI_FAIL_BIT <> 0 ->
          C.count is_led_set tr = 0%nat /\
          C.count is_web_server_start tr = 0%nat /\
          Z.land bits WIFI_CONNECTED_BIT = 0)).
  { intros bits s' tr Hret.
    pose proof (start_returned_bringup _ _ _ _ _ _ Hret) as Hok.
    rewrite start_after_bringup in Hret by assumption.
    apply after_wait_returned in Hret.
    destruct Hret as (tr1 & lvl & msg & Hw & ->).
    apply wait_returns_at_first_terminal in Hw; [|reflexivity].
    destruct Hw as (pre & ev & rest & -> & Hpre & Hs1 & Hs2 & -> & Hbits & Hnz & Hled & Hweb).
    exists pre, ev, rest. fold s0 in Hpre, Hs1, Hs2, Hled, Hweb |- *.
    repeat match goal with |- _ /\ _ => split end; try assumption; try reflexivity.
    + intros Hc. rewrite !count_app, (no_led_set_no_led_on _ Hled), Hled, Hweb.
      assert (Hq : Z.land (s_wifi_event_group (fst (deliver K pre s0))) terminal_bits = 0)
        by (apply (Hpre pre []); now rewrite app_nil_r).
      destruct (handler_cases K ev (fst (deliver K pre s0)))
        as [(Hg & _) | [(Hg & Ht) | (Hg & Ht)]];
        rewrite <- Hs1 in Hg; rewrite <- Hbits in Hg.
      * rewrite Hg in Hnz. contradiction.
      * destruct (set_fail_bit _ Hq) as [_ Hcl]. rewrite <- Hg in Hcl. contradiction.
      * destruct (set_connected_bit _ Hq) as [_ Hcl]. rewrite <- Hg in Hcl.
        rewrite Ht. repeat split; try reflexivity. exact Hcl.
    + intros Hf. rewrite !count_app, Hled, Hweb.
      assert (Hq : Z.land (s_wifi_event_group (fst (deliver K pre s0))) terminal_bits = 0)
        by (apply (Hpre pre []); now rewrite app_nil_r).
      destruct (handler_cases K ev (fst (deliver K pre s0)))
        as [(Hg & _) | [(Hg & Ht) | (Hg & Ht)]];
        rewrite <- Hs1 in Hg; rewrite <- Hbits in Hg.
      * rewrite Hg in Hnz. contradiction.
      * destruct (set_fail_bit _ Hq) as [_ Hcl]. rewrite <- Hg in Hcl.
        rewrite Ht. repeat split; try reflexivity. exact Hcl.
      * destruct (set_connected_bit _ Hq) as [_ Hcl]. rewrite <- Hg in Hcl. contradiction. }
  refine (conj Hreturned (conj _ _)).
  - intros Hok Hin. rewrite start_after_bringup by assumption. subst s0.
    destruct (wait_returns K evs
                {| s_retry_num := s_retry_num s; s_wifi_event_group := 0 |}
                (bringup_trace K) Hin) as (bits & s' & tr & ->).
    destruct (after_wait_keeps_returned bits s' tr) as [tr' ->]. eauto.
  - intros Hok pre ev rest Hevs Hpre Hnz.
    assert (Hret : exists tr,
              wifi_manager_start K rc evs s =
                Returned (s_wifi_event_group (fst (deliver K (pre ++ [ev]) s0)))
                  (fst (deliver K (pre ++ [ev]) s0)) tr).
    { rewrite start_after_bringup by assumption. fold s0. rewrite Hevs.
      rewrite (wait_returns_after_prefix K pre ev rest s0 (bringup_trace K) Hpre Hnz).
      apply after_wait_keeps_returned. }
    destruct Hret as [tr Hret]. exists tr. split; [exact Hret|].
    destruct (Hreturned _ _ _ Hret)
      as (_ & _ & _ & _ & _ & _ & _ & _ & Hconn & Hfail).
    split.
    + intros Hf. destruct (Hfail Hf) as (Hl & Hw & _). now split.
    + intros Hc. destruct (Hconn Hc) as (_ & Hl & Hw & _). now split.
Qed.

End SupervisorClaim.

Lemma C5_supervisor_returns_on_terminal_witness :
  (exists bits s' tr,
     WiFi.wifi_manager_start WiFi.idf5_budget3 WiFi.bringup_all_ok
       [WiFi.STA_DISCONNECTED WiFi.idf5_budget3;
        WiFi.STA_DISCONNECTED WiFi.idf5_budget3;
        WiFi.STA_GOT_IP WiFi.idf5_budget3] WiFi.initial = WiFi.Returned bits s' tr /\
     WiFi.s_retry_num s' = 0 /\
     C.count WiFi.is_led_on tr = 1%nat /\
     C.count WiFi.is_web_server_start tr = 1%nat)
  /\
  (exists tr,
     WiFi.wifi_manager_start WiFi.idf5_budget3 WiFi.bringup_all_ok
       [WiFi.STA_DISCONNECTED WiFi.idf5_budget3;
        WiFi.STA_DISCONNECTED WiFi.idf5_budget3;
        WiFi.STA_DISCONNECTED WiFi.idf5_budget3;
        WiFi.STA_DISCONNECTED WiFi.idf5_budget3] WiFi.initial =
       WiFi.Returned WiFi.WIFI_FAIL_BIT
         {| WiFi.s_retry_num := 3; WiFi.s_wifi_event_group := WiFi.WIFI_FAIL_BIT |} tr /\
     C.count WiFi.is_led_set tr = 0%nat /\
     C.count WiFi.is_web_server_start tr = 0%nat).
Proof.
  split.
  - eexists _, _, _. split; [reflexivity|]. split; [reflexivity|].
    destruct (C5_supervisor_returns_on_terminal WiFi.idf5_budget3 WiFi.bringup_all_ok
                [WiFi.STA_DISCONNECTED WiFi.idf5_budget3;
                 WiFi.STA_DISCONNECTED WiFi.idf5_budget3;
                 WiFi.STA_GOT_IP WiFi.idf5_budget3] WiFi.initial) as [Hret _].
    destruct (Hret _ _ _ eq_refl) as (pre & ev & rest & _ & _ & _ & _ & _ & Hconn & _).
    destruct Hconn as (_ & Hon & Hweb & _); [vm_compute; discriminate|].
    split; [exact Hon | exact Hweb].
  - destruct (C5_supervisor_returns_on_terminal WiFi.idf5_budget3 WiFi.bringup_all_ok
                [WiFi.STA_DISCONNECTED WiFi.idf5_budget3;
                 WiFi.STA_DISCONNECTED WiFi.idf5_budget3;
                 WiFi.STA_DISCONNECTED WiFi.idf5_budget3;
                 WiFi.STA_DISCONNECTED WiFi.idf5_budget3] WiFi.initial)
      as (_ & _ & Hterm).
    destruct (Hterm eq_refl
                [WiFi.STA_DISCONNECTED WiFi.idf5_budget3;
                 WiFi.STA_DISCONNECTED WiFi.idf5_budget3;
                 WiFi.STA_DISCONNECTED WiFi.idf5_budget3]
                (WiFi.STA_DISCONNECTED WiFi.idf5_budget3) [] eq_refl)
      as (tr & Hret & Hfail & _).
    + intros p q Hpq.
      destruct p as [|a [|b [|c [|d p]]]]; cbn [app] in Hpq.
      * reflexivity.
      * injection Hpq as <- _. reflexivity.
      * injection Hpq as <- <- _. reflexivity.
      * injection Hpq as <- <- <- _. reflexivity.
      * discriminate Hpq.
    + vm_compute. discriminate.
    + exists tr. split; [exact Hret|]. apply Hfail. vm_compute. discriminate.
Defined.

(** ** The peripheral role restarts advertising *)

Section PeripheralRestart.
Import NimBLE Peripheral.
Variables (K : constants) (H : host).

(** One run of [start_advertising]: the advertising data is set once,
    and advertising is started once unless setting the data failed. *)
Lemma start_advertising_calls s :
  host_calls (snd (start_advertising H s)) =
    if ble_gap_adv_set_fields_rc H =? 0
    then [ble_gap_adv_set_fields; ble_gap_adv_start (s_own_addr_type s)]
    else [ble_gap_adv_set_fields].
Proof.
  unfold start_advertising.
  destruct (ble_gap_adv_set_fields_rc H =? 0); [|reflexivity].
  destruct (ble_gap_adv_start_rc H =? 0); reflexivity.
Qed.

Lemma start_advertising_counts s :
  C.count is_adv_set_fields (snd (start_advertising H s)) = 1%nat /\
  C.count is_adv_start (snd (start_advertising H s)) =
    (if ble_gap_adv_set_fields_rc H =? 0 then 1%nat else 0%nat).
Proof.
  unfold start_advertising.
  destruct (ble_gap_adv_set_fields_rc H =? 0); [|split; reflexivity].
  destruct (ble_gap_adv_start_rc H =? 0); split; reflexivity.
Qed.

(** C6. In the peripheral role a Disconnect event, and an
    AdvertiseComplete event that finds the connected flag clear, runs
    [start_advertising] exactly once within the same call of the
    handler: the host calls of the step are those of one run of
    [start_advertising] in the state the step leaves, so the
    advertising data is set exactly once, and [ble_gap_adv_start] is
    called exactly once when setting the data succeeded and not at
    all when it failed; it is never called twice for one event. *)
Theorem C6_peripheral_restart_once (s : state) :
  (forall reason peer,
     let r := ble_peripheral_gap_event K H (BLE_GAP_EVENT_DISCONNECT reason peer) s in
     host_calls (snd r) = host_calls (snd (start_advertising H (snd (fst r)))) /\
     C.count is_adv_set_fields (snd r) = 1%nat /\
     (C.count is_adv_start (snd r) <= 1)%nat /\
     (ble_gap_adv_set_fields_rc H = 0 -> C.count is_adv_start (snd r) = 1%nat) /\
     (ble_gap_adv_set_fields_rc H <> 0 -> C.count is_adv_start (snd r) = 0%nat))
  /\
  (s_is_connected s = false ->
     let r := ble_peripheral_gap_event K H BLE_GAP_EVENT_ADV_COMPLETE s in
     snd (fst r) = s /\
     host_calls (snd r) = host_calls (snd (start_advertising H s)) /\
     C.count is_adv_set_fields (snd r) = 1%nat /\
     (C.count is_adv_start (snd r) <= 1)%nat /\
     (ble_gap_adv_set_fields_rc H = 0 -> C.count is_adv_start (snd r) = 1%nat) /\
     (ble_gap_adv_set_fields_rc H <> 0 -> C.count is_adv_start (snd r) = 0%nat)).
Proof.
  split.
  - intros reason peer r. subst r. cbn [ble_peripheral_gap_event fst snd].
    set (s1 := {| s_conn_handle := _ |}).
    destruct (start_advertising_counts s1) as [Hf Hs].
    rewrite !count_app, Hf, Hs.
    refine (conj _ (conj eq_refl (conj _ (conj _ _)))).
    + unfold host_calls. rewrite filter_app. reflexivity.
    + destruct (ble_gap_adv_set_fields_rc H =? 0); simpl; lia.
    + intros ->. reflexivity.
    + intros Hrc. apply Z.eqb_neq in Hrc. rewrite Hrc. reflexivity.
  - intros Hnc r. subst r. cbn [ble_peripheral_gap_event fst snd].
    rewrite Hnc. cbn [negb].
    destruct (start_advertising_counts s) as [Hf Hs].
    rewrite !count_cons, Hf, Hs.
    refine (conj eq_refl (conj eq_refl (conj eq_refl (conj _ (conj _ _))))).
    + destruct (ble_gap_adv_set_fields_rc H =? 0); simpl; lia.
    + intros ->. reflexivity.
    + intros Hrc. apply Z.eqb_neq in Hrc. rewrite Hrc. reflexivity.
Qed.

End PeripheralRestart.

Lemma C6_peripheral_restart_once_witness :
  Peripheral.host_calls
    (snd (Peripheral.ble_peripheral_gap_event NimBLE.nimble_headers Peripheral.host_all_ok
            NimBLE.BLE_GAP_EVENT_ADV_COMPLETE
            (Peripheral.initial NimBLE.nimble_headers 0))) =
    [Peripheral.ble_gap_adv_set_fields; Peripheral.ble_gap_adv_start 0].
Proof.
  destruct (C6_peripheral_restart_once NimBLE.nimble_headers Peripheral.host_all_ok
              (Peripheral.initial NimBLE.nimble_headers 0)) as [_ Hadv].
  destruct (Hadv eq_refl) as (_ & Hcalls & _).
  rewrite Hcalls. reflexivity.
Defined.

(** When [ble_gap_adv_set_fields] fails, [start_advertising] returns
    before [ble_gap_adv_start] and the handler drops its return code:
    the step of a Disconnect event then asks for no advertising. *)
Lemma C6_restart_skipped_when_fields_rejected :
  ~ Spec.restart_never_skipped NimBLE.nimble_headers.
Proof.
  intros Hclaim.
  destruct (Hclaim {| Peripheral.ble_gap_adv_set_fields_rc := 5;
                      Peripheral.ble_gap_adv_start_rc := 0;
                      Peripheral.ble_gap_conn_find_rc := 0 |}
              (Peripheral.initial NimBLE.nimble_headers 0)) as [Hdisc _].
  specialize (Hdisc 19 {| NimBLE.addr_type := 0;
                          NimBLE.val := [x01; x02; x03; x04; x05; x06] |}).
  vm_compute in Hdisc. discriminate Hdisc.
Qed.

(** ** The central role and discovery hits *)

Section CentralDiscovery.
Import NimBLE Central.
Variables (K : constants) (H : host).

Lemma print_device_info_logs disc :
  host_calls (print_device_info H disc) = [].
Proof.
  unfold print_device_info.
  destruct (ble_hs_adv_parse_fields H (data disc)) as [rc [name|]]; [|reflexivity].
  destruct ((rc =? 0) && (0 <? Z.of_nat (String.length name))); reflexivity.
Qed.

(** [connect_to_device] cancels discovery and then asks for the
    connection, whatever the cancel returned. *)
Lemma connect_to_device_calls peer s :
  host_calls (snd (connect_to_device K H peer s)) =
    [ble_gap_disc_cancel; ble_gap_connect (s_own_addr_type s) peer 10000].
Proof.
  unfold connect_to_device.
  destruct (negb (ble_gap_disc_cancel_rc H =? 0)
            && negb (ble_gap_disc_cancel_rc H =? BLE_HS_EALREADY K));
    destruct (negb (ble_gap_connect_rc H =? 0)); reflexivity.
Qed.

Lemma count_host_calls (p : action -> bool) tr :
  (forall lvl fmt, p (ESP_LOG lvl fmt) = false) ->
  C.count p tr = C.count p (host_calls tr).
Proof.
  intros Hp. induction tr as [|a tr IH]; [reflexivity|].
  unfold host_calls. cbn [filter].
  destruct a; cbn [is_host_call]; rewrite ?count_cons, ?Hp; cbn [Nat.add];
    fold (host_calls tr); rewrite <- IH; reflexivity.
Qed.

(** One discovery hit: same state, discovery cancel then connect when
    the hit is connectable and the flag is clear, no host call
    otherwise. *)
Lemma discovery_hit_step (disc : ble_gap_disc_desc) (s : state) :
  let r := ble_central_gap_event K H (BLE_GAP_EVENT_DISC disc) s in
  fst (fst r) = 0 /\
  snd (fst r) = s /\
  host_calls (snd r) =
    (if connectable K disc && negb (s_is_connected s)
     then [ble_gap_disc_cancel; ble_gap_connect (s_own_addr_type s) (addr disc) 10000]
     else []) /\
  C.count is_connect (snd r) =
    (if connectable K disc && negb (s_is_connected s) then 1%nat else 0%nat).
Proof.
  intros r. subst r. cbn [ble_central_gap_event fst snd].
  assert (Hcalls :
    host_calls
      (print_device_info H disc ++
         (if (event_type disc =? BLE_HCI_ADV_RPT_EVTYPE_ADV_IND K)
             || (event_type disc =? BLE_HCI_ADV_RPT_EVTYPE_DIR_IND K)
          then if negb (s_is_connected s)
               then snd (connect_to_device K H (addr disc) s) else []
          else [])) =
    (if connectable K disc && negb (s_is_connected s)
     then [ble_gap_disc_cancel; ble_gap_connect (s_own_addr_type s) (addr disc) 10000]
     else [])).
  { unfold host_calls at 1. rewrite filter_app.
    fold (host_calls (print_device_info H disc)). rewrite print_device_info_logs.
    unfold connectable.
    destruct ((event_type disc =? BLE_HCI_ADV_RPT_EVTYPE_ADV_IND K)
              || (event_type disc =? BLE_HCI_ADV_RPT_EVTYPE_DIR_IND K));
      [|reflexivity].
    destruct (negb (s_is_connected s)); [|reflexivity].
    apply connect_to_device_calls. }
  refine (conj eq_refl (conj eq_refl (conj Hcalls _))).
  rewrite (count_host_calls is_connect) by reflexivity.
  rewrite Hcalls.
  destruct (connectable K disc && negb (s_is_connected s)); reflexivity.
Qed.

End CentralDiscovery.

Section CentralDiscoveryWindow.
Import NimBLE Central.
Variable K : constants.

(** A window of discovery hits, each with the host's answers. *)
Lemma discovery_window (hits : list (host * ble_gap_disc_desc)) : forall s,
  let r := deliver K (List.map (fun hd => (fst hd, BLE_GAP_EVENT_DISC (snd hd))) hits) s in
  fst r = s /\
  C.count is_connect (snd r) =
    (if s_is_connected s then 0%nat
     else C.count (connectable K) (List.map snd hits)).
Proof.
  induction hits as [|[H disc] hits IH]; intros s.
  - cbn. now destruct (s_is_connected s).
  - cbn [List.map deliver fst snd].
    destruct (discovery_hit_step K H disc s) as (_ & Hs & _ & Hc).
    destruct (ble_central_gap_event K H (BLE_GAP_EVENT_DISC disc) s) as [[rc s1] t1].
    cbn [fst snd] in Hs, Hc. subst s1.
    destruct (IH s) as [Hs' Hc'].
    destruct (deliver K _ s) as [s2 t2]. cbn [fst snd] in *.
    split; [exact Hs'|].
    rewrite count_app, Hc, Hc', count_cons.
    destruct (s_is_connected s); destruct (connectable K disc); reflexivity.
Qed.

(** C3, as amended. A discovery hit never changes the connection
    state. It cancels discovery and then issues one connect attempt
    when the hit is connectable and the connected flag is clear, and
    makes no host call otherwise. Over a window of hits the state stays
    as it was; with the flag set no connect attempt is issued, and with
    the flag clear, as it is while an attempt is in flight, one is
    issued for every connectable hit. *)
Theorem C3_discovery_hit (s : state) :
  (forall (H : host) (disc : ble_gap_disc_desc),
     let r := ble_central_gap_event K H (BLE_GAP_EVENT_DISC disc) s in
     fst (fst r) = 0 /\
     snd (fst r) = s /\
     host_calls (snd r) =
       (if connectable K disc && negb (s_is_connected s)
        then [ble_gap_disc_cancel; ble_gap_connect (s_own_addr_type s) (addr disc) 10000]
        else []) /\
     C.count is_connect (snd r) =
       (if connectable K disc && negb (s_is_connected s) then 1%nat else 0%nat))
  /\
  (forall hits : list (host * ble_gap_disc_desc),
     let r := deliver K
                (List.map (fun hd => (fst hd, BLE_GAP_EVENT_DISC (snd hd))) hits) s in
     fst r = s /\
     C.count is_connect (snd r) =
       (if s_is_connected s then 0%nat
        else C.count (connectable K) (List.map snd hits))).
Proof.
  split.
  - intros H disc. apply discovery_hit_step.
  - intros hits. apply discovery_window.
Qed.

End CentralDiscoveryWindow.

(** With a connect attempt in flight a second connectable hit makes the
    handler ask for a connection again. *)
Lemma C3_second_hit_connects_again :
  ~ Spec.in_flight_hits_ignored NimBLE.nimble_headers.
Proof.
  intros Hclaim.
  pose (d := {| NimBLE.event_type := 0;
                NimBLE.addr := {| NimBLE.addr_type := 0;
                                  NimBLE.val := [x01; x02; x03; x04; x05; x06] |};
                NimBLE.rssi := -40;
                NimBLE.data := [] |}).
  destruct (Hclaim Central.host_all_ok Central.host_all_ok d d
              (Central.initial NimBLE.nimble_headers 0) eq_refl eq_refl eq_refl)
    as [_ Hnone].
  vm_compute in Hnone. discriminate Hnone.
Qed.

(** ** The connected flag and the stored handle *)

Section FlagInvariant.
Import NimBLE.
Variable K : constants.

Lemma peripheral_step_keeps_flag H event s :
  connect_handle_valid K event ->
  Peripheral.flag_implies_handle K s ->
  Peripheral.flag_implies_handle K
    (snd (fst (Peripheral.ble_peripheral_gap_event K H event s))).
Proof.
  unfold Peripheral.flag_implies_handle.
  destruct event as [status h | reason peer | | | disc | reason | type];
    cbn [Peripheral.ble_peripheral_gap_event connect_handle_valid fst snd];
    intros Hvalid Hinv; try exact Hinv.
  - destruct (Z.eqb_spec status 0) as [Hs | Hs];
      cbn [fst snd Peripheral.s_is_connected Peripheral.s_conn_handle].
    + intros _. now apply Hvalid.
    + discriminate.
  - cbn [Peripheral.s_is_connected]. discriminate.
Qed.

Lemma central_step_keeps_flag H event s :
  connect_handle_valid K event ->
  Central.flag_implies_handle K s ->
  Central.flag_implies_handle K
    (snd (fst (Central.ble_central_gap_event K H event s))).
Proof.
  unfold Central.flag_implies_handle.
  destruct event as [status h | reason peer | | | disc | reason | type];
    cbn [Central.ble_central_gap_event connect_handle_valid fst snd];
    intros Hvalid Hinv; try exact Hinv.
  - destruct (Z.eqb_spec status 0) as [Hs | Hs];
      cbn [fst snd Central.s_is_connected Central.s_conn_handle].
    + intros _. now apply Hvalid.
    + discriminate.
  - cbn [Central.s_is_connected]. discriminate.
Qed.

(** C9, as amended. In both BLE roles "the connected flag is set only
    with a stored handle other than the NONE sentinel" holds at
    start-up, is kept by the host-reset callback, and is kept by every
    GAP event whose successful connect outcome carries a handle other
    than the sentinel. *)
Theorem C9_flag_implies_handle :
  (forall t, Peripheral.flag_implies_handle K (Peripheral.initial K t)) /\
  (forall t, Central.flag_implies_handle K (Central.initial K t)) /\
  (forall H event s,
     connect_handle_valid K event ->
     Peripheral.flag_implies_handle K s ->
     Peripheral.flag_implies_handle K
       (snd (fst (Peripheral.ble_peripheral_gap_event K H event s)))) /\
  (forall H event s,
     connect_handle_valid K event ->
     Central.flag_implies_handle K s ->
     Central.flag_implies_handle K
       (snd (fst (Central.ble_central_gap_event K H event s)))) /\
  (forall reason s,
     Peripheral.flag_implies_handle K
       (fst (Peripheral.ble_peripheral_on_reset K reason s))) /\
  (forall reason s,
     Central.flag_implies_handle K
       (fst (Central.ble_central_on_reset K reason s))).
Proof.
  refine (conj _ (conj _ (conj peripheral_step_keeps_flag
           (conj central_step_keeps_flag (conj _ _)))));
    intros; intros Hflag; discriminate Hflag.
Qed.

End FlagInvariant.

Lemma C9_flag_implies_handle_witness :
  Central.flag_implies_handle NimBLE.nimble_headers
    (snd (fst (Central.ble_central_gap_event NimBLE.nimble_headers Central.host_all_ok
                 (NimBLE.BLE_GAP_EVENT_CONNECT 0 1)
                 (Central.initial NimBLE.nimble_headers 0)))).
Proof.
  destruct (C9_flag_implies_handle NimBLE.nimble_headers) as (_ & Hinit & _ & Hstep & _).
  apply Hstep.
  - simpl. intros _. discriminate.
  - apply Hinit.
Defined.

(** A successful connect event that carries the sentinel as its handle
    sets the flag and stores the sentinel. *)
Lemma C9_sentinel_handle_breaks_flag :
  ~ Spec.flag_invariant_kept NimBLE.nimble_headers.
Proof.
  intros (_ & Hinit & _ & Hstep & _).
  specialize (Hstep Central.host_all_ok (NimBLE.BLE_GAP_EVENT_CONNECT 0 65535)
                (Central.initial NimBLE.nimble_headers 0)
                (Hinit 0)).
  apply Hstep; reflexivity.
Qed.

(** ** The address codec *)

Section AddressCodec.

Lemma fmt_02X_byte (b : byte) : Printf.fmt_02X (Byte.to_N b) = Spec.hex_pair b.
Proof. destruct b; reflexivity. Qed.

Lemma vformat_address (n5 n4 n3 n2 n1 n0 : N) :
  Printf.vformat "%02X:%02X:%02X:%02X:%02X:%02X" [n5; n4; n3; n2; n1; n0] =
    (Printf.fmt_02X n5 ++ ":" ++ Printf.fmt_02X n4 ++ ":" ++ Printf.fmt_02X n3 ++ ":"
     ++ Printf.fmt_02X n2 ++ ":" ++ Printf.fmt_02X n1 ++ ":" ++ Printf.fmt_02X n0
     ++ "")%string.
Proof. reflexivity. Qed.

Lemma peripheral_codec (a0 a1 a2 a3 a4 a5 : byte) :
  Peripheral.addr_to_string [a0; a1; a2; a3; a4; a5] 18 =
    Some (Spec.display_form [a0; a1; a2; a3; a4; a5]).
Proof.
  unfold Peripheral.addr_to_string. cbn [nth_error List.map Printf.snprintf].
  rewrite vformat_address, !fmt_02X_byte. reflexivity.
Qed.

Lemma codecs_agree (addr : list byte) (str_len : nat) :
  Central.addr_to_string addr str_len = Peripheral.addr_to_string addr str_len.
Proof. reflexivity. Qed.

(** C7. For every 6-byte identifier both [addr_to_string] functions,
    called with the 18-byte buffer of their callers, yield the bytes in
    reverse order as two uppercase hexadecimal digits each, separated
    by colons; the two functions agree on every input; the bytes
    01 02 03 04 05 06 give "06:05:04:03:02:01" and the bytes
    11 22 33 44 55 66 give "66:55:44:33:22:11". *)
Theorem C7_address_display_form :
  (forall addr : list byte,
     List.length addr = 6%nat ->
     Peripheral.addr_to_string addr 18 = Some (Spec.display_form addr) /\
     Central.addr_to_string addr 18 = Some (Spec.display_form addr)) /\
  (forall (addr : list byte) (str_len : nat),
     Central.addr_to_string addr str_len = Peripheral.addr_to_string addr str_len) /\
  Peripheral.addr_to_string [x01; x02; x03; x04; x05; x06] 18 =
    Some "06:05:04:03:02:01"%string /\
  Central.addr_to_string [x01; x02; x03; x04; x05; x06] 18 =
    Some "06:05:04:03:02:01"%string /\
  Central.addr_to_string [x11; x22; x33; x44; x55; x66] 18 =
    Some "66:55:44:33:22:11"%string.
Proof.
  refine (conj _ (conj codecs_agree (conj eq_refl (conj eq_refl eq_refl)))).
  intros addr Hlen.
  destruct addr as [|a0 [|a1 [|a2 [|a3 [|a4 [|a5 [|a6 rest]]]]]]]; try discriminate Hlen.
  split.
  - apply peripheral_codec.
  - rewrite <- peripheral_codec. apply codecs_agree.
Qed.

End AddressCodec.

Lemma C7_address_display_form_witness :
  Peripheral.addr_to_string [xde; xad; xbe; xef; x00; x2a] 18 =
    Some "2A:00:EF:BE:AD:DE"%string.
Proof.
  destruct C7_address_display_form as (Hall & _).
  destruct (Hall [xde; xad; xbe; xef; x00; x2a] eq_refl) as [Hp _].
  rewrite Hp. reflexivity.
Defined.

(** ** Starting the request server *)

Section WebServerStart.
Import WebServer.
Variable K : constants.

Lemma start_when_running H h :
  web_server_start K H {| server := Some h |} =
    ({| server := Some h |}, [ESP_LOG C.ESP_LOG_INFO "HTTP server already running"]).
Proof. reflexivity. Qed.

Lemma starts_when_running hs : forall h,
  fst (starts K hs {| server := Some h |}) = {| server := Some h |} /\
  C.count is_httpd_start (snd (starts K hs {| server := Some h |})) = 0%nat /\
  C.count is_register (snd (starts K hs {| server := Some h |})) = 0%nat.
Proof.
  induction hs as [|H hs IH]; intros h; [repeat split|].
  cbn [starts]. rewrite start_when_running.
  destruct (IH h) as (Hs & Hc & Hr).
  destruct (starts K hs {| server := Some h |}) as [s2 t2].
  cbn [fst snd] in *. rewrite !count_app, Hc, Hr. repeat split. exact Hs.
Qed.

Lemma started_is_start l :
  (C.count (is_httpd_started K) l <= C.count is_httpd_start l)%nat.
Proof.
  induction l as [|a l IH]; [reflexivity|].
  rewrite !count_cons.
  destruct a; cbn [is_httpd_started is_httpd_start Nat.add]; try exact IH.
  destruct (rc =? ESP_OK K); cbn [Nat.add]; lia.
Qed.

Lemma starts_from_null hs :
  (C.count (is_httpd_started K) (snd (starts K hs initial)) <= 1)%nat /\
  (C.count is_register (snd (starts K hs initial)) <= 5)%nat.
Proof.
  induction hs as [|H hs IH]; [split; [apply Nat.le_0_l | apply Nat.le_0_l]|].
  cbn [starts]. unfold web_server_start. cbn [initial server].
  destruct (Z.eqb_spec (httpd_start_rc H) (ESP_OK K)) as [Hok | Hko]; cbn [negb].
  - destruct (starts_when_running hs (httpd_start_handle H)) as (_ & Hc & Hr).
    pose proof (started_is_start
                  (snd (starts K hs {| server := Some (httpd_start_handle H) |}))) as Hle.
    destruct (starts K hs {| server := Some (httpd_start_handle H) |}) as [s2 t2].
    cbn [fst snd] in *. rewrite !count_app, !count_cons, !count_nil, Hr.
    cbn [is_httpd_started is_register].
    rewrite Hok, Z.eqb_refl. cbn [Nat.add]. lia.
  - fold initial. destruct (starts K hs initial) as [s2 t2].
    cbn [fst snd] in *. rewrite !count_app, !count_cons, !count_nil.
    cbn [is_httpd_started is_register].
    apply Z.eqb_neq in Hko. rewrite Hko. cbn [Nat.add]. lia.
Qed.

(** C8. A call of [web_server_start] that finds the server running
    changes nothing and only logs; over any number of calls from
    start-up, whatever [httpd_start] answers, at most one [httpd_start]
    succeeds, and once it has no further [httpd_start] or handler
    registration is issued. *)
Theorem C8_web_server_start_idempotent :
  (forall H h,
     web_server_start K H {| server := Some h |} =
       ({| server := Some h |},
        [ESP_LOG C.ESP_LOG_INFO "HTTP server already running"])) /\
  (forall hs,
     (C.count (is_httpd_started K) (snd (starts K hs initial)) <= 1)%nat) /\
  (forall hs h,
     fst (starts K hs {| server := Some h |}) = {| server := Some h |} /\
     C.count is_httpd_start (snd (starts K hs {| server := Some h |})) = 0%nat /\
     C.count is_register (snd (starts K hs {| server := Some h |})) = 0%nat) /\
  (forall H,
     httpd_start_rc H = ESP_OK K ->
     server (fst (web_server_start K H initial)) = Some (httpd_start_handle H)).
Proof.
  refine (conj start_when_running (conj _ (conj starts_when_running _))).
  - intros hs. apply starts_from_null.
  - intros H Hok. unfold web_server_start. cbn [initial server].
    rewrite Hok, Z.eqb_refl. reflexivity.
Qed.

End WebServerStart.

Lemma C8_web_server_start_idempotent_witness :
  WebServer.server
    (fst (WebServer.web_server_start {| WebServer.ESP_OK := 0 |}
            {| WebServer.httpd_start_rc := 0; WebServer.httpd_start_handle := 7 |}
            WebServer.initial)) = Some 7%positive.
Proof.
  destruct (C8_web_server_start_idempotent {| WebServer.ESP_OK := 0 |}) as (_ & _ & _ & Hfirst).
  apply (Hfirst {| WebServer.httpd_start_rc := 0; WebServer.httpd_start_handle := 7 |}).
  reflexivity.
Defined.

(** ** Saving the stored string *)

Section CStrings.
Import CString.

Lemma length_strncpy_bytes n : forall src, List.length (strncpy_bytes src n) = n.
Proof.
  induction n as [|n IH]; intros src; [reflexivity|].
  destruct src as [|c rest]; cbn [strncpy_bytes].
  - cbn [List.length]. now rewrite IH.
  - destruct (is_nul c); cbn [List.length]; now rewrite IH.
Qed.

(** What reads back after [strncpy] of [n] bytes followed by a
    terminator: the source string cut to [n] characters. *)
Lemma cstr_strncpy_bytes n : forall src tail,
  cstr (strncpy_bytes src n ++ NUL :: tail) = firstn n (cstr src).
Proof.
  induction n as [|n IH]; intros src tail; [reflexivity|].
  destruct src as [|c rest]; cbn [strncpy_bytes]; [reflexivity|].
  cbn [cstr]. destruct (is_nul c) eqn:Hc.
  - reflexivity.
  - cbn [app cstr firstn]. rewrite Hc, IH. reflexivity.
Qed.

(** Writing [new] at the start of an array one byte longer and then
    storing [c] in the last cell. *)
Lemma array_set_after_write c : forall new dst,
  List.length dst = S (List.length new) ->
  array_set (List.length new) c (write_bytes new dst) = new ++ [c].
Proof.
  induction new as [|a new IH]; intros dst Hlen.
  - destruct dst as [|x [|y dst]]; try discriminate Hlen. reflexivity.
  - destruct dst as [|x dst]; [discriminate Hlen|].
    cbn [List.length write_bytes array_set app]. f_equal.
    apply IH. cbn [List.length] in Hlen. lia.
Qed.

End CStrings.

Section SaveString.
Import StorageManager.
Variables (K : constants) (H : host).

Lemma saved_buffer value buf :
  List.length buf = STRING_MAX_LEN ->
  CString.array_set (STRING_MAX_LEN - 1) CString.NUL
    (CString.strncpy buf value (STRING_MAX_LEN - 1)) =
    CString.strncpy_bytes value 63 ++ [CString.NUL].
Proof.
  intros Hlen. unfold CString.strncpy. change (STRING_MAX_LEN - 1)%nat with 63%nat.
  rewrite <- (length_strncpy_bytes 63 value) at 1.
  apply array_set_after_write. now rewrite length_strncpy_bytes.
Qed.

Lemma save_string_failed value s :
  all_ok K H = false ->
  fst (storage_manager_save_string K H value s) = s.
Proof.
  unfold all_ok, storage_manager_save_string.
  destruct (nvs_open_rc H =? ESP_OK K); [|reflexivity].
  destruct (nvs_set_str_rc H =? ESP_OK K); [|reflexivity].
  destruct (nvs_commit_rc H =? ESP_OK K); [discriminate|reflexivity].
Qed.

Lemma save_string_succeeded value s :
  all_ok K H = true ->
  storage_manager_save_string K H value s =
    ({| s_stored_string :=
          CString.array_set (STRING_MAX_LEN - 1) CString.NUL
            (CString.strncpy (s_stored_string s) value (STRING_MAX_LEN - 1)) |},
     [nvs_open NVS_READWRITE;
      nvs_set_str (CString.cstr value);
      nvs_commit;
      ESP_LOG C.ESP_LOG_INFO "String saved to NVS: '%s'";
      nvs_close]).
Proof.
  unfold all_ok, storage_manager_save_string. rewrite !andb_true_iff.
  intros [[-> ->] ->]. reflexivity.
Qed.

(** C10. [storage_manager_save_string] changes the RAM mirror only
    when open, set and commit all succeeded: if one of them fails the
    array that [storage_manager_get_string] returns is the one it was.
    When all succeed the mirror reads back as the value cut to at most
    63 characters, its last cell holds the terminator, the array keeps
    its 64 cells, and the commit was issued. *)
Theorem C10_save_string_atomic (value : list byte) (s : state) :
  List.length (s_stored_string s) = STRING_MAX_LEN ->
  let r := storage_manager_save_string K H value s in
  (all_ok K H = false ->
     storage_manager_get_string (fst r) = storage_manager_get_string s) /\
  (storage_manager_get_string (fst r) <> storage_manager_get_string s ->
     nvs_open_rc H = ESP_OK K /\ nvs_set_str_rc H = ESP_OK K /\
     nvs_commit_rc H = ESP_OK K) /\
  (all_ok K H = true ->
     CString.cstr (storage_manager_get_string (fst r)) =
       firstn 63 (CString.cstr value) /\
     (List.length (CString.cstr (storage_manager_get_string (fst r))) <= 63)%nat /\
     nth_error (storage_manager_get_string (fst r)) 63 = Some CString.NUL /\
     List.length (storage_manager_get_string (fst r)) = STRING_MAX_LEN /\
     C.count is_commit (snd r) = 1%nat).
Proof.
  intros Hlen r. subst r. refine (conj _ (conj _ _)).
  - intros Hfail. now rewrite save_string_failed.
  - intros Hchanged. destruct (all_ok K H) eqn:Hall.
    + unfold all_ok in Hall. rewrite !andb_true_iff, !Z.eqb_eq in Hall. tauto.
    + rewrite save_string_failed in Hchanged by assumption. contradiction.
  - intros Hall. rewrite save_string_succeeded by assumption.
    cbn [fst snd storage_manager_get_string s_stored_string].
    rewrite saved_buffer by assumption.
    refine (conj _ (conj _ (conj _ (conj _ eq_refl)))).
    + apply cstr_strncpy_bytes.
    + rewrite cstr_strncpy_bytes, length_firstn. lia.
    + rewrite nth_error_app2; rewrite length_strncpy_bytes; [reflexivity | lia].
    + rewrite length_app, length_strncpy_bytes. reflexivity.
Qed.

End SaveString.

Lemma C10_save_string_atomic_witness :
  CString.cstr
    (StorageManager.storage_manager_get_string
       (fst (StorageManager.storage_manager_save_string StorageManager.idf_headers
               StorageManager.host_all_ok [x68; x69; x00; x21] StorageManager.initial))) =
    [x68; x69].
Proof.
  destruct (C10_save_string_atomic StorageManager.idf_headers StorageManager.host_all_ok
              [x68; x69; x00; x21] StorageManager.initial eq_refl) as (_ & _ & Hok).
  destruct (Hok eq_refl) as (Hread & _).
  rewrite Hread. reflexivity.
Defined.

(** * Further properties of the code *)

(** ** The retry policy over whole runs *)

Section WiFiRuns.
Import WiFi.
Variable K : constants.

Lemma deliver_app evs1 : forall evs2 s,
  deliver K (evs1 ++ evs2) s =
    (fst (deliver K evs2 (fst (deliver K evs1 s))),
     snd (deliver K evs1 s) ++ snd (deliver K evs2 (fst (deliver K evs1 s)))).
Proof.
  induction evs1 as [|ev evs1 IH]; intros evs2 s.
  - cbn [app deliver fst snd]. now destruct (deliver K evs2 s).
  - cbn [app]. rewrite !deliver_cons, IH. cbn [fst snd].
    now rewrite app_assoc.
Qed.

(** Disconnect events once the budget is used up. *)
Lemma deliver_disconnects_exhausted (n : nat) : forall s,
  WIFI_EVENT_STA_START K <> WIFI_EVENT_STA_DISCONNECTED K ->
  ESP_MAXIMUM_RETRY K <= s_retry_num s ->
  s_retry_num (fst (deliver K (repeat (STA_DISCONNECTED K) n) s)) = s_retry_num s /\
  snd (deliver K (repeat (STA_DISCONNECTED K) n) s) =
    List.concat (repeat give_up_trace n).
Proof.
  induction n as [|n IH]; intros s Hne Hge; [split; reflexivity|].
  cbn [repeat]. rewrite deliver_cons, handler_disconnected by assumption.
  destruct (Z.ltb_spec (s_retry_num s) (ESP_MAXIMUM_RETRY K)); [lia|].
  cbn [fst snd].
  destruct (IH {| s_retry_num := s_retry_num s;
                  s_wifi_event_group := Z.lor (s_wifi_event_group s) WIFI_FAIL_BIT |}
              Hne Hge) as [Hr Ht].
  rewrite Hr, Ht. split; reflexivity.
Qed.

Lemma handler_keeps_counter_in_budget ev s :
  0 <= ESP_MAXIMUM_RETRY K <= C.INT_MAX ->
  0 <= s_retry_num s <= ESP_MAXIMUM_RETRY K ->
  0 <= s_retry_num (fst (wifi_event_handler K ev s)) <= ESP_MAXIMUM_RETRY K.
Proof.
  intros Hmax Hs. unfold wifi_event_handler.
  destruct (base_eqb (event_base ev) WIFI_EVENT && (event_id ev =? WIFI_EVENT_STA_START K));
    [exact Hs|].
  destruct (base_eqb (event_base ev) WIFI_EVENT
            && (event_id ev =? WIFI_EVENT_STA_DISCONNECTED K)).
  { destruct (Z.ltb_spec (s_retry_num s) (ESP_MAXIMUM_RETRY K)); cbn [fst s_retry_num].
    - rewrite int_wrap_id; [lia|]. unfold C.is_int, C.INT_MIN, C.INT_MAX in *. lia.
    - exact Hs. }
  destruct (base_eqb (event_base ev) IP_EVENT && (event_id ev =? IP_EVENT_STA_GOT_IP K));
    cbn [fst s_retry_num]; lia.
Qed.

(** X1. Whatever events arrive, in whatever order, the retry counter
    stays between 0 and the budget once it is there (the budget being a
    non-negative [int]). *)
Theorem X1_retry_counter_stays_in_budget (evs : list esp_event) (s : state) :
  0 <= ESP_MAXIMUM_RETRY K <= C.INT_MAX ->
  0 <= s_retry_num s <= ESP_MAXIMUM_RETRY K ->
  0 <= s_retry_num (fst (deliver K evs s)) <= ESP_MAXIMUM_RETRY K.
Proof.
  intros Hmax. revert s.
  induction evs as [|ev evs IH]; intros s Hs; [exact Hs|].
  rewrite deliver_cons. cbn [fst]. apply IH.
  now apply handler_keeps_counter_in_budget.
Qed.

(** X2. A run of [n] disconnect events from a counter of 0, however
    long: the counter ends at [min n max], a connect was reissued
    [min n max] times, and every disconnect beyond the budget fired Fail
    again without reconnecting, [n - min n max] times in all. *)
Theorem X2_disconnect_run (n : nat) (s : state) :
  WIFI_EVENT_STA_START K <> WIFI_EVENT_STA_DISCONNECTED K ->
  0 <= ESP_MAXIMUM_RETRY K <= C.INT_MAX ->
  s_retry_num s = 0 ->
  let r := deliver K (repeat (STA_DISCONNECTED K) n) s in
  let m := Z.to_nat (Z.min (Z.of_nat n) (ESP_MAXIMUM_RETRY K)) in
  s_retry_num (fst r) = Z.min (Z.of_nat n) (ESP_MAXIMUM_RETRY K) /\
  C.count is_connect (snd r) = m /\
  C.count (is_set_bits WIFI_FAIL_BIT) (snd r) = (n - m)%nat.
Proof.
  intros Hne Hmax H0 r m. subst r m.
  destruct (Z.le_gt_cases (Z.of_nat n) (ESP_MAXIMUM_RETRY K)) as [Hle | Hgt].
  - assert (Hlo : C.INT_MIN <= s_retry_num s)
      by (rewrite H0; unfold C.INT_MIN; lia).
    rewrite deliver_disconnects by (assumption || lia).
    cbn [fst snd s_retry_num]. rewrite !count_concat_repeat.
    change (C.count is_connect retry_trace) with 1%nat.
    change (C.count (is_set_bits WIFI_FAIL_BIT) retry_trace) with 0%nat.
    rewrite Z.min_l by lia. rewrite H0. repeat split; lia.
  - rewrite Z.min_r by lia.
    remember (Z.to_nat (ESP_MAXIMUM_RETRY K)) as a eqn:Ha.
    replace n with (a + (n - a))%nat at 1 2 3 by lia.
    assert (Hlo : C.INT_MIN <= s_retry_num s)
      by (rewrite H0; unfold C.INT_MIN; lia).
    rewrite repeat_app, deliver_app.
    rewrite (deliver_disconnects K a s) by (assumption || lia).
    cbn [fst snd].
    destruct (deliver_disconnects_exhausted (n - a)
                {| s_retry_num := s_retry_num s + Z.of_nat a;
                   s_wifi_event_group := s_wifi_event_group s |} Hne) as [Hr Ht].
    { cbn [s_retry_num]. lia. }
    rewrite Hr, Ht. cbn [s_retry_num].
    rewrite !count_app, !count_concat_repeat.
    change (C.count is_connect retry_trace) with 1%nat.
    change (C.count (is_set_bits WIFI_FAIL_BIT) retry_trace) with 0%nat.
    change (C.count is_connect give_up_trace) with 0%nat.
    change (C.count (is_set_bits WIFI_FAIL_BIT) give_up_trace) with 1%nat.
    repeat split; lia.
Qed.

Lemma handler_keeps_bits ev s i :
  Z.testbit (s_wifi_event_group s) i = true ->
  Z.testbit (s_wifi_event_group (fst (wifi_event_handler K ev s))) i = true.
Proof.
  intros Hi.
  destruct (handler_cases K ev s) as [(Hg & _) | [(Hg & _) | (Hg & _)]];
    rewrite Hg; [exact Hi | |]; rewrite Z.lor_spec, Hi; reflexivity.
Qed.

(** X3. The handler never clears a bit of the event group: a signal
    that has been raised, Connected or Fail, stays raised whatever
    events follow. *)
Theorem X3_signals_stay_raised (evs : list esp_event) (s : state) (i : Z) :
  Z.testbit (s_wifi_event_group s) i = true ->
  Z.testbit (s_wifi_event_group (fst (deliver K evs s))) i = true.
Proof.
  revert s. induction evs as [|ev evs IH]; intros s Hi; [exact Hi|].
  rewrite deliver_cons. cbn [fst]. apply IH. now apply handler_keeps_bits.
Qed.

End WiFiRuns.

Lemma X1_retry_counter_stays_in_budget_witness :
  0 <= WiFi.s_retry_num
         (fst (WiFi.deliver WiFi.idf5_budget3
                 [WiFi.STA_DISCONNECTED WiFi.idf5_budget3;
                  WiFi.STA_GOT_IP WiFi.idf5_budget3;
                  WiFi.STA_DISCONNECTED WiFi.idf5_budget3] WiFi.initial)) <= 3.
Proof.
  apply (X1_retry_counter_stays_in_budget WiFi.idf5_budget3).
  - unfold C.INT_MAX. simpl. lia.
  - simpl. lia.
Defined.

Lemma X2_disconnect_run_witness :
  C.count (WiFi.is_set_bits WiFi.WIFI_FAIL_BIT)
    (snd (WiFi.deliver WiFi.idf5_budget3
            (repeat (WiFi.STA_DISCONNECTED WiFi.idf5_budget3) 5) WiFi.initial)) = 2%nat.
Proof.
  destruct (X2_disconnect_run WiFi.idf5_budget3 5 WiFi.initial) as (_ & _ & Hf).
  - simpl. lia.
  - unfold C.INT_MAX. simpl. lia.
  - reflexivity.
  - exact Hf.
Defined.

Lemma X3_signals_stay_raised_witness :
  Z.testbit
    (WiFi.s_wifi_event_group
       (fst (WiFi.deliver WiFi.idf5_budget3
               [WiFi.STA_DISCONNECTED WiFi.idf5_budget3]
               {| WiFi.s_retry_num := 0; WiFi.s_wifi_event_group := 1 |}))) 0 = true.
Proof.
  apply (X3_signals_stay_raised WiFi.idf5_budget3). reflexivity.
Defined.

(** ** The supervisor's call, scenario by scenario *)

Section SupervisorRuns.
Import WiFi.
Variable K : constants.

(** Waiting through disconnect events that stay within the budget. *)
Lemma wait_disconnects (n : nat) : forall rest s tr,
  WIFI_EVENT_STA_START K <> WIFI_EVENT_STA_DISCONNECTED K ->
  ESP_MAXIMUM_RETRY K <= C.INT_MAX ->
  C.INT_MIN <= s_retry_num s ->
  s_retry_num s + Z.of_nat n <= ESP_MAXIMUM_RETRY K ->
  Z.land (s_wifi_event_group s) terminal_bits = 0 ->
  xEventGroupWaitBits K terminal_bits (repeat (STA_DISCONNECTED K) n ++ rest) s tr =
    xEventGroupWaitBits K terminal_bits rest
      {| s_retry_num := s_retry_num s + Z.of_nat n;
         s_wifi_event_group := s_wifi_event_group s |}
      (tr ++ List.concat (repeat retry_trace n)).
Proof.
  induction n as [|n IH]; intros rest s tr Hne Hmax Hlo Hle Hb.
  - cbn [repeat app List.concat]. rewrite Z.add_0_r, app_nil_r. now destruct s.
  - cbn [repeat app List.concat]. rewrite wait_step by assumption.
    rewrite handler_disconnected by assumption.
    destruct (Z.ltb_spec (s_retry_num s) (ESP_MAXIMUM_RETRY K)); [|lia].
    cbn [fst snd]. rewrite int_wrap_id by (unfold C.is_int; lia).
    rewrite IH; cbn [s_retry_num s_wifi_event_group]; try assumption; try lia.
    rewrite <- app_assoc.
    replace (s_retry_num s + 1 + Z.of_nat n) with (s_retry_num s + Z.of_nat (S n)) by lia.
    reflexivity.
Qed.

(** X4. When one of the bring-up calls under [ESP_ERROR_CHECK] fails,
    [wifi_manager_start] aborts at the first call that fails: the
    calls made are the bring-up sequence up to and including a call
    whose return code is not [ESP_OK], every checked call before it
    returned [ESP_OK], and the rest of the sequence is not run, so it
    never reaches the wait and no event is handled. *)
Theorem X4_bringup_failure_aborts (rc : bringup) (evs : list esp_event) (s : state) :
  bringup_ok K rc = false ->
  exists tr failing rest c,
    wifi_manager_start K rc evs s = Aborted (tr ++ [failing]) /\
    bringup_trace K = tr ++ failing :: rest /\
    checked_rc rc failing = Some c /\
    c <> ESP_OK K /\
    Forall (fun a => forall c', checked_rc rc a = Some c' -> c' = ESP_OK K) tr /\
    rest <> [].
Proof.
  unfold bringup_ok, wifi_manager_start, ESP_ERROR_CHECK. intros Hko.
  repeat match goal with
         | |- context [if ?x =? ESP_OK K then _ else _] =>
             let E := fresh "E" in
             destruct (x =? ESP_OK K) eqn:E;
             [apply Z.eqb_eq in E
             |apply Z.eqb_neq in E;
              eexists _, _, _, _;
              refine (conj eq_refl (conj eq_refl (conj eq_refl (conj E (conj _ _)))));
              [cbn [app];
               repeat (apply Forall_cons;
                       [intros c' Hc'; cbn [checked_rc] in Hc';
                        first [discriminate Hc'
                              | injection Hc' as <-; assumption]|]);
               apply Forall_nil
              |discriminate]]
         end.
  discriminate Hko.
Qed.

(** X5. While the retries last the call does not return: with a
    bring-up that succeeds, a counter of 0 and a stream of [n]
    disconnect events, [n] within the budget, the caller stays blocked;
    the counter is [n], the event group is empty and the calls made are
    the bring-up sequence followed by [n] retries. *)
Theorem X5_blocked_during_retries (rc : bringup) (n : nat) (s : state) :
  WIFI_EVENT_STA_START K <> WIFI_EVENT_STA_DISCONNECTED K ->
  ESP_MAXIMUM_RETRY K <= C.INT_MAX ->
  bringup_ok K rc = true ->
  s_retry_num s = 0 ->
  Z.of_nat n <= ESP_MAXIMUM_RETRY K ->
  wifi_manager_start K rc (repeat (STA_DISCONNECTED K) n) s =
    Blocked {| s_retry_num := Z.of_nat n; s_wifi_event_group := 0 |}
      (bringup_trace K ++ List.concat (repeat retry_trace n)).
Proof.
  intros Hne Hmax Hok H0 Hn. rewrite start_after_bringup by assumption.
  rewrite <- (app_nil_r (repeat (STA_DISCONNECTED K) n)).
  rewrite wait_disconnects; cbn [s_retry_num s_wifi_event_group];
    try assumption; try reflexivity; rewrite ?H0; try lia;
    [|unfold C.INT_MIN; lia].
  reflexivity.
Qed.

(** X6. The budget runs out: with a bring-up that succeeds and a
    counter of 0, once [max + 1] disconnect events have arrived the call
    returns with the Fail bit alone; the counter is [max], [max]
    connects were reissued, and neither the LED nor the request server
    was touched. Events after that are not waited for. *)
Theorem X6_returns_fail_when_budget_exhausted (rc : bringup)
    (rest : list esp_event) (s : state) :
  WIFI_EVENT_STA_START K <> WIFI_EVENT_STA_DISCONNECTED K ->
  0 <= ESP_MAXIMUM_RETRY K <= C.INT_MAX ->
  bringup_ok K rc = true ->
  s_retry_num s = 0 ->
  let m := Z.to_nat (ESP_MAXIMUM_RETRY K) in
  let tr := bringup_trace K ++ List.concat (repeat retry_trace m) ++ give_up_trace
            ++ [ESP_LOG C.ESP_LOG_WARN "Failed to connect to SSID:%s, PASSWORD:%s"] in
  wifi_manager_start K rc (repeat (STA_DISCONNECTED K) (S m) ++ rest) s =
    Returned WIFI_FAIL_BIT
      {| s_retry_num := ESP_MAXIMUM_RETRY K; s_wifi_event_group := WIFI_FAIL_BIT |} tr /\
  C.count is_connect tr = m /\
  C.count is_led_set tr = 0%nat /\
  C.count is_web_server_start tr = 0%nat.
Proof.
  intros Hne Hmax Hok H0 m tr. subst tr. split.
  - rewrite start_after_bringup by assumption.
    replace (S m) with (m + 1)%nat by lia.
    rewrite repeat_app, <- app_assoc.
    rewrite wait_disconnects; cbn [s_retry_num s_wifi_event_group];
      try assumption; try reflexivity; try lia; [|unfold C.INT_MIN; lia].
    cbn [repeat app]. rewrite wait_step by reflexivity.
    rewrite handler_disconnected by assumption. cbn [s_retry_num]. rewrite H0.
    destruct (Z.ltb_spec (0 + Z.of_nat m) (ESP_MAXIMUM_RETRY K)); [lia|].
    cbn [fst snd s_wifi_event_group].
    rewrite wait_terminal by (cbn; discriminate).
    replace (0 + Z.of_nat m) with (ESP_MAXIMUM_RETRY K) by lia.
    cbn. rewrite <- !app_assoc. reflexivity.
  - rewrite !count_app, !count_concat_repeat. repeat split; cbn; lia.
Qed.

(** X7. Success within the budget: with a bring-up that succeeds and a
    counter of 0, a stream of [j] disconnect events, [j] within the
    budget, followed by a got-IP event makes the call return with the
    Connected bit alone; the counter is back at 0, [j] connects were
    reissued, and the LED and the request server were each called
    once. *)
Theorem X7_returns_connected_after_retries (rc : bringup) (j : nat)
    (rest : list esp_event) (s : state) :
  WIFI_EVENT_STA_START K <> WIFI_EVENT_STA_DISCONNECTED K ->
  ESP_MAXIMUM_RETRY K <= C.INT_MAX ->
  bringup_ok K rc = true ->
  s_retry_num s = 0 ->
  Z.of_nat j <= ESP_MAXIMUM_RETRY K ->
  let tr := bringup_trace K ++ List.concat (repeat retry_trace j) ++ got_ip_trace
            ++ [ESP_LOG C.ESP_LOG_INFO "Connected to AP. SSID:%s PASSWORD:%s"] in
  wifi_manager_start K rc (repeat (STA_DISCONNECTED K) j ++ STA_GOT_IP K :: rest) s =
    Returned WIFI_CONNECTED_BIT
      {| s_retry_num := 0; s_wifi_event_group := WIFI_CONNECTED_BIT |} tr /\
  C.count is_connect tr = j /\
  C.count is_led_on tr = 1%nat /\
  C.count is_web_server_start tr = 1%nat.
Proof.
  intros Hne Hmax Hok H0 Hj tr. subst tr. split.
  - rewrite start_after_bringup by assumption.
    rewrite wait_disconnects; cbn [s_retry_num s_wifi_event_group];
      try assumption; try reflexivity; rewrite ?H0; try lia; [|unfold C.INT_MIN; lia].
    rewrite wait_step by reflexivity. rewrite handler_got_ip.
    cbn [fst snd s_wifi_event_group].
    rewrite wait_terminal by (cbn; discriminate).
    cbn. rewrite <- !app_assoc. reflexivity.
  - rewrite !count_app, !count_concat_repeat. repeat split; cbn; lia.
Qed.

End SupervisorRuns.

Lemma X4_bringup_failure_aborts_witness :
  WiFi.wifi_manager_start WiFi.idf5_budget3
    {| WiFi.esp_netif_init_rc := 0;
       WiFi.esp_event_loop_create_default_rc := 0;
       WiFi.esp_wifi_init_rc := 257;
       WiFi.register_any_id_rc := 0;
       WiFi.register_got_ip_rc := 0;
       WiFi.esp_wifi_set_mode_rc := 0;
       WiFi.esp_wifi_set_config_rc := 258;
       WiFi.esp_wifi_start_rc := 0 |}
    [WiFi.STA_GOT_IP WiFi.idf5_budget3] WiFi.initial =
    WiFi.Aborted [WiFi.esp_netif_init; WiFi.esp_event_loop_create_default;
                  WiFi.esp_netif_create_default_wifi_sta; WiFi.esp_wifi_init].
Proof.
  destruct (X4_bringup_failure_aborts WiFi.idf5_budget3
              {| WiFi.esp_netif_init_rc := 0;
                 WiFi.esp_event_loop_create_default_rc := 0;
                 WiFi.esp_wifi_init_rc := 257;
                 WiFi.register_any_id_rc := 0;
                 WiFi.register_got_ip_rc := 0;
                 WiFi.esp_wifi_set_mode_rc := 0;
                 WiFi.esp_wifi_set_config_rc := 258;
                 WiFi.esp_wifi_start_rc := 0 |}
              [WiFi.STA_GOT_IP WiFi.idf5_budget3] WiFi.initial eq_refl)
    as (tr & failing & rest & c & Hrun & _).
  pose proof Hrun as Hl. simpl in Hl. injection Hl as Hl.
  change [WiFi.esp_netif_init; WiFi.esp_event_loop_create_default;
          WiFi.esp_netif_create_default_wifi_sta; WiFi.esp_wifi_init]
    with ([WiFi.esp_netif_init; WiFi.esp_event_loop_create_default;
           WiFi.esp_netif_create_default_wifi_sta] ++ [WiFi.esp_wifi_init]) in Hl.
  apply app_inj_tail in Hl. destruct Hl as [<- <-]. exact Hrun.
Defined.

Lemma X5_blocked_during_retries_witness :
  WiFi.wifi_manager_start WiFi.idf5_budget3 WiFi.bringup_all_ok
    (repeat (WiFi.STA_DISCONNECTED WiFi.idf5_budget3) 3) WiFi.initial =
    WiFi.Blocked {| WiFi.s_retry_num := 3; WiFi.s_wifi_event_group := 0 |}
      (WiFi.bringup_trace WiFi.idf5_budget3 ++ List.concat (repeat WiFi.retry_trace 3)).
Proof.
  apply (X5_blocked_during_retries WiFi.idf5_budget3 WiFi.bringup_all_ok 3 WiFi.initial).
  - simpl. lia.
  - unfold C.INT_MAX. simpl. lia.
  - reflexivity.
  - reflexivity.
  - simpl. lia.
Defined.

Lemma X6_returns_fail_when_budget_exhausted_witness :
  C.count WiFi.is_web_server_start
    (WiFi.bringup_trace WiFi.idf5_budget3 ++ List.concat (repeat WiFi.retry_trace 3)
       ++ WiFi.give_up_trace
       ++ [WiFi.ESP_LOG C.ESP_LOG_WARN "Failed to connect to SSID:%s, PASSWORD:%s"]) = 0%nat.
Proof.
  destruct (X6_returns_fail_when_budget_exhausted WiFi.idf5_budget3 WiFi.bringup_all_ok
              [] WiFi.initial) as (_ & _ & _ & Hweb).
  - simpl. lia.
  - unfold C.INT_MAX. simpl. lia.
  - reflexivity.
  - reflexivity.
  - exact Hweb.
Defined.

Lemma X7_returns_connected_after_retries_witness :
  WiFi.wifi_manager_start WiFi.idf5_budget3 WiFi.bringup_all_ok
    (repeat (WiFi.STA_DISCONNECTED WiFi.idf5_budget3) 2
       ++ WiFi.STA_GOT_IP WiFi.idf5_budget3 :: []) WiFi.initial =
    WiFi.Returned WiFi.WIFI_CONNECTED_BIT
      {| WiFi.s_retry_num := 0; WiFi.s_wifi_event_group := WiFi.WIFI_CONNECTED_BIT |}
      (WiFi.bringup_trace WiFi.idf5_budget3 ++ List.concat (repeat WiFi.retry_trace 2)
         ++ WiFi.got_ip_trace
         ++ [WiFi.ESP_LOG C.ESP_LOG_INFO "Connected to AP. SSID:%s PASSWORD:%s"]).
Proof.
  destruct (X7_returns_connected_after_retries WiFi.idf5_budget3 WiFi.bringup_all_ok 2
              [] WiFi.initial) as (Hret & _).
  - simpl. lia.
  - unfold C.INT_MAX. simpl. lia.
  - reflexivity.
  - reflexivity.
  - simpl. lia.
  - exact Hret.
Defined.

(** ** The BLE roles beyond the event handler *)

Section BleReachable.
Import NimBLE.
Variable K : constants.

Lemma peripheral_run_keeps_flag inputs : forall s,
  Forall (Peripheral.input_valid K) inputs ->
  Peripheral.flag_implies_handle K s ->
  Peripheral.flag_implies_handle K (fst (Peripheral.run K inputs s)).
Proof.
  induction inputs as [|i inputs IH]; intros s Hall Hinv; [exact Hinv|].
  inversion Hall as [|? ? Hi Hrest]; subst.
  cbn [Peripheral.run].
  destruct (Peripheral.step K i s) as [s1 t1] eqn:Hstep.
  specialize (IH s1 Hrest).
  destruct (Peripheral.run K inputs s1) as [s2 t2]. cbn [fst] in *.
  apply IH. replace s1 with (fst (Peripheral.step K i s)) by now rewrite Hstep.
  destruct i as [H event | reason]; cbn [Peripheral.step fst].
  - now apply peripheral_step_keeps_flag.
  - intros Hflag. discriminate Hflag.
Qed.

Lemma central_run_keeps_flag inputs : forall s,
  Forall (Central.input_valid K) inputs ->
  Central.flag_implies_handle K s ->
  Central.flag_implies_handle K (fst (Central.run K inputs s)).
Proof.
  induction inputs as [|i inputs IH]; intros s Hall Hinv; [exact Hinv|].
  inversion Hall as [|? ? Hi Hrest]; subst.
  cbn [Central.run].
  destruct (Central.step K i s) as [s1 t1] eqn:Hstep.
  specialize (IH s1 Hrest).
  destruct (Central.run K inputs s1) as [s2 t2]. cbn [fst] in *.
  apply IH. replace s1 with (fst (Central.step K i s)) by now rewrite Hstep.
  destruct i as [H event | reason]; cbn [Central.step fst].
  - now apply central_step_keeps_flag.
  - intros Hflag. discriminate Hflag.
Qed.

Lemma peripheral_disconnect_cases rc s :
  Peripheral.flag_implies_handle K s ->
  let r := Peripheral.ble_peripheral_disconnect K rc s in
  (Peripheral.s_is_connected s = true ->
     fst r = rc /\
     Peripheral.host_calls (snd r) =
       [Peripheral.ble_gap_terminate (Peripheral.s_conn_handle s)
          (BLE_ERR_REM_USER_CONN_TERM K)]) /\
  (Peripheral.s_is_connected s = false ->
     r = (-1, [Peripheral.ESP_LOG C.ESP_LOG_WARN "Not connected"])).
Proof.
  intros Hinv r. subst r. unfold Peripheral.ble_peripheral_disconnect. split.
  - intros Hc. specialize (Hinv Hc). apply Z.eqb_neq in Hinv.
    rewrite Hc, Hinv. cbn [negb orb].
    destruct (Z.eqb_spec rc 0) as [-> | Hrc]; cbn [negb fst snd]; split; reflexivity.
  - intros Hc. rewrite Hc. reflexivity.
Qed.

Lemma central_disconnect_cases rc s :
  Central.flag_implies_handle K s ->
  let r := Central.ble_central_disconnect K rc s in
  (Central.s_is_connected s = true ->
     fst r = rc /\
     Central.host_calls (snd r) =
       [Central.ble_gap_terminate (Central.s_conn_handle s)
          (BLE_ERR_REM_USER_CONN_TERM K)]) /\
  (Central.s_is_connected s = false ->
     r = (-1, [Central.ESP_LOG C.ESP_LOG_WARN "Not connected"])).
Proof.
  intros Hinv r. subst r. unfold Central.ble_central_disconnect. split.
  - intros Hc. specialize (Hinv Hc). apply Z.eqb_neq in Hinv.
    rewrite Hc, Hinv. cbn [negb orb].
    destruct (Z.eqb_spec rc 0) as [-> | Hrc]; cbn [negb fst snd]; split; reflexivity.
  - intros Hc. rewrite Hc. reflexivity.
Qed.

(** X8. In every state a role reaches from start-up through GAP events
    (connect successes carrying a real handle) and host resets, the
    public disconnect call asks the host to terminate the stored
    connection, once and with reason "remote user terminated", exactly
    when the role reports itself connected, and then returns what the
    host returned; when not connected it returns -1 and makes no host
    call. Both roles. *)
Theorem X8_disconnect_matches_connected_flag (rc t : Z) :
  (forall inputs,
     Forall (Peripheral.input_valid K) inputs ->
     let s := fst (Peripheral.run K inputs (Peripheral.initial K t)) in
     let r := Peripheral.ble_peripheral_disconnect K rc s in
     (Peripheral.ble_peripheral_is_connected s = true ->
        fst r = rc /\
        Peripheral.host_calls (snd r) =
          [Peripheral.ble_gap_terminate (Peripheral.s_conn_handle s)
             (BLE_ERR_REM_USER_CONN_TERM K)]) /\
     (Peripheral.ble_peripheral_is_connected s = false ->
        r = (-1, [Peripheral.ESP_LOG C.ESP_LOG_WARN "Not connected"])))
  /\
  (forall inputs,
     Forall (Central.input_valid K) inputs ->
     let s := fst (Central.run K inputs (Central.initial K t)) in
     let r := Central.ble_central_disconnect K rc s in
     (Central.ble_central_is_connected s = true ->
        fst r = rc /\
        Central.host_calls (snd r) =
          [Central.ble_gap_terminate (Central.s_conn_handle s)
             (BLE_ERR_REM_USER_CONN_TERM K)]) /\
     (Central.ble_central_is_connected s = false ->
        r = (-1, [Central.ESP_LOG C.ESP_LOG_WARN "Not connected"]))).
Proof.
  split; intros inputs Hall s r; subst s r.
  - apply peripheral_disconnect_cases, peripheral_run_keeps_flag; [exact Hall|].
    intros Hflag. discriminate Hflag.
  - apply central_disconnect_cases, central_run_keeps_flag; [exact Hall|].
    intros Hflag. discriminate Hflag.
Qed.

End BleReachable.

Lemma X8_disconnect_matches_connected_flag_witness :
  Central.host_calls
    (snd (Central.ble_central_disconnect NimBLE.nimble_headers 0
            (fst (Central.run NimBLE.nimble_headers
                    [Central.on_gap_event Central.host_all_ok
                       (NimBLE.BLE_GAP_EVENT_CONNECT 0 3)]
                    (Central.initial NimBLE.nimble_headers 0))))) =
    [Central.ble_gap_terminate 3 19].
Proof.
  destruct (X8_disconnect_matches_connected_flag NimBLE.nimble_headers 0 0) as [_ Hc].
  destruct (Hc [Central.on_gap_event Central.host_all_ok
                  (NimBLE.BLE_GAP_EVENT_CONNECT 0 3)]) as [Hconn _].
  - constructor; [|constructor]. simpl. intros _. discriminate.
  - destruct (Hconn eq_refl) as [_ Hcalls]. exact Hcalls.
Defined.

Section BleDiscovery.
Import NimBLE.
Variable K : constants.

Lemma start_scan_calls H s :
  Central.host_calls (snd (Central.ble_central_start_scan H s)) =
    [Central.ble_gap_disc (Central.s_own_addr_type s) 30000].
Proof.
  unfold Central.ble_central_start_scan.
  destruct (negb (Central.ble_gap_disc_rc H =? 0)); reflexivity.
Qed.

Lemma central_count_host_calls (p : Central.action -> bool) tr :
  (forall lvl fmt, p (Central.ESP_LOG lvl fmt) = false) ->
  C.count p tr = C.count p (Central.host_calls tr).
Proof. apply count_host_calls. Qed.

Lemma peripheral_count_host_calls (p : Peripheral.action -> bool) tr :
  (forall lvl fmt, p (Peripheral.ESP_LOG lvl fmt) = false) ->
  C.count p tr = C.count p (Peripheral.host_calls tr).
Proof.
  intros Hp. induction tr as [|a tr IH]; [reflexivity|].
  unfold Peripheral.host_calls. cbn [filter].
  destruct a; cbn [Peripheral.is_host_call]; rewrite ?count_cons, ?Hp; cbn [Nat.add];
    fold (Peripheral.host_calls tr); rewrite <- IH; reflexivity.
Qed.

(** The host calls of one step of the central's handler. *)
Lemma central_step_calls H event s :
  Central.host_calls (snd (Central.ble_central_gap_event K H event s)) =
    match event with
    | BLE_GAP_EVENT_DISC disc =>
        if Central.connectable K disc && negb (Central.s_is_connected s)
        then [Central.ble_gap_disc_cancel;
              Central.ble_gap_connect (Central.s_own_addr_type s) (addr disc) 10000]
        else []
    | BLE_GAP_EVENT_CONNECT status conn_handle =>
        if status =? 0 then [Central.ble_gap_conn_find conn_handle]
        else [Central.ble_gap_disc (Central.s_own_addr_type s) 30000]
    | BLE_GAP_EVENT_DISCONNECT _ _ =>
        [Central.ble_gap_disc (Central.s_own_addr_type s) 30000]
    | BLE_GAP_EVENT_DISC_COMPLETE _ =>
        if Central.s_is_connected s then []
        else [Central.ble_gap_disc (Central.s_own_addr_type s) 30000]
    | _ => []
    end.
Proof.
  destruct event as [status h | reason peer | | | disc | reason | type];
    try reflexivity.
  - cbn [Central.ble_central_gap_event]. destruct (status =? 0); cbn [snd].
    + unfold Central.host_calls. cbn [filter Central.is_host_call].
      destruct (Central.ble_gap_conn_find_rc H =? 0); reflexivity.
    + unfold Central.host_calls. cbn [app filter Central.is_host_call].
      apply (start_scan_calls H
               {| Central.s_conn_handle := Central.s_conn_handle s;
                  Central.s_is_connected := false;
                  Central.s_own_addr_type := Central.s_own_addr_type s |}).
  - cbn [Central.ble_central_gap_event snd]. unfold Central.host_calls.
    cbn [app filter Central.is_host_call].
    apply (start_scan_calls H
             {| Central.s_conn_handle := BLE_HS_CONN_HANDLE_NONE K;
                Central.s_is_connected := false;
                Central.s_own_addr_type := Central.s_own_addr_type s |}).
  - apply (discovery_hit_step K H disc s).
  - cbn [Central.ble_central_gap_event snd]. unfold Central.host_calls.
    cbn [filter Central.is_host_call].
    destruct (Central.s_is_connected s); cbn [negb filter Central.is_host_call];
      [reflexivity|apply start_scan_calls].
Qed.

(** The host calls of one step of the peripheral's handler. *)
Lemma peripheral_step_calls H event s :
  Peripheral.host_calls (snd (Peripheral.ble_peripheral_gap_event K H event s)) =
    match event with
    | BLE_GAP_EVENT_CONNECT status conn_handle =>
        if status =? 0 then [Peripheral.ble_gap_conn_find conn_handle]
        else Peripheral.host_calls (snd (Peripheral.start_advertising H s))
    | BLE_GAP_EVENT_DISCONNECT _ _ =>
        Peripheral.host_calls (snd (Peripheral.start_advertising H s))
    | BLE_GAP_EVENT_ADV_COMPLETE =>
        if Peripheral.s_is_connected s then []
        else Peripheral.host_calls (snd (Peripheral.start_advertising H s))
    | _ => []
    end.
Proof.
  destruct event as [status h | reason peer | | | disc | reason | type];
    cbn [Peripheral.ble_peripheral_gap_event];
    unfold Peripheral.host_calls, Peripheral.start_advertising;
    cbn [Peripheral.s_own_addr_type];
    repeat match goal with
           | |- context [Z.eqb ?a ?b] => destruct (Z.eqb a b)
           end;
    try destruct (Peripheral.s_is_connected s);
    reflexivity.
Qed.

End BleDiscovery.

Section BleDiscoveryProperties.
Import NimBLE.
Variable K : constants.

Lemma count_single_false {A : Type} (p : A -> bool) (a : A) :
  p a = false -> ~ (0 < C.count p [a])%nat.
Proof. intros Hp. rewrite count_cons, Hp, count_nil. cbn. lia. Qed.

(** X9. Discovery is never started in a step that ends connected. In
    the peripheral, a step of the host task (GAP event or reset) that
    calls [ble_gap_adv_start] leaves the connected flag clear, and the
    public [ble_peripheral_start_advertising] calls it only with the
    flag clear. In the central, a step that calls [ble_gap_disc] leaves
    the flag clear, and a step that calls [ble_gap_connect] starts and
    ends with the flag clear. *)
Theorem X9_no_discovery_while_connected :
  (forall i s,
     (0 < C.count Peripheral.is_adv_start (snd (Peripheral.step K i s)))%nat ->
     Peripheral.s_is_connected (fst (Peripheral.step K i s)) = false) /\
  (forall H s,
     (0 < C.count Peripheral.is_adv_start
            (snd (Peripheral.ble_peripheral_start_advertising H s)))%nat ->
     Peripheral.s_is_connected s = false) /\
  (forall i s,
     (0 < C.count Central.is_disc (snd (Central.step K i s)))%nat ->
     Central.s_is_connected (fst (Central.step K i s)) = false) /\
  (forall i s,
     (0 < C.count Central.is_connect (snd (Central.step K i s)))%nat ->
     Central.s_is_connected s = false /\
     Central.s_is_connected (fst (Central.step K i s)) = false).
Proof.
  refine (conj _ (conj _ (conj _ _))).
  - intros [H event | reason] s; cbn [Peripheral.step fst snd];
      [|intros Hc; now apply count_single_false in Hc].
    rewrite (peripheral_count_host_calls Peripheral.is_adv_start) by reflexivity.
    rewrite peripheral_step_calls.
    destruct event as [status h | r peer | | | disc | r | type];
      cbn [Peripheral.ble_peripheral_gap_event fst snd];
      try destruct (status =? 0); try destruct (Peripheral.s_is_connected s);
      cbn; first [lia | intros _; reflexivity].
  - intros H s. unfold Peripheral.ble_peripheral_start_advertising.
    destruct (Peripheral.s_is_connected s); [|reflexivity].
    intros Hc. now apply count_single_false in Hc.
  - intros [H event | reason] s; cbn [Central.step fst snd];
      [|intros Hc; now apply count_single_false in Hc].
    rewrite (central_count_host_calls Central.is_disc) by reflexivity.
    rewrite central_step_calls.
    destruct event as [status h | r peer | | | disc | r | type];
      cbn [Central.ble_central_gap_event fst snd];
      try destruct (status =? 0); try destruct (Central.connectable K disc);
      try destruct (Central.s_is_connected s);
      cbn; first [lia | intros _; reflexivity].
  - intros [H event | reason] s; cbn [Central.step fst snd];
      [|intros Hc; now apply count_single_false in Hc].
    rewrite (central_count_host_calls Central.is_connect) by reflexivity.
    rewrite central_step_calls.
    destruct event as [status h | r peer | | | disc | r | type];
      cbn [Central.ble_central_gap_event fst snd];
      try destruct (status =? 0); try destruct (Central.connectable K disc);
      try destruct (Central.s_is_connected s);
      cbn; first [lia | intros _; split; reflexivity].
Qed.

(** X10. The central restarts scanning at once and without bound: a
    Disconnect event stores the NONE handle, clears the flag and starts
    one 30-second scan; a scan-complete event leaves the state as it is
    and starts one 30-second scan when the flag is clear, none when it
    is set. The scan is asked for whatever the host returns. *)
Theorem X10_central_restarts_scan (H : Central.host) (s : Central.state) :
  (forall reason peer,
     let r := Central.ble_central_gap_event K H (BLE_GAP_EVENT_DISCONNECT reason peer) s in
     snd (fst r) =
       {| Central.s_conn_handle := BLE_HS_CONN_HANDLE_NONE K;
          Central.s_is_connected := false;
          Central.s_own_addr_type := Central.s_own_addr_type s |} /\
     Central.host_calls (snd r) =
       [Central.ble_gap_disc (Central.s_own_addr_type s) 30000]) /\
  (forall reason,
     let r := Central.ble_central_gap_event K H (BLE_GAP_EVENT_DISC_COMPLETE reason) s in
     snd (fst r) = s /\
     Central.host_calls (snd r) =
       (if Central.s_is_connected s then []
        else [Central.ble_gap_disc (Central.s_own_addr_type s) 30000])).
Proof.
  split.
  - intros reason peer r. subst r. split; [reflexivity|].
    apply (central_step_calls K H (BLE_GAP_EVENT_DISCONNECT reason peer) s).
  - intros reason r. subst r. split; [reflexivity|].
    apply (central_step_calls K H (BLE_GAP_EVENT_DISC_COMPLETE reason) s).
Qed.

(** X11. A connect outcome with a non-zero status clears the connected
    flag, leaves the stored handle as it was, and restarts discovery
    once: one run of [start_advertising] in the peripheral, one
    30-second scan in the central. *)
Theorem X11_failed_connect_restarts_discovery (status conn_handle : Z) :
  status <> 0 ->
  (forall H s,
     let r := Peripheral.ble_peripheral_gap_event K H
                (BLE_GAP_EVENT_CONNECT status conn_handle) s in
     Peripheral.s_is_connected (snd (fst r)) = false /\
     Peripheral.s_conn_handle (snd (fst r)) = Peripheral.s_conn_handle s /\
     Peripheral.host_calls (snd r) =
       Peripheral.host_calls (snd (Peripheral.start_advertising H s)) /\
     C.count Peripheral.is_adv_set_fields (snd r) = 1%nat) /\
  (forall H s,
     let r := Central.ble_central_gap_event K H
                (BLE_GAP_EVENT_CONNECT status conn_handle) s in
     Central.s_is_connected (snd (fst r)) = false /\
     Central.s_conn_handle (snd (fst r)) = Central.s_conn_handle s /\
     Central.host_calls (snd r) =
       [Central.ble_gap_disc (Central.s_own_addr_type s) 30000]).
Proof.
  intros Hst. apply Z.eqb_neq in Hst. split; intros H s r; subst r.
  - pose proof (peripheral_step_calls K H (BLE_GAP_EVENT_CONNECT status conn_handle) s)
      as Hcalls.
    cbn [Peripheral.ble_peripheral_gap_event] in *. rewrite Hst in *.
    cbn [fst snd Peripheral.s_is_connected Peripheral.s_conn_handle] in *.
    refine (conj eq_refl (conj eq_refl (conj Hcalls _))).
    rewrite count_cons. cbn [Peripheral.is_adv_set_fields Nat.add].
    apply start_advertising_counts.
  - pose proof (central_step_calls K H (BLE_GAP_EVENT_CONNECT status conn_handle) s)
      as Hcalls.
    cbn [Central.ble_central_gap_event] in *. rewrite Hst in *.
    cbn [fst snd Central.s_is_connected Central.s_conn_handle] in *.
    exact (conj eq_refl (conj eq_refl Hcalls)).
Qed.

End BleDiscoveryProperties.

Lemma X9_no_discovery_while_connected_witness :
  Central.s_is_connected
    (fst (Central.step NimBLE.nimble_headers
            (Central.on_gap_event Central.host_all_ok (NimBLE.BLE_GAP_EVENT_DISCONNECT 19
               {| NimBLE.addr_type := 0; NimBLE.val := [x01; x02; x03; x04; x05; x06] |}))
            {| Central.s_conn_handle := 1; Central.s_is_connected := true;
               Central.s_own_addr_type := 0 |})) = false.
Proof.
  destruct (X9_no_discovery_while_connected NimBLE.nimble_headers) as (_ & _ & Hdisc & _).
  apply Hdisc. vm_compute. lia.
Defined.

Lemma X11_failed_connect_restarts_discovery_witness :
  Central.host_calls
    (snd (Central.ble_central_gap_event NimBLE.nimble_headers Central.host_all_ok
            (NimBLE.BLE_GAP_EVENT_CONNECT 13 0)
            (Central.initial NimBLE.nimble_headers 1))) =
    [Central.ble_gap_disc 1 30000].
Proof.
  destruct (X11_failed_connect_restarts_discovery NimBLE.nimble_headers 13 0) as [_ Hc].
  - discriminate.
  - destruct (Hc Central.host_all_ok (Central.initial NimBLE.nimble_headers 1))
      as (_ & _ & Hcalls).
    exact Hcalls.
Defined.

Section BleSync.
Import NimBLE.

Lemma count_map_gap_set_fields l :
  C.count Peripheral.is_sync_adv_set_fields (List.map Peripheral.gap l) =
    C.count Peripheral.is_adv_set_fields l.
Proof.
  induction l as [|a l IH]; [reflexivity|].
  cbn [List.map]. rewrite !count_cons, IH. now destruct a.
Qed.

Lemma filter_map_gap_disc l :
  List.filter Central.is_sync_disc (List.map Central.gap l) =
    List.map Central.gap (List.filter Central.is_disc l).
Proof.
  induction l as [|a l IH]; [reflexivity|].
  cbn [List.map filter]. rewrite IH. now destruct a.
Qed.

(** X12. The sync callback never touches the connected flag or the
    stored handle, and adopts the address type the host inferred when
    the host stores one. It starts discovery exactly when both
    [ble_hs_id_infer_auto] and [ble_hs_util_ensure_addr] return 0: the
    peripheral then runs [start_advertising] once, the central asks for
    one 30-second scan with the adopted address type; a failure of
    [ble_hs_id_copy_addr] does not stop it. *)
Theorem X12_sync_starts_discovery :
  (forall (S : Peripheral.sync_host) (H : Peripheral.host) (s : Peripheral.state),
     let r := Peripheral.ble_peripheral_on_sync S H s in
     Peripheral.s_conn_handle (fst r) = Peripheral.s_conn_handle s /\
     Peripheral.s_is_connected (fst r) = Peripheral.s_is_connected s /\
     Peripheral.s_own_addr_type (fst r) =
       match Peripheral.ble_hs_id_infer_auto_out S with
       | Some t => t
       | None => Peripheral.s_own_addr_type s
       end /\
     C.count Peripheral.is_sync_adv_set_fields (snd r) =
       (if (Peripheral.ble_hs_id_infer_auto_rc S =? 0)
           && (Peripheral.ble_hs_util_ensure_addr_rc S =? 0)
        then 1%nat else 0%nat)) /\
  (forall (S : Central.sync_host) (H : Central.host) (s : Central.state),
     let r := Central.ble_central_on_sync S H s in
     Central.s_conn_handle (fst r) = Central.s_conn_handle s /\
     Central.s_is_connected (fst r) = Central.s_is_connected s /\
     Central.s_own_addr_type (fst r) =
       match Central.ble_hs_id_infer_auto_out S with
       | Some t => t
       | None => Central.s_own_addr_type s
       end /\
     List.filter Central.is_sync_disc (snd r) =
       (if (Central.ble_hs_id_infer_auto_rc S =? 0)
           && (Central.ble_hs_util_ensure_addr_rc S =? 0)
        then [Central.gap (Central.ble_gap_disc (Central.s_own_addr_type (fst r)) 30000)]
        else [])).
Proof.
  split; intros S H s r; subst r.
  - unfold Peripheral.ble_peripheral_on_sync.
    destruct (Peripheral.ble_hs_id_infer_auto_rc S =? 0); cbn [negb andb];
      [|repeat split].
    destruct (Peripheral.ble_hs_util_ensure_addr_rc S =? 0); cbn [negb andb];
      [|repeat split].
    cbn [fst snd Peripheral.s_conn_handle Peripheral.s_is_connected
         Peripheral.s_own_addr_type].
    refine (conj eq_refl (conj eq_refl (conj eq_refl _))).
    rewrite !count_app, count_map_gap_set_fields.
    destruct (start_advertising_counts H
                {| Peripheral.s_conn_handle := Peripheral.s_conn_handle s;
                   Peripheral.s_is_connected := Peripheral.s_is_connected s;
                   Peripheral.s_own_addr_type :=
                     match Peripheral.ble_hs_id_infer_auto_out S with
                     | Some t => t
                     | None => Peripheral.s_own_addr_type s
                     end |}) as [-> _].
    destruct (Peripheral.ble_hs_id_copy_addr_rc S =? 0); reflexivity.
  - unfold Central.ble_central_on_sync.
    destruct (Central.ble_hs_id_infer_auto_rc S =? 0); cbn [negb andb];
      [|repeat split].
    destruct (Central.ble_hs_util_ensure_addr_rc S =? 0); cbn [negb andb];
      [|repeat split].
    cbn [fst snd Central.s_conn_handle Central.s_is_connected Central.s_own_addr_type].
    refine (conj eq_refl (conj eq_refl (conj eq_refl _))).
    rewrite !filter_app, filter_map_gap_disc.
    unfold Central.ble_central_start_scan. cbn [Central.s_own_addr_type].
    destruct (Central.ble_hs_id_copy_addr_rc S =? 0);
      destruct (negb (Central.ble_gap_disc_rc H =? 0)); reflexivity.
Qed.

(** X13. Both files label an address-type tag the same way; the label
    is "Unknown" exactly for a tag that is none of the four known ones,
    and, the four constants being distinct, two known tags with the
    same label are the same tag. *)
Theorem X13_addr_type_labels (T : addr_types) :
  (forall t, Central.addr_type_to_string T t = Peripheral.addr_type_to_string T t) /\
  (forall t, Peripheral.addr_type_to_string T t = "Unknown"%string <->
             ~ known_addr_type T t) /\
  (NoDup [BLE_ADDR_PUBLIC T; BLE_ADDR_RANDOM T; BLE_ADDR_PUBLIC_ID T; BLE_ADDR_RANDOM_ID T] ->
   forall t1 t2,
     known_addr_type T t1 -> known_addr_type T t2 ->
     Peripheral.addr_type_to_string T t1 = Peripheral.addr_type_to_string T t2 ->
     t1 = t2).
Proof.
  refine (conj (fun t => eq_refl) (conj _ _)).
  - intros t. unfold Peripheral.addr_type_to_string, known_addr_type.
    destruct (Z.eqb_spec t (BLE_ADDR_PUBLIC T));
      [split; [discriminate | tauto]|].
    destruct (Z.eqb_spec t (BLE_ADDR_RANDOM T));
      [split; [discriminate | tauto]|].
    destruct (Z.eqb_spec t (BLE_ADDR_PUBLIC_ID T));
      [split; [discriminate | tauto]|].
    destruct (Z.eqb_spec t (BLE_ADDR_RANDOM_ID T));
      [split; [discriminate | tauto]|].
    split; [tauto | reflexivity].
  - intros Hnd t1 t2 H1 H2.
    inversion Hnd as [|? ? Hn1 Hnd1]; subst.
    inversion Hnd1 as [|? ? Hn2 Hnd2]; subst.
    inversion Hnd2 as [|? ? Hn3 _]; subst.
    cbn [In] in Hn1, Hn2, Hn3.
    unfold Peripheral.addr_type_to_string.
    destruct H1 as [-> | [-> | [-> | ->]]]; destruct H2 as [-> | [-> | [-> | ->]]];
      repeat match goal with
             | |- context [Z.eqb ?a ?b] => destruct (Z.eqb_spec a b)
             end;
      try reflexivity; try discriminate; try tauto; try congruence;
      exfalso; intuition congruence.
Qed.

End BleSync.

Lemma X13_addr_type_labels_witness :
  Peripheral.addr_type_to_string NimBLE.ble_addr_types 4 = "Unknown"%string.
Proof.
  destruct (X13_addr_type_labels NimBLE.ble_addr_types) as (_ & Hunknown & _).
  apply Hunknown. unfold NimBLE.known_addr_type. simpl. lia.
Defined.

(** ** The address codec: telling addresses apart, and short buffers *)

Section CodecShape.

Lemma parse_hex_pair_inverts (b : byte) : Spec.parse_hex_pair (Spec.hex_pair b) = Some b.
Proof. destruct b; reflexivity. Qed.

Lemma hex_digits_determine_byte (a b : byte) :
  Spec.hi_digit a = Spec.hi_digit b -> Spec.lo_digit a = Spec.lo_digit b -> a = b.
Proof.
  intros Hh Hl.
  assert (Heq : Spec.hex_pair a = Spec.hex_pair b)
    by (unfold Spec.hex_pair; now rewrite Hh, Hl).
  pose proof (parse_hex_pair_inverts a) as Ha. rewrite Heq, parse_hex_pair_inverts in Ha.
  now injection Ha.
Qed.

Lemma length_substring_0 (k : nat) : forall s : string,
  String.length (String.substring 0 k s) = Nat.min k (String.length s).
Proof.
  induction k as [|k IH]; intros [|c s]; cbn [String.substring String.length Nat.min];
    try reflexivity.
  now rewrite IH.
Qed.

Lemma substring_0_all (s : string) : forall k : nat,
  (String.length s <= k)%nat -> String.substring 0 k s = s.
Proof.
  induction s as [|c s IH]; intros [|k] Hk; cbn [String.substring String.length] in *;
    try reflexivity; try lia.
  f_equal. apply IH. lia.
Qed.

Lemma codec_any_buffer (a0 a1 a2 a3 a4 a5 : byte) (str_len : nat) :
  (1 <= str_len)%nat ->
  Peripheral.addr_to_string [a0; a1; a2; a3; a4; a5] str_len =
    Some (String.substring 0 (str_len - 1) (Spec.display_form [a0; a1; a2; a3; a4; a5])).
Proof.
  intros Hpos. unfold Peripheral.addr_to_string. cbn [nth_error List.map].
  destruct str_len as [|k]; [lia|].
  cbn [Printf.snprintf Nat.sub]. rewrite Nat.sub_0_r.
  rewrite vformat_address, !fmt_02X_byte. reflexivity.
Qed.

(** X14. The display form identifies the address: two 6-byte
    identifiers that either [addr_to_string] renders alike, in the
    callers' 18-byte buffer, are the same identifier. *)
Theorem X14_display_form_identifies_address (a b : list byte) :
  List.length a = 6%nat -> List.length b = 6%nat ->
  (Peripheral.addr_to_string a 18 = Peripheral.addr_to_string b 18 -> a = b) /\
  (Central.addr_to_string a 18 = Central.addr_to_string b 18 -> a = b).
Proof.
  intros Ha Hb.
  destruct a as [|a0 [|a1 [|a2 [|a3 [|a4 [|a5 [|a6 ra]]]]]]]; try discriminate Ha.
  destruct b as [|b0 [|b1 [|b2 [|b3 [|b4 [|b5 [|b6 rb]]]]]]]; try discriminate Hb.
  assert (Hp : Peripheral.addr_to_string [a0; a1; a2; a3; a4; a5] 18 =
               Peripheral.addr_to_string [b0; b1; b2; b3; b4; b5] 18 ->
               [a0; a1; a2; a3; a4; a5] = [b0; b1; b2; b3; b4; b5]).
  { rewrite !peripheral_codec. unfold Spec.display_form, Spec.hex_pair.
    cbn [List.rev List.map app String.concat String.append].
    intros Heq. injection Heq as H5h H5l H4h H4l H3h H3l H2h H2l H1h H1l H0h H0l.
    rewrite (hex_digits_determine_byte _ _ H5h H5l), (hex_digits_determine_byte _ _ H4h H4l),
            (hex_digits_determine_byte _ _ H3h H3l), (hex_digits_determine_byte _ _ H2h H2l),
            (hex_digits_determine_byte _ _ H1h H1l), (hex_digits_determine_byte _ _ H0h H0l).
    reflexivity. }
  split; [exact Hp|]. rewrite !codecs_agree. exact Hp.
Qed.

(** X15. Whatever buffer length of at least 1 is passed,
    [addr_to_string] leaves in the buffer the start of the display
    form that fits with the terminator: [min (str_len - 1) 17]
    characters, never more than [str_len - 1]; from 18 bytes on the
    whole form is there. (With a length of 0 [snprintf] writes
    nothing, and the buffer keeps what it held.) *)
Theorem X15_codec_respects_buffer (addr : list byte) (str_len : nat) :
  List.length addr = 6%nat ->
  (1 <= str_len)%nat ->
  exists out,
    Peripheral.addr_to_string addr str_len = Some out /\
    Central.addr_to_string addr str_len = Some out /\
    out = String.substring 0 (str_len - 1) (Spec.display_form addr) /\
    String.length out = Nat.min (str_len - 1) 17 /\
    ((18 <= str_len)%nat -> out = Spec.display_form addr).
Proof.
  intros Hlen Hpos.
  destruct addr as [|a0 [|a1 [|a2 [|a3 [|a4 [|a5 [|a6 rest]]]]]]]; try discriminate Hlen.
  eexists. split; [now apply codec_any_buffer|].
  split; [rewrite codecs_agree; now apply codec_any_buffer|].
  split; [reflexivity|].
  split; [rewrite length_substring_0; reflexivity|].
  intros Hbig.
  apply substring_0_all.
  change (String.length (Spec.display_form [a0; a1; a2; a3; a4; a5])) with 17%nat. lia.
Qed.

End CodecShape.

Lemma X14_display_form_identifies_address_witness :
  [x01; x02; x03; x04; x05; x06] = List.rev [x06; x05; x04; x03; x02; x01].
Proof.
  destruct (X14_display_form_identifies_address
              [x01; x02; x03; x04; x05; x06] (List.rev [x06; x05; x04; x03; x02; x01])
              eq_refl eq_refl) as [Hp _].
  apply Hp. reflexivity.
Defined.

Lemma X15_codec_respects_buffer_witness :
  exists out,
    Peripheral.addr_to_string [x11; x22; x33; x44; x55; x66] 6 = Some out /\
    String.length out = 5%nat.
Proof.
  destruct (X15_codec_respects_buffer [x11; x22; x33; x44; x55; x66] 6 eq_refl)
    as (out & Hp & _ & _ & Hl & _); [lia|].
  exists out. split; [exact Hp | exact Hl].
Defined.

(** ** Starting the request server again and again *)

Section WebServerRetries.
Import WebServer.
Variable K : constants.

Lemma starts_cons H hs s :
  starts K (H :: hs) s =
    (fst (starts K hs (fst (web_server_start K H s))),
     snd (web_server_start K H s) ++ snd (starts K hs (fst (web_server_start K H s)))).
Proof.
  cbn [starts]. destruct (web_server_start K H s) as [s1 t1]. cbn [fst snd].
  now destruct (starts K hs s1).
Qed.

Lemma registers_with_every_start hs : forall s,
  C.count is_register (snd (starts K hs s)) =
    (5 * C.count (is_httpd_started K) (snd (starts K hs s)))%nat.
Proof.
  induction hs as [|H hs IH]; intros s; [reflexivity|].
  rewrite starts_cons. cbn [snd]. rewrite !count_app, IH.
  unfold web_server_start. destruct (server s) as [h|]; [cbn; lia|].
  destruct (Z.eqb_spec (httpd_start_rc H) (ESP_OK K)) as [Hok | Hko]; cbn [negb fst snd].
  - rewrite !count_cons, !count_nil. cbn [is_register is_httpd_started].
    rewrite Hok, Z.eqb_refl. cbn [Nat.add]. lia.
  - rewrite !count_cons, !count_nil. cbn [is_register is_httpd_started].
    apply Z.eqb_neq in Hko. rewrite Hko. cbn [Nat.add]. lia.
Qed.

Lemma starts_all_fail hs :
  Forall (fun H => httpd_start_rc H <> ESP_OK K) hs ->
  fst (starts K hs initial) = initial /\
  C.count is_httpd_start (snd (starts K hs initial)) = List.length hs.
Proof.
  induction hs as [|H hs IH]; intros Hall; [split; reflexivity|].
  inversion Hall as [|? ? Hko Hrest]; subst.
  assert (Hstep : web_server_start K H initial =
                  (initial, [httpd_start (httpd_start_rc H);
                             ESP_LOG C.ESP_LOG_ERROR "Failed to start HTTP server"])).
  { unfold web_server_start. cbn [initial server].
    apply Z.eqb_neq in Hko. now rewrite Hko. }
  rewrite starts_cons, Hstep. cbn [fst snd].
  destruct (IH Hrest) as [Hs Hc]. rewrite Hs, count_app, Hc. split; reflexivity.
Qed.

Lemma starts_running_iff hs :
  server (fst (starts K hs initial)) <> None <->
  Exists (fun H => httpd_start_rc H = ESP_OK K) hs.
Proof.
  induction hs as [|H hs IH].
  - split; [intros Hn; now contradiction Hn | intros Hex; inversion Hex].
  - rewrite starts_cons. cbn [fst]. unfold web_server_start. cbn [initial server].
    destruct (Z.eqb_spec (httpd_start_rc H) (ESP_OK K)) as [Hok | Hko]; cbn [negb fst].
    + destruct (starts_when_running K hs (httpd_start_handle H)) as (Hs & _).
      rewrite Hs. cbn [server]. split; [intros _; now left | discriminate].
    + fold initial. rewrite IH. split; [now right|].
      intros Hex. inversion Hex as [? ? Hh | ? ? Hh]; subst; [contradiction | exact Hh].
Qed.

(** X16. Over any number of calls of [web_server_start] from start-up:
    the five URI handlers are registered once for the [httpd_start]
    that succeeded and never otherwise; the server is running afterwards
    exactly when some call found [httpd_start] succeeding; and as long
    as [httpd_start] fails the handle stays null and every call tries
    again. *)
Theorem X16_server_start_retries (hs : list host) :
  C.count is_register (snd (starts K hs initial)) =
    (5 * C.count (is_httpd_started K) (snd (starts K hs initial)))%nat /\
  (server (fst (starts K hs initial)) <> None <->
   Exists (fun H => httpd_start_rc H = ESP_OK K) hs) /\
  (Forall (fun H => httpd_start_rc H <> ESP_OK K) hs ->
   fst (starts K hs initial) = initial /\
   C.count is_httpd_start (snd (starts K hs initial)) = List.length hs).
Proof.
  exact (conj (registers_with_every_start hs initial)
           (conj (starts_running_iff hs) (starts_all_fail hs))).
Qed.

End WebServerRetries.

Lemma X16_server_start_retries_witness :
  C.count WebServer.is_httpd_start
    (snd (WebServer.starts {| WebServer.ESP_OK := 0 |}
            [{| WebServer.httpd_start_rc := -1; WebServer.httpd_start_handle := 1 |};
             {| WebServer.httpd_start_rc := 259; WebServer.httpd_start_handle := 1 |}]
            WebServer.initial)) = 2%nat.
Proof.
  destruct (X16_server_start_retries {| WebServer.ESP_OK := 0 |}
              [{| WebServer.httpd_start_rc := -1; WebServer.httpd_start_handle := 1 |};
               {| WebServer.httpd_start_rc := 259; WebServer.httpd_start_handle := 1 |}])
    as (_ & _ & Hfail).
  destruct Hfail as [_ Hc]; [|exact Hc].
  repeat constructor; simpl; discriminate.
Defined.

(** ** The LED driver *)

Section LedRuns.
Import LedControl.

Lemma last_level_app t1 : forall t2 d,
  last_level (t1 ++ t2) d = last_level t2 (last_level t1 d).
Proof.
  induction t1 as [|a t1 IH]; intros t2 d; [reflexivity|].
  destruct a; cbn [app last_level]; apply IH.
Qed.

Lemma apply_op_mirrors o s :
  s_led_on (fst (apply_op o s)) = last_level (snd (apply_op o s)) (s_led_on s) /\
  (s_led_on (fst (apply_op o s)) = 0 \/ s_led_on (fst (apply_op o s)) = 1) /\
  Forall led_call_ok (snd (apply_op o s)).
Proof.
  destruct o as [|on]; cbn [apply_op led_control_init led_control_set fst snd last_level].
  - refine (conj eq_refl (conj (or_introl eq_refl) _)).
    constructor; [reflexivity|]. constructor; [|constructor].
    split; [reflexivity | now left].
  - destruct (on =? 0); cbn [negb fst snd last_level s_led_on].
    + refine (conj eq_refl (conj (or_introl eq_refl) _)).
      constructor; [|constructor]. split; [reflexivity | now left].
    + refine (conj eq_refl (conj (or_intror eq_refl) _)).
      constructor; [|constructor]. split; [reflexivity | now right].
Qed.

(** X17. However the LED is driven, by [led_control_init] and
    [led_control_set] in any order and with any arguments, what
    [led_control_is_on] reports is the level last written to the pin;
    it is 0 or 1 once a call was made, and every write goes to the LED
    pin with level 0 or 1. *)
Theorem X17_led_state_mirrors_pin (ops : list op) (s : state) :
  led_control_is_on (fst (run ops s)) = last_level (snd (run ops s)) (s_led_on s) /\
  (ops <> [] ->
   led_control_is_on (fst (run ops s)) = 0 \/ led_control_is_on (fst (run ops s)) = 1) /\
  Forall led_call_ok (snd (run ops s)).
Proof.
  unfold led_control_is_on. revert s.
  induction ops as [|o ops IH]; intros s.
  - cbn. repeat split; [intros Hne; now contradiction Hne | constructor].
  - cbn [run]. destruct (apply_op_mirrors o s) as (Hm & Hb & Hok).
    destruct (apply_op o s) as [s1 t1]. cbn [fst snd] in *.
    destruct (IH s1) as (Hm' & Hb' & Hok').
    destruct (run ops s1) as [s2 t2] eqn:Hrun. cbn [fst snd] in *.
    refine (conj _ (conj _ _)).
    + rewrite last_level_app, <- Hm. exact Hm'.
    + intros _. destruct ops as [|o' ops'].
      * cbn in Hrun. injection Hrun as <- <-. exact Hb.
      * apply Hb'. discriminate.
    + apply Forall_app. now split.
Qed.

End LedRuns.

Lemma X17_led_state_mirrors_pin_witness :
  LedControl.led_control_is_on
    (fst (LedControl.run [LedControl.op_init; LedControl.op_set 5] LedControl.initial)) = 0 \/
  LedControl.led_control_is_on
    (fst (LedControl.run [LedControl.op_init; LedControl.op_set 5] LedControl.initial)) = 1.
Proof.
  destruct (X17_led_state_mirrors_pin [LedControl.op_init; LedControl.op_set 5]
              LedControl.initial) as (_ & Hb & _).
  apply Hb. discriminate.
Defined.

(** ** The stored string across operations *)

Section StoredString.
Import CString StorageManager.
Variable K : constants.

Lemma is_nul_false c : c <> NUL -> is_nul c = false.
Proof.
  intros Hc. unfold is_nul. destruct (Byte.eqb c NUL) eqn:He; [|reflexivity].
  apply Byte.byte_dec_bl in He. contradiction.
Qed.

Lemma cstr_nul_free v : forall tail,
  Forall (fun c => c <> NUL) v -> cstr (v ++ NUL :: tail) = v.
Proof.
  induction v as [|c v IH]; intros tail Hv; [reflexivity|].
  inversion Hv as [|? ? Hc Hrest]; subst.
  cbn [app cstr]. rewrite (is_nul_false c Hc), IH by assumption. reflexivity.
Qed.

Lemma cstr_nul_free_whole v : Forall (fun c => c <> NUL) v -> cstr v = v.
Proof.
  induction v as [|c v IH]; intros Hv; [reflexivity|].
  inversion Hv as [|? ? Hc Hrest]; subst.
  cbn [cstr]. rewrite (is_nul_false c Hc), IH by assumption. reflexivity.
Qed.

Lemma length_array_set i c : forall a, List.length (array_set i c a) = List.length a.
Proof.
  induction i as [|i IH]; intros [|x a]; cbn [array_set List.length]; try reflexivity.
  now rewrite IH.
Qed.

Lemma cstr_array_set_0 a : cstr (array_set 0 NUL a) = [].
Proof. destruct a; reflexivity. Qed.

Lemma nul_in_array_set_0 a : a <> [] -> In NUL (array_set 0 NUL a).
Proof. destruct a; [intros Hn; now contradiction Hn | intros _; now left]. Qed.

Lemma holds_string_nonempty s : holds_string s -> s_stored_string s <> [].
Proof. intros [Hlen _] Hnil. rewrite Hnil in Hlen. discriminate Hlen. Qed.

(** What a delete does to the mirror. *)
Lemma delete_cases H s :
  fst (storage_manager_delete_string K H s) =
    if (nvs_open_rc H =? ESP_OK K)
       && ((nvs_erase_key_rc H =? ESP_ERR_NVS_NOT_FOUND K)
           || (nvs_erase_key_rc H =? ESP_OK K))
    then {| s_stored_string := array_set 0 NUL (s_stored_string s) |}
    else s.
Proof.
  unfold storage_manager_delete_string.
  destruct (nvs_open_rc H =? ESP_OK K); cbn [negb andb]; [|reflexivity].
  destruct (nvs_erase_key_rc H =? ESP_ERR_NVS_NOT_FOUND K); cbn [orb]; [reflexivity|].
  destruct (nvs_erase_key_rc H =? ESP_OK K); reflexivity.
Qed.

Lemma save_cases H value s :
  List.length (s_stored_string s) = STRING_MAX_LEN ->
  fst (storage_manager_save_string K H value s) =
    if all_ok K H
    then {| s_stored_string := strncpy_bytes value 63 ++ [NUL] |}
    else s.
Proof.
  intros Hlen. destruct (all_ok K H) eqn:Hall.
  - rewrite save_string_succeeded by assumption. cbn [fst].
    now rewrite saved_buffer.
  - now apply save_string_failed.
Qed.

Lemma apply_op_holds_string o s :
  holds_string s -> holds_string (fst (apply_op K o s)).
Proof.
  intros Hs. pose proof Hs as [Hlen Hnul].
  destruct o as [H value | H]; cbn [apply_op].
  - rewrite save_cases by assumption. destruct (all_ok K H); [|exact Hs].
    split; cbn [s_stored_string].
    + rewrite length_app, length_strncpy_bytes. reflexivity.
    + apply in_or_app. right. now left.
  - rewrite delete_cases.
    destruct ((nvs_open_rc H =? ESP_OK K)
              && ((nvs_erase_key_rc H =? ESP_ERR_NVS_NOT_FOUND K)
                  || (nvs_erase_key_rc H =? ESP_OK K))); [|exact Hs].
    split; cbn [s_stored_string].
    + now rewrite length_array_set.
    + apply nul_in_array_set_0. now apply holds_string_nonempty.
Qed.

Lemma run_holds_string ops : forall s,
  holds_string s -> holds_string (fst (run K ops s)).
Proof.
  induction ops as [|o ops IH]; intros s Hs; [exact Hs|].
  cbn [run]. pose proof (apply_op_holds_string o s Hs) as H1.
  destruct (apply_op K o s) as [s1 t1]. cbn [fst] in H1.
  specialize (IH s1 H1). now destruct (run K ops s1).
Qed.

Lemma run_snoc ops : forall o s,
  fst (run K (ops ++ [o]) s) = fst (apply_op K o (fst (run K ops s))).
Proof.
  induction ops as [|o' ops IH]; intros o s.
  - cbn [app run fst]. destruct (apply_op K o s) as [s1 t1]. reflexivity.
  - cbn [app run]. destruct (apply_op K o' s) as [s1 t1].
    specialize (IH o s1).
    destruct (run K (ops ++ [o]) s1) as [s2 t2].
    destruct (run K ops s1) as [s3 t3]. exact IH.
Qed.

(** X18. [storage_manager_delete_string] empties the mirror exactly
    when the flash could be opened and the erase returned [ESP_OK] or
    "not found", whether or not the commit that follows succeeds; when
    the open or the erase fails otherwise the mirror is left as it
    was. *)
Theorem X18_delete_clears_mirror (H : host) (s : state) :
  let r := storage_manager_delete_string K H s in
  let erased := (nvs_open_rc H =? ESP_OK K)
                && ((nvs_erase_key_rc H =? ESP_ERR_NVS_NOT_FOUND K)
                    || (nvs_erase_key_rc H =? ESP_OK K)) in
  (erased = true ->
     cstr (storage_manager_get_string (fst r)) = [] /\
     List.length (storage_manager_get_string (fst r)) =
       List.length (storage_manager_get_string s) /\
     C.count is_commit (snd r) = 1%nat) /\
  (erased = false ->
     fst r = s /\ C.count is_commit (snd r) = 0%nat).
Proof.
  intros r erased. subst r erased. rewrite delete_cases.
  unfold storage_manager_delete_string.
  destruct (nvs_open_rc H =? ESP_OK K); cbn [negb andb orb];
    [|split; [discriminate | intros _; split; reflexivity]].
  destruct (nvs_erase_key_rc H =? ESP_ERR_NVS_NOT_FOUND K); cbn [orb].
  - split; [intros _ | discriminate].
    cbn [fst snd storage_manager_get_string s_stored_string].
    rewrite cstr_array_set_0, length_array_set.
    destruct (negb (nvs_commit_rc H =? ESP_OK K)); repeat split.
  - destruct (nvs_erase_key_rc H =? ESP_OK K); cbn [negb].
    + split; [intros _ | discriminate].
      cbn [fst snd storage_manager_get_string s_stored_string].
      rewrite cstr_array_set_0, length_array_set.
      destruct (negb (nvs_commit_rc H =? ESP_OK K)); repeat split.
    + split; [discriminate | intros _; split; reflexivity].
Qed.

(** X19. The mirror always holds a C string: at start-up and after any
    sequence of saves and deletes, whatever the flash answers and
    whatever values are saved, the array has its 64 cells and a
    terminator among them. *)
Theorem X19_mirror_always_terminated (ops : list op) :
  holds_string initial /\
  (forall s, holds_string s -> holds_string (fst (run K ops s))).
Proof.
  split.
  - split; [reflexivity | now left].
  - intros s. apply run_holds_string.
Qed.

(** X20. The last successful save decides what reads back: after any
    sequence of saves and deletes, a save that the flash accepts of a
    value without terminator inside makes the mirror read back as the
    first 63 characters of that value, the value itself when it has at
    most 63. *)
Theorem X20_last_save_reads_back (ops : list op) (H : host) (value : list byte)
    (s : state) :
  holds_string s ->
  all_ok K H = true ->
  Forall (fun c => c <> NUL) value ->
  let s' := fst (run K (ops ++ [op_save H value]) s) in
  cstr (storage_manager_get_string s') = firstn 63 value /\
  ((List.length value <= 63)%nat -> cstr (storage_manager_get_string s') = value).
Proof.
  intros Hs Hall Hv s'. subst s'. rewrite run_snoc. cbn [apply_op].
  destruct (run_holds_string ops s Hs) as [Hlen _].
  rewrite save_cases, Hall by assumption.
  cbn [storage_manager_get_string s_stored_string].
  rewrite cstr_strncpy_bytes, cstr_nul_free_whole by assumption.
  split; [reflexivity|]. intros Hshort. now apply firstn_all2.
Qed.

End StoredString.

Lemma X18_delete_clears_mirror_witness :
  CString.cstr
    (StorageManager.storage_manager_get_string
       (fst (StorageManager.storage_manager_delete_string StorageManager.idf_headers
               {| StorageManager.nvs_open_rc := 0; StorageManager.nvs_set_str_rc := 0;
                  StorageManager.nvs_erase_key_rc := 0; StorageManager.nvs_commit_rc := 5 |}
               {| StorageManager.s_stored_string := [x68; x69; x00] |}))) = [].
Proof.
  destruct (X18_delete_clears_mirror StorageManager.idf_headers
              {| StorageManager.nvs_open_rc := 0; StorageManager.nvs_set_str_rc := 0;
                 StorageManager.nvs_erase_key_rc := 0; StorageManager.nvs_commit_rc := 5 |}
              {| StorageManager.s_stored_string := [x68; x69; x00] |}) as [Hclr _].
  destruct (Hclr eq_refl) as [Hempty _]. exact Hempty.
Defined.

Lemma X19_mirror_always_terminated_witness :
  StorageManager.holds_string
    (fst (StorageManager.run StorageManager.idf_headers
            [StorageManager.op_save StorageManager.host_all_ok [x61];
             StorageManager.op_delete StorageManager.host_all_ok]
            StorageManager.initial)).
Proof.
  destruct (X19_mirror_always_terminated StorageManager.idf_headers
              [StorageManager.op_save StorageManager.host_all_ok [x61];
               StorageManager.op_delete StorageManager.host_all_ok]) as [Hinit Hrun].
  apply Hrun. exact Hinit.
Defined.

Lemma X20_last_save_reads_back_witness :
  CString.cstr
    (StorageManager.storage_manager_get_string
       (fst (StorageManager.run StorageManager.idf_headers
               ([StorageManager.op_save StorageManager.host_all_ok [x61; x62; x63]]
                  ++ [StorageManager.op_save StorageManager.host_all_ok [x7a]])
               StorageManager.initial))) = [x7a].
Proof.
  destruct (X20_last_save_reads_back StorageManager.idf_headers
              [StorageManager.op_save StorageManager.host_all_ok [x61; x62; x63]]
              StorageManager.host_all_ok [x7a] StorageManager.initial) as [_ Hshort].
  - split; [reflexivity | now left].
  - reflexivity.
  - repeat constructor; discriminate.
  - apply Hshort. simpl. lia.
Defined.

Section StoredStringInit.
Import CString StorageManager.
Variables (K : constants) (F : flash_constants).

Lemma is_nul_true c : is_nul c = true -> c = NUL.
Proof. unfold is_nul. apply Byte.byte_dec_bl. Qed.

Lemma length_write_bytes new : forall dst,
  List.length (write_bytes new dst) = List.length dst.
Proof.
  induction new as [|c new IH]; intros [|d dst]; cbn [write_bytes List.length];
    try reflexivity.
  now rewrite IH.
Qed.

Lemma cstr_write_bytes out : forall buf,
  In NUL out -> (List.length out <= List.length buf)%nat ->
  cstr (write_bytes out buf) = cstr out.
Proof.
  induction out as [|c out IH]; intros buf Hin Hlen; [destruct Hin|].
  destruct buf as [|b buf]; [cbn [List.length] in Hlen; lia|].
  cbn [write_bytes cstr]. destruct (is_nul c) eqn:Hc; [reflexivity|].
  f_equal. apply IH.
  - destruct Hin as [Heq | Hin]; [|exact Hin].
    subst c. discriminate Hc.
  - cbn [List.length] in Hlen. lia.
Qed.

Lemma load_done I s tr :
  exists s' tr', load_stored_string K I s tr = init_done s' tr'.
Proof.
  unfold load_stored_string.
  destruct (negb (nvs_open_readonly_rc I =? ESP_OK K)); [eauto|].
  destruct (nvs_get_str_rc I =? ESP_OK K); [eauto|].
  destruct (nvs_get_str_rc I =? ESP_ERR_NVS_NOT_FOUND K); eauto.
Qed.

Lemma load_result I s tr s' tr' :
  load_stored_string K I s tr = init_done s' tr' ->
  List.length (s_stored_string s') = List.length (s_stored_string s) /\
  (if (nvs_open_readonly_rc I =? ESP_OK K) && (nvs_get_str_rc I =? ESP_OK K)
   then s_stored_string s' = write_bytes (nvs_get_str_out I) (s_stored_string s)
   else cstr (s_stored_string s') = []).
Proof.
  unfold load_stored_string. intros Heq.
  apply (f_equal (fun o => match o with
                           | init_done x _ => s_stored_string x
                           | init_aborted _ => []
                           end)) in Heq.
  revert Heq.
  destruct (nvs_open_readonly_rc I =? ESP_OK K); cbn [negb andb].
  - destruct (nvs_get_str_rc I =? ESP_OK K).
    + cbn [s_stored_string]. intros <-. now rewrite length_write_bytes.
    + destruct (nvs_get_str_rc I =? ESP_ERR_NVS_NOT_FOUND K);
        cbn [s_stored_string]; intros <-;
        now rewrite length_array_set, length_write_bytes, cstr_array_set_0.
  - cbn [s_stored_string]. intros <-.
    now rewrite length_array_set, cstr_array_set_0.
Qed.

(** X21. [storage_manager_init] aborts exactly when the flash cannot be
    made ready (the first [nvs_flash_init] fails other than with "no
    free pages" or "new version", or the erase or the second init
    fails), and then only flash calls were made. Otherwise it returns
    with the mirror still 64 cells long: when the namespace opens and
    the read succeeds the mirror holds what the read stored, and reads
    back as that string if it came with its terminator within 64 bytes;
    in every other case (nothing stored yet, key missing, read error)
    the mirror reads back empty. *)
Theorem X21_init_loads_or_empties (I : init_host) (s : state) :
  List.length (s_stored_string s) = STRING_MAX_LEN ->
  match storage_manager_init K F I s with
  | init_aborted tr =>
      flash_ready K F I = false /\ C.count is_flash_call tr = List.length tr
  | init_done s' tr =>
      flash_ready K F I = true /\
      List.length (storage_manager_get_string s') = STRING_MAX_LEN /\
      (if (nvs_open_readonly_rc I =? ESP_OK K) && (nvs_get_str_rc I =? ESP_OK K)
       then storage_manager_get_string s' =
              write_bytes (nvs_get_str_out I) (s_stored_string s) /\
            (In NUL (nvs_get_str_out I) ->
             (List.length (nvs_get_str_out I) <= STRING_MAX_LEN)%nat ->
             cstr (storage_manager_get_string s') = cstr (nvs_get_str_out I))
       else cstr (storage_manager_get_string s') = [])
  end.
Proof.
  intros Hlen. unfold storage_manager_init, flash_ready.
  assert (Hdone : forall tr,
            match load_stored_string K I s tr with
            | init_aborted _ => False
            | init_done s' _ =>
                List.length (storage_manager_get_string s') = STRING_MAX_LEN /\
                (if (nvs_open_readonly_rc I =? ESP_OK K) && (nvs_get_str_rc I =? ESP_OK K)
                 then storage_manager_get_string s' =
                        write_bytes (nvs_get_str_out I) (s_stored_string s) /\
                      (In NUL (nvs_get_str_out I) ->
                       (List.length (nvs_get_str_out I) <= STRING_MAX_LEN)%nat ->
                       cstr (storage_manager_get_string s') = cstr (nvs_get_str_out I))
                 else cstr (storage_manager_get_string s') = [])
            end).
  { intros tr. destruct (load_done I s tr) as (s' & tr' & Hload). rewrite Hload.
    destruct (load_result I s tr s' tr' Hload) as [Hl Hc].
    unfold storage_manager_get_string. split; [now rewrite Hl|].
    destruct ((nvs_open_readonly_rc I =? ESP_OK K) && (nvs_get_str_rc I =? ESP_OK K));
      [|exact Hc].
    split; [exact Hc|]. intros Hin Hfit. rewrite Hc.
    apply cstr_write_bytes; [exact Hin | now rewrite Hlen]. }
  destruct ((nvs_flash_init_rc I =? ESP_ERR_NVS_NO_FREE_PAGES F)
            || (nvs_flash_init_rc I =? ESP_ERR_NVS_NEW_VERSION_FOUND F)).
  - destruct (nvs_flash_erase_rc I =? ESP_OK K); cbn [negb andb]; [|split; reflexivity].
    destruct (nvs_flash_init_again_rc I =? ESP_OK K); cbn [negb]; [|split; reflexivity].
    specialize (Hdone [nvs_flash_init; nvs_flash_erase; nvs_flash_init]).
    destruct (load_stored_string K I s _); [contradiction | now split].
  - destruct (nvs_flash_init_rc I =? ESP_OK K); cbn [negb]; [|split; reflexivity].
    specialize (Hdone [nvs_flash_init]).
    destruct (load_stored_string K I s _); [contradiction | now split].
Qed.

End StoredStringInit.

Lemma X21_init_loads_or_empties_witness :
  exists s' tr,
    StorageManager.storage_manager_init StorageManager.idf_headers
      StorageManager.idf_flash_headers
      {| StorageManager.nvs_flash_init_rc := 4365;
         StorageManager.nvs_flash_erase_rc := 0;
         StorageManager.nvs_flash_init_again_rc := 0;
         StorageManager.nvs_open_readonly_rc := 0;
         StorageManager.nvs_get_str_rc := 0;
         StorageManager.nvs_get_str_out := [x6f; x6b; x00] |}
      StorageManager.initial = StorageManager.init_done s' tr /\
    CString.cstr (StorageManager.storage_manager_get_string s') = [x6f; x6b].
Proof.
  pose proof (X21_init_loads_or_empties StorageManager.idf_headers
                StorageManager.idf_flash_headers
                {| StorageManager.nvs_flash_init_rc := 4365;
                   StorageManager.nvs_flash_erase_rc := 0;
                   StorageManager.nvs_flash_init_again_rc := 0;
                   StorageManager.nvs_open_readonly_rc := 0;
                   StorageManager.nvs_get_str_rc := 0;
                   StorageManager.nvs_get_str_out := [x6f; x6b; x00] |}
                StorageManager.initial eq_refl) as Hinit.
  cbv beta iota delta [StorageManager.storage_manager_init] in Hinit.
  simpl in Hinit. eexists _, _. split; [reflexivity|].
  destruct Hinit as (_ & _ & _ & Hread).
  apply Hread; [right; right; now left |].
  unfold StorageManager.STRING_MAX_LEN. simpl. lia.
Defined.

(** ** The URI handlers *)

Section UriHandlers.
Import WebServerHandlers.
Variables (K : constants) (SK : StorageManager.constants).

(** X22. GET /led switches the LED on for [state=on], off for
    [state=off], through [led_control_set], and otherwise (other value,
    no [state] key, no query) leaves the LED alone and drives no pin;
    it never touches the stored string and returns what
    [httpd_resp_send] returned. *)
Theorem X22_led_request (R : request) (w : world) :
  let r := led_get_handler R w in
  let switch :=
    match requested_state R with
    | Some st => if String.eqb st "on" then Some 1
                 else if String.eqb st "off" then Some 0 else None
    | None => None
    end in
  fst (fst r) = httpd_resp_send_rc R /\
  storage (snd (fst r)) = storage w /\
  LedControl.led_control_is_on (led (snd (fst r))) =
    match switch with
    | Some level => level
    | None => LedControl.led_control_is_on (led w)
    end /\
  List.filter is_gpio (snd r) =
    match switch with
    | Some level =>
        [gpio (LedControl.gpio_set_level LedControl.LED_GPIO level)]
    | None => []
    end.
Proof.
  unfold led_get_handler, requested_state.
  destruct (url_query R) as [query|]; [|repeat split].
  destruct (query_key_value R query "state") as [st|]; [|repeat split].
  destruct (String.eqb st "on"); [repeat split|].
  destruct (String.eqb st "off"); repeat split.
Qed.

Lemma recv_loop_calls answers : forall total buf,
  C.count is_recv (snd (recv_loop answers total buf)) =
    List.length (snd (recv_loop answers total buf)).
Proof.
  induction answers as [|a answers IH]; intros total buf; cbn [recv_loop].
  - destruct (Z.of_nat (List.length buf) <? total); reflexivity.
  - destruct (Z.of_nat (List.length buf) <? total); [|reflexivity].
    destruct a as [chunk|]; [|reflexivity].
    destruct (Z.of_nat (List.length (firstn _ chunk)) <=? 0); [reflexivity|].
    cbn [snd]. rewrite count_cons. cbn [is_recv List.length]. now rewrite IH.
Qed.

(** The loop collects a body that arrives in non-empty pieces. *)
Lemma recv_loop_collects chunks : forall more total buf,
  Forall (fun c => c <> []) chunks ->
  Z.of_nat (List.length buf + List.length (List.concat chunks)) = total ->
  fst (recv_loop (List.map Some chunks ++ more) total buf) =
    Some (buf ++ List.concat chunks).
Proof.
  induction chunks as [|c chunks IH]; intros more total buf Hne Hlen.
  - cbn [List.map app List.concat List.length] in *. rewrite app_nil_r.
    assert (Hguard : (Z.of_nat (List.length buf) <? total) = false)
      by (apply Z.ltb_ge; lia).
    destruct more as [|a more]; cbn [recv_loop]; now rewrite Hguard.
  - apply Forall_cons_iff in Hne. destruct Hne as [Hc Hrest].
    cbn [List.map app List.concat recv_loop] in *. rewrite length_app in Hlen.
    assert (Hcpos : (0 < List.length c)%nat) by (destruct c; [contradiction | cbn; lia]).
    assert (Hguard : (Z.of_nat (List.length buf) <? total) = true)
      by (apply Z.ltb_lt; lia).
    rewrite Hguard.
    rewrite firstn_all2 by lia.
    assert (Hpos : (Z.of_nat (List.length c) <=? 0) = false) by (apply Z.leb_gt; lia).
    rewrite Hpos. cbn [fst]. rewrite IH; [now rewrite <- app_assoc | exact Hrest |].
    rewrite length_app. lia.
Qed.


Lemma small_length_is_int (n : nat) : (n < 64)%nat -> C.int_wrap (Z.of_nat n) = Z.of_nat n.
Proof.
  intros Hn. apply int_wrap_id. unfold C.is_int, C.INT_MIN, C.INT_MAX. lia.
Qed.




(** What a POST that receives its whole body does. *)
Lemma post_handler_saves (F : StorageManager.host) (R : request) (w : world)
    (body : list byte) (chunks : list (list byte)) (more : list (option (list byte))) :
  delete_requested R = false ->
  content_len R = Z.of_nat (List.length body) ->
  (List.length body < 64)%nat ->
  recv_answers R = List.map Some chunks ++ more ->
  Forall (fun c => c <> []) chunks ->
  List.concat chunks = body ->
  let r := string_post_handler K SK F R w in
  fst (fst r) = httpd_resp_send_rc R /\
  led (snd (fst r)) = led w /\
  storage (snd (fst r)) =
    fst (StorageManager.storage_manager_save_string SK F (posted_value body) (storage w)) /\
  List.filter is_nvs (snd r) =
    List.map nvs
      (snd (StorageManager.storage_manager_save_string SK F (posted_value body)
              (storage w))).
Proof.
  intros Hdel Hlen Hsmall Hans Hne Hbody r. subst r.
  unfold string_post_handler. rewrite Hdel, Hlen, small_length_is_int by assumption.
  assert (Hguard : (64 <=? Z.of_nat (List.length body)) = false) by (apply Z.leb_gt; lia).
  rewrite Hguard, Hans.
  pose proof (recv_loop_collects chunks more (Z.of_nat (List.length body)) [] Hne) as Hsome.
  pose proof (recv_loop_calls (List.map Some chunks ++ more)
                (Z.of_nat (List.length body)) []) as Hcalls.
  destruct (recv_loop (List.map Some chunks ++ more) (Z.of_nat (List.length body)) [])
    as [res tr].
  cbn [fst snd] in *. rewrite Hsome by (cbn [List.length Nat.add]; now rewrite Hbody).
  cbn [app]. rewrite Hbody. cbn [fst snd led storage].
  refine (conj eq_refl (conj eq_refl (conj eq_refl _))).
  rewrite !filter_app.
  assert (Htr : List.filter is_nvs tr = []).
  { clear Hsome. revert Hcalls. induction tr as [|a tr IH]; [reflexivity|].
    rewrite count_cons. cbn [List.length filter].
    destruct a; cbn [is_recv is_nvs]; try (intros Hc;
      pose proof (List.filter_length_le is_recv tr) as Hle;
      unfold C.count in Hc; cbn [Nat.add] in Hc; lia).
    cbn [Nat.add]. intros Hc. apply IH. lia. }
  rewrite Htr. cbn [app filter is_nvs send_text_response snd]. rewrite app_nil_r.
  induction (snd (StorageManager.storage_manager_save_string SK F (posted_value body)
                    (storage w))) as [|a l IH]; [reflexivity|].
  cbn [List.map filter is_nvs]. now rewrite IH.
Qed.


(** X24. POST /string saves the body however it arrives: when the
    announced length is that of the body, below 64, and
    [httpd_req_recv] delivers the body in non-empty pieces, the handler
    hands to [storage_manager_save_string] the body with its [value=]
    prefix removed when it has one, the same for every way of cutting
    the body into pieces; the LED is left alone. *)
Theorem X24_post_saves_body (F : StorageManager.host) (R : request) (w : world)
    (body : list byte) (chunks : list (list byte)) (more : list (option (list byte))) :
  delete_requested R = false ->
  content_len R = Z.of_nat (List.length body) ->
  (List.length body < 64)%nat ->
  recv_answers R = List.map Some chunks ++ more ->
  Forall (fun c => c <> []) chunks ->
  List.concat chunks = body ->
  let r := string_post_handler K SK F R w in
  fst (fst r) = httpd_resp_send_rc R /\
  led (snd (fst r)) = led w /\
  storage (snd (fst r)) =
    fst (StorageManager.storage_manager_save_string SK F (posted_value body) (storage w)) /\
  List.filter is_nvs (snd r) =
    List.map nvs
      (snd (StorageManager.storage_manager_save_string SK F (posted_value body)
              (storage w))).
Proof. apply post_handler_saves. Qed.

Lemma posted_value_prefixed (v : list byte) :
  posted_value (text "value=" ++ v) = v ++ [CString.NUL].
Proof. reflexivity. Qed.

Lemma get_handler_sends (R : request) (w : world) :
  List.filter is_send (snd (string_get_handler R w)) =
    [httpd_resp_send
       (if CString.is_nul
             (List.hd CString.NUL
                (StorageManager.storage_manager_get_string (storage w)))
        then text ("(empty)" ++ newline)
        else CString.cstr (StorageManager.storage_manager_get_string (storage w)))].
Proof.
  unfold string_get_handler.
  destruct (CString.is_nul _); reflexivity.
Qed.

(** X25. What is posted is what is read: after a POST /string whose
    body is [value=] followed by [v] (no terminator inside, the body
    shorter than 64 bytes, all of it received) and which the flash
    accepts, the stored string reads back as [v], and a GET /string
    that follows answers [v], or "(empty)" when [v] is empty. *)
Theorem X25_post_then_get (F : StorageManager.host) (R R' : request) (w : world)
    (v : list byte) (chunks : list (list byte)) (more : list (option (list byte))) :
  delete_requested R = false ->
  StorageManager.all_ok SK F = true ->
  List.length (StorageManager.s_stored_string (storage w)) = StorageManager.STRING_MAX_LEN ->
  Forall (fun c => c <> CString.NUL) v ->
  content_len R = Z.of_nat (List.length (text "value=" ++ v)) ->
  (List.length (text "value=" ++ v) < 64)%nat ->
  recv_answers R = List.map Some chunks ++ more ->
  Forall (fun c => c <> []) chunks ->
  List.concat chunks = text "value=" ++ v ->
  let w' := snd (fst (string_post_handler K SK F R w)) in
  CString.cstr (StorageManager.storage_manager_get_string (storage w')) = v /\
  List.filter is_send (snd (string_get_handler R' w')) =
    [httpd_resp_send
       match v with
       | [] => text ("(empty)" ++ newline)
       | _ :: _ => v
       end].
Proof.
  intros Hdel Hall Hlen Hv Hcl Hsmall Hans Hne Hbody w'. subst w'.
  destruct (post_handler_saves F R w (text "value=" ++ v) chunks more
              Hdel Hcl Hsmall Hans Hne Hbody) as (_ & _ & Hst & _).
  rewrite posted_value_prefixed in Hst.
  rewrite (save_cases SK F (v ++ [CString.NUL]) (storage w) Hlen), Hall in Hst.
  rewrite get_handler_sends, Hst.
  cbn [StorageManager.storage_manager_get_string StorageManager.s_stored_string].
  assert (Hread : CString.cstr
                    (CString.strncpy_bytes (v ++ [CString.NUL]) 63 ++ [CString.NUL]) = v).
  { rewrite cstr_strncpy_bytes, cstr_nul_free by assumption.
    apply firstn_all2. rewrite length_app in Hsmall. cbn [List.length text] in Hsmall.
    change (List.length (String.list_byte_of_string "value=")) with 6%nat in Hsmall. lia. }
  split; [exact Hread|]. rewrite Hread.
  change 63%nat with (S 62).
  destruct v as [|c v']; [reflexivity|].
  apply Forall_cons_iff in Hv. destruct Hv as [Hc _].
  cbn [app CString.strncpy_bytes]. rewrite (is_nul_false c Hc).
  cbn [app List.hd]. now rewrite (is_nul_false c Hc).
Qed.

(** X26. A delete that reaches the flash (open succeeds, erase returns
    [ESP_OK] or "not found") makes the next GET /string answer
    "(empty)", whatever the commit returned; the LED is left alone.
    And a POST /string with [delete=1] in its query is that delete: it
    does exactly what DELETE /string does and never reads the body. *)
Theorem X26_delete_then_get (F : StorageManager.host) (R R' : request) (w : world) :
  ((StorageManager.nvs_open_rc F =? StorageManager.ESP_OK SK)
   && ((StorageManager.nvs_erase_key_rc F =? StorageManager.ESP_ERR_NVS_NOT_FOUND SK)
       || (StorageManager.nvs_erase_key_rc F =? StorageManager.ESP_OK SK)) = true ->
   let w' := snd (fst (string_delete_handler SK F R w)) in
   led w' = led w /\
   List.filter is_send (snd (string_get_handler R' w')) =
     [httpd_resp_send (text ("(empty)" ++ newline))]) /\
  (delete_requested R = true ->
   string_post_handler K SK F R w = string_delete_handler SK F R w /\
   C.count is_recv (snd (string_post_handler K SK F R w)) = 0%nat).
Proof.
  split.
  - intros Herased w'. subst w'. split; [reflexivity|].
    rewrite get_handler_sends. unfold string_delete_handler. cbn [fst snd storage].
    rewrite delete_cases, Herased.
    cbn [StorageManager.storage_manager_get_string StorageManager.s_stored_string].
    destruct (StorageManager.s_stored_string (storage w)); reflexivity.
  - intros Hdel. unfold string_post_handler, string_delete_handler. rewrite Hdel.
    split; [reflexivity|].
    cbn [snd]. rewrite count_app.
    assert (Hmap : forall l, C.count is_recv (List.map nvs l) = 0%nat).
    { induction l as [|a l IH]; [reflexivity|]. cbn [List.map]. now rewrite count_cons, IH. }
    rewrite Hmap. reflexivity.
Qed.

End UriHandlers.


Lemma X24_post_saves_body_witness :
  WebServerHandlers.storage
    (snd (fst (WebServerHandlers.string_post_handler WebServerHandlers.idf_codes
                 StorageManager.idf_headers StorageManager.host_all_ok
                 {| WebServerHandlers.url_query := None;
                    WebServerHandlers.query_key_value := fun _ _ => None;
                    WebServerHandlers.content_len := 3;
                    WebServerHandlers.recv_answers := [Some [x61]; Some [x62; x63]];
                    WebServerHandlers.httpd_resp_send_rc := 0 |}
                 {| WebServerHandlers.led := LedControl.initial;
                    WebServerHandlers.storage := StorageManager.initial |}))) =
    fst (StorageManager.storage_manager_save_string StorageManager.idf_headers
           StorageManager.host_all_ok
           (WebServerHandlers.posted_value [x61; x62; x63]) StorageManager.initial).
Proof.
  destruct (X24_post_saves_body WebServerHandlers.idf_codes StorageManager.idf_headers
              StorageManager.host_all_ok
              {| WebServerHandlers.url_query := None;
                 WebServerHandlers.query_key_value := fun _ _ => None;
                 WebServerHandlers.content_len := 3;
                 WebServerHandlers.recv_answers := [Some [x61]; Some [x62; x63]];
                 WebServerHandlers.httpd_resp_send_rc := 0 |}
              {| WebServerHandlers.led := LedControl.initial;
                 WebServerHandlers.storage := StorageManager.initial |}
              [x61; x62; x63] [[x61]; [x62; x63]] [])
    as (_ & _ & Hst & _).
  - reflexivity.
  - reflexivity.
  - simpl. lia.
  - reflexivity.
  - repeat constructor; discriminate.
  - reflexivity.
  - exact Hst.
Defined.

Lemma X25_post_then_get_witness :
  CString.cstr
    (StorageManager.storage_manager_get_string
       (WebServerHandlers.storage
          (snd (fst (WebServerHandlers.string_post_handler WebServerHandlers.idf_codes
                       StorageManager.idf_headers StorageManager.host_all_ok
                       {| WebServerHandlers.url_query := None;
                          WebServerHandlers.query_key_value := fun _ _ => None;
                          WebServerHandlers.content_len := 8;
                          WebServerHandlers.recv_answers :=
                            [Some [x76; x61; x6c]; Some [x75; x65; x3d; x68; x69]];
                          WebServerHandlers.httpd_resp_send_rc := 0 |}
                       {| WebServerHandlers.led := LedControl.initial;
                          WebServerHandlers.storage := StorageManager.initial |}))))) =
    [x68; x69].
Proof.
  destruct (X25_post_then_get WebServerHandlers.idf_codes StorageManager.idf_headers
              StorageManager.host_all_ok
              {| WebServerHandlers.url_query := None;
                 WebServerHandlers.query_key_value := fun _ _ => None;
                 WebServerHandlers.content_len := 8;
                 WebServerHandlers.recv_answers :=
                   [Some [x76; x61; x6c]; Some [x75; x65; x3d; x68; x69]];
                 WebServerHandlers.httpd_resp_send_rc := 0 |}
              {| WebServerHandlers.url_query := None;
                 WebServerHandlers.query_key_value := fun _ _ => None;
                 WebServerHandlers.content_len := 0;
                 WebServerHandlers.recv_answers := [];
                 WebServerHandlers.httpd_resp_send_rc := 0 |}
              {| WebServerHandlers.led := LedControl.initial;
                 WebServerHandlers.storage := StorageManager.initial |}
              [x68; x69] [[x76; x61; x6c]; [x75; x65; x3d; x68; x69]] [])
    as [Hread _].
  - reflexivity.
  - reflexivity.
  - reflexivity.
  - repeat constructor; discriminate.
  - reflexivity.
  - simpl. lia.
  - reflexivity.
  - repeat constructor; discriminate.
  - reflexivity.
  - exact Hread.
Defined.

Lemma X26_delete_then_get_witness :
  WebServerHandlers.string_post_handler WebServerHandlers.idf_codes
    StorageManager.idf_headers StorageManager.host_all_ok
    {| WebServerHandlers.url_query := Some "delete=1"%string;
       WebServerHandlers.query_key_value := fun _ _ => Some "1"%string;
       WebServerHandlers.content_len := 12;
       WebServerHandlers.recv_answers := [Some [x61]];
       WebServerHandlers.httpd_resp_send_rc := 0 |}
    {| WebServerHandlers.led := LedControl.initial;
       WebServerHandlers.storage := StorageManager.initial |} =
  WebServerHandlers.string_delete_handler StorageManager.idf_headers
    StorageManager.host_all_ok
    {| WebServerHandlers.url_query := Some "delete=1"%string;
       WebServerHandlers.query_key_value := fun _ _ => Some "1"%string;
       WebServerHandlers.content_len := 12;
       WebServerHandlers.recv_answers := [Some [x61]];
       WebServerHandlers.httpd_resp_send_rc := 0 |}
    {| WebServerHandlers.led := LedControl.initial;
       WebServerHandlers.storage := StorageManager.initial |}.
Proof.
  destruct (X26_delete_then_get WebServerHandlers.idf_codes StorageManager.idf_headers
              StorageManager.host_all_ok
              {| WebServerHandlers.url_query := Some "delete=1"%string;
                 WebServerHandlers.query_key_value := fun _ _ => Some "1"%string;
                 WebServerHandlers.content_len := 12;
                 WebServerHandlers.recv_answers := [Some [x61]];
                 WebServerHandlers.httpd_resp_send_rc := 0 |}
              {| WebServerHandlers.url_query := None;
                 WebServerHandlers.query_key_value := fun _ _ => None;
                 WebServerHandlers.content_len := 0;
                 WebServerHandlers.recv_answers := [];
                 WebServerHandlers.httpd_resp_send_rc := 0 |}
              {| WebServerHandlers.led := LedControl.initial;
                 WebServerHandlers.storage := StorageManager.initial |}) as [_ Hpost].
  destruct (Hpost eq_refl) as [Heq _]. exact Heq.
Defined.

(** ** Start-up order *)

Section Startup.
Import Main.
Variables (WK : WiFi.constants) (SK : StorageManager.constants)
          (FK : StorageManager.flash_constants).

Lemma count_map_none {A B : Type} (p : B -> bool) (f : A -> B) (l : list A) :
  (forall x, p (f x) = false) -> C.count p (List.map f l) = 0%nat.
Proof.
  intros Hp. induction l as [|a l IH]; [reflexivity|].
  cbn [List.map]. now rewrite count_cons, Hp, IH.
Qed.

Lemma init_flash_no_ble H : C.count is_ble (snd (init_flash SK FK H)) = 0%nat.
Proof.
  unfold init_flash.
  destruct ((nvs_flash_init_rc H =? StorageManager.ESP_ERR_NVS_NO_FREE_PAGES FK)
            || (nvs_flash_init_rc H =? StorageManager.ESP_ERR_NVS_NEW_VERSION_FOUND FK));
    [|reflexivity].
  destruct (negb (nvs_flash_erase_rc H =? StorageManager.ESP_OK SK)); reflexivity.
Qed.

Lemma host_task_is_ble tr :
  C.count is_ble tr = 0%nat -> C.count is_host_task_start tr = 0%nat.
Proof.
  induction tr as [|a tr IH]; [reflexivity|].
  rewrite !count_cons. destruct a; cbn [is_ble is_host_task_start Nat.add];
    try exact IH. discriminate.
Qed.

Lemma storage_init_done_when_ready I s :
  StorageManager.flash_ready SK FK I = true ->
  exists s' ts, StorageManager.storage_manager_init SK FK I s =
                  StorageManager.init_done s' ts.
Proof.
  unfold StorageManager.flash_ready, StorageManager.storage_manager_init.
  destruct ((StorageManager.nvs_flash_init_rc I
               =? StorageManager.ESP_ERR_NVS_NO_FREE_PAGES FK)
            || (StorageManager.nvs_flash_init_rc I
                  =? StorageManager.ESP_ERR_NVS_NEW_VERSION_FOUND FK)).
  - rewrite andb_true_iff. intros [-> ->]. cbn [negb]. apply load_done.
  - intros ->. cbn [negb]. apply load_done.
Qed.

(** The calls made before [ble_peripheral_init]. *)
Lemma before_ble_no_ble H ts tw :
  C.count is_ble
    ((snd (init_flash SK FK H)
      ++ [ESP_LOG C.ESP_LOG_INFO "NVS initialized"]
      ++ List.map led (snd (LedControl.led_control_init LedControl.initial))
      ++ [ESP_LOG C.ESP_LOG_INFO "LED control initialized"])
     ++ List.map storage ts ++ List.map wifi tw) = 0%nat.
Proof.
  rewrite !count_app, init_flash_no_ble.
  rewrite (count_map_none is_ble storage) by reflexivity.
  rewrite (count_map_none is_ble wifi) by reflexivity.
  reflexivity.
Qed.

(** X27. [app_main] reaches the BLE initialisation only after
    [wifi_manager_start] has returned. When it runs to its end, the
    Wi-Fi call returned (connected or failed) and the NimBLE host task
    was started exactly once; when it is stuck, it is stuck in the
    Wi-Fi wait and no BLE call has been made; when a start-up check
    aborts it, the host task was not started. With the flash, the
    storage and the Bluetooth memory release in order, it finishes
    whenever the Wi-Fi call returns and stays blocked whenever the
    Wi-Fi call does. *)
Theorem X27_ble_starts_after_wifi (H : host) :
  match app_main WK SK FK H with
  | finished tr =>
      (exists bits s tw,
         WiFi.wifi_manager_start WK (wifi_bringup H) (wifi_events H) WiFi.initial =
           WiFi.Returned bits s tw) /\
      C.count is_host_task_start tr = 1%nat
  | blocked tr =>
      (exists s tw,
         WiFi.wifi_manager_start WK (wifi_bringup H) (wifi_events H) WiFi.initial =
           WiFi.Blocked s tw) /\
      C.count is_ble tr = 0%nat
  | aborted tr => C.count is_host_task_start tr = 0%nat
  end /\
  (fst (init_flash SK FK H) = true ->
   StorageManager.flash_ready SK FK (storage_answers H) = true ->
   esp_bt_controller_mem_release_rc H = StorageManager.ESP_OK SK ->
   match WiFi.wifi_manager_start WK (wifi_bringup H) (wifi_events H) WiFi.initial with
   | WiFi.Returned _ _ _ => exists tr, app_main WK SK FK H = finished tr
   | WiFi.Blocked _ _ => exists tr, app_main WK SK FK H = blocked tr
   | WiFi.Aborted _ => exists tr, app_main WK SK FK H = aborted tr
   end).
Proof.
  split.
  - unfold app_main.
    destruct (fst (init_flash SK FK H)); cbn [negb];
      [|apply host_task_is_ble, init_flash_no_ble].
    destruct (StorageManager.storage_manager_init SK FK (storage_answers H)
                StorageManager.initial) as [ts | s' ts].
    { apply host_task_is_ble.
      pose proof (before_ble_no_ble H ts []) as Hb.
      cbn [List.map] in Hb. rewrite app_nil_r in Hb. exact Hb. }
    destruct (WiFi.wifi_manager_start WK (wifi_bringup H) (wifi_events H) WiFi.initial)
      as [tw | sw tw | bits sw tw] eqn:Hwifi.
    + apply host_task_is_ble.
      pose proof (before_ble_no_ble H (ts ++ []) tw) as Hb.
      rewrite !count_app in *. rewrite !(count_map_none is_ble storage) in * by reflexivity.
      rewrite !(count_map_none is_ble wifi) in * by reflexivity.
      rewrite init_flash_no_ble in *. reflexivity.
    + split; [eauto|].
      rewrite !count_app. rewrite !(count_map_none is_ble storage) by reflexivity.
      rewrite !(count_map_none is_ble wifi) by reflexivity.
      rewrite init_flash_no_ble. reflexivity.
    + unfold Peripheral.ble_peripheral_init.
      destruct (negb (esp_bt_controller_mem_release_rc H =? StorageManager.ESP_OK SK)).
      * rewrite !count_app.
        rewrite !(count_map_none is_host_task_start storage) by reflexivity.
        rewrite !(count_map_none is_host_task_start wifi) by reflexivity.
        rewrite (host_task_is_ble _ (init_flash_no_ble H)). reflexivity.
      * split; [eauto|].
        rewrite !count_app.
        rewrite !(count_map_none is_host_task_start storage) by reflexivity.
        rewrite !(count_map_none is_host_task_start wifi) by reflexivity.
        rewrite (host_task_is_ble _ (init_flash_no_ble H)). reflexivity.
  - intros Hflash Hready Hmem. unfold app_main. rewrite Hflash. cbn [negb].
    destruct (storage_init_done_when_ready (storage_answers H) StorageManager.initial
                Hready) as (s' & ts & ->).
    destruct (WiFi.wifi_manager_start WK (wifi_bringup H) (wifi_events H) WiFi.initial)
      as [tw | sw tw | bits sw tw]; [eauto | eauto |].
    unfold Peripheral.ble_peripheral_init. rewrite Hmem, Z.eqb_refl. cbn [negb]. eauto.
Qed.

End Startup.

Lemma X27_ble_starts_after_wifi_witness :
  exists tr,
    Main.app_main WiFi.idf5_budget3 StorageManager.idf_headers
      StorageManager.idf_flash_headers
      (Main.host_all_ok [WiFi.STA_DISCONNECTED WiFi.idf5_budget3]) = Main.blocked tr.
Proof.
  destruct (X27_ble_starts_after_wifi WiFi.idf5_budget3 StorageManager.idf_headers
              StorageManager.idf_flash_headers
              (Main.host_all_ok [WiFi.STA_DISCONNECTED WiFi.idf5_budget3])) as [_ Hrun].
  apply (Hrun eq_refl eq_refl eq_refl).
Defined.
